(** * FitUploader: the file synchronisation and deduplication engine

    A shallow embedding of the engine of [fituploader.py] (and of the two
    averaging helpers of the older [FitUploader.py]):

    - [PyNum]            Python's [int / int] and [int(float)];
    - [Py]               exceptions, JSON values, [pathlib] paths, strings;
    - [FitFileProcessor] the record-stream clean-up ([cleanup_fit_file]);
    - [Legacy]           [calculate_avg] and [append_value] of FitUploader.py;
    - [ConfigManager]    the settings store ([load], [_validate_config], [save]);
    - [FitFileManager]   the processed-files ledger;
    - [GarminUploader]   the retry loop and the batch dispatcher;
    - [Catalog]          the scan of the source directories, the sizes shown,
                         the names of the cleaned copies and of the sources;
    - [FitUploaderApp]   what the window does to the ledger, and the
                         preparation of a batch.

    Python dictionaries are finite maps; the few places where the code
    relies on the identity of a dictionary object are pointed out where they
    occur. *)

From Stdlib Require Import ZArith Lia Ascii String List.
From stdpp Require Import gmap strings list fin_maps pretty.

#[local] Set Warnings "-register-all".
#[local] Open Scope Z_scope.

(* ===================================================================== *)
(** ** Python numbers                                                     *)
(* ===================================================================== *)

Module PyNum.

(** A finite binary64 value, [mant * 2 ^ expo].  The mantissa is kept
    unnormalised; [expo] is never below -1074. *)
Record float := mkFloat { mant : Z; expo : Z }.

(** Nearest integer to [num / den], ties to even ([den > 0]). *)
Definition round_half_even (num den : Z) : Z :=
  let quo := num / den in
  let rem := num mod den in
  if 2 * rem <? den then quo
  else if den <? 2 * rem then quo + 1
  else if Z.even quo then quo else quo + 1.

(** [floor (log2 (a / b))] for positive [a] and [b]. *)
Definition floor_log2_ratio (a b : Z) : Z :=
  let d := Z.log2 a - Z.log2 b in
  if a * 2 ^ Z.max 0 (- d) <? b * 2 ^ Z.max 0 d then d - 1 else d.

(** The correctly rounded binary64 quotient of two positive integers:
    53 significant bits, least exponent -1074, [None] when the rounded
    quotient does not fit (Python raises OverflowError). *)
Definition truediv_pos (a b : Z) : option float :=
  let e := floor_log2_ratio a b in
  let q := Z.max (e - 52) (-1074) in
  let m := round_half_even (a * 2 ^ Z.max 0 (- q)) (b * 2 ^ Z.max 0 q) in
  if 2 ^ 1024 <=? m * 2 ^ Z.max 0 q then None else Some (mkFloat m q).

Inductive div_error := ZeroDivision | Overflow.

(** [a / b] on Python integers. *)
Definition truediv (a b : Z) : div_error + float :=
  if b =? 0 then inl ZeroDivision
  else if a =? 0 then inr (mkFloat 0 0)
  else match truediv_pos (Z.abs a) (Z.abs b) with
       | Some f => inr (mkFloat (Z.sgn a * Z.sgn b * mant f) (expo f))
       | None => inl Overflow
       end.

(** [int(f)]: truncation towards zero. *)
Definition int_of_float (f : float) : Z :=
  if 0 <=? expo f then mant f * 2 ^ expo f
  else Z.quot (mant f) (2 ^ (- expo f)).



End PyNum.

(* ===================================================================== *)
(** ** Exceptions, JSON values, paths, strings                            *)
(* ===================================================================== *)

Module Py.

Inductive exn :=
| OverflowError
| ZeroDivisionError
| AttributeError
| TypeError
| UnicodeDecodeError
| JSONDecodeError
| OSError
| FitParseError
| FitBuildError.

(** The outcome of code that may raise. *)
Inductive result (A : Type) :=
| Ok (a : A)
| Raise (e : exn).
Arguments Ok {A} a.
Arguments Raise {A} e.

Definition bind {A B} (r : result A) (k : A → result B) : result B :=
  match r with
  | Ok a => k a
  | Raise e => Raise e
  end.

Definition of_div {A} (r : PyNum.div_error + A) : result A :=
  match r with
  | inr a => Ok a
  | inl PyNum.ZeroDivision => Raise ZeroDivisionError
  | inl PyNum.Overflow => Raise OverflowError
  end.

(** What [json.load] produces. *)
Inductive json : Type :=
| JNull
| JBool (b : bool)
| JInt (n : Z)
| JFloat (f : PyNum.float)
| JStr (s : string)
| JList (l : list json)
| JDict (d : gmap string json).

Inductive pytype := NoneType | PyBool | PyIntT | PyFloatT | PyStr | PyList | PyDict.

Definition pytype_eqb (s t : pytype) : bool :=
  match s, t with
  | NoneType, NoneType | PyBool, PyBool | PyIntT, PyIntT | PyFloatT, PyFloatT
  | PyStr, PyStr | PyList, PyList | PyDict, PyDict => true
  | _, _ => false
  end.

(** [type(v)]. *)
Definition type_of (v : json) : pytype :=
  match v with
  | JNull => NoneType
  | JBool _ => PyBool
  | JInt _ => PyIntT
  | JFloat _ => PyFloatT
  | JStr _ => PyStr
  | JList _ => PyList
  | JDict _ => PyDict
  end.

(** [isinstance(v, t)]: [bool] is a subclass of [int]. *)
Definition isinstance (v : json) (t : pytype) : bool :=
  pytype_eqb (type_of v) t
  || (pytype_eqb (type_of v) PyBool && pytype_eqb t PyIntT).

(** [v == s] for a string [s]: only an equal string compares equal. *)
Definition eq_str (v : option json) (s : string) : bool :=
  match v with
  | Some (JStr s') => bool_decide (s' = s)
  | _ => false
  end.

(** A [pathlib.Path], as its sequence of parts. *)
Definition Path := list string.

Definition path_name (p : Path) : string := List.last p EmptyString.
Definition path_parent (p : Path) : Path := removelast p.

(** [str(p)] on a POSIX path. *)
Fixpoint path_str (p : Path) : string :=
  match p with
  | [] => "."
  | [x] => x
  | x :: rest => x +:+ "/" +:+ path_str rest
  end.

(** [s.rfind('.')], counted from the start; [None] for -1. *)
Fixpoint rfind_dot (s : string) : option nat :=
  match s with
  | EmptyString => None
  | String c rest =>
      match rfind_dot rest with
      | Some i => Some (S i)
      | None => if Ascii.eqb c "."%char then Some O else None
      end
  end.

(** [PurePath.suffix] of a file name. *)
Definition name_suffix (name : string) : string :=
  match rfind_dot name with
  | Some i =>
      if (0 <? i)%nat && (i <? String.length name - 1)%nat
      then String.substring i (String.length name - i) name
      else EmptyString
  | None => EmptyString
  end.

(** [p.with_suffix(suffix)] for a path with a name. *)
Definition with_suffix (p : Path) (suffix : string) : Path :=
  let name := path_name p in
  let old := name_suffix name in
  let stem := String.substring 0 (String.length name - String.length old) name in
  path_parent p ++ [stem +:+ suffix].

(** [c.lower()] on ASCII. *)
Definition lower_ascii (c : ascii) : ascii :=
  let n := nat_of_ascii c in
  if (65 <=? n)%nat && (n <=? 90)%nat then ascii_of_nat (n + 32) else c.

Fixpoint lower (s : string) : string :=
  match s with
  | EmptyString => EmptyString
  | String c rest => String (lower_ascii c) (lower rest)
  end.

(** [needle in hay]. *)
Fixpoint contains (needle hay : string) : bool :=
  String.prefix needle hay
  || match hay with
     | EmptyString => false
     | String _ rest => contains needle rest
     end.

(** The files of a file system, by path. *)
Abbreviation files := (gmap Path (list Byte.byte)).

End Py.

Notation "'letE' x := r 'in' k" := (Py.bind r (fun x => k))
  (at level 10, x name, r at level 100, k at level 200, only parsing).

(* ===================================================================== *)
(** ** The content transformer: [FitFileProcessor]                        *)
(* ===================================================================== *)

(** The messages of a FIT file as the clean-up sees them: the three classes
    it tests with [isinstance], and every other class.  A message carries
    its fields by name; [RecordTemperatureField.ID] is the field named
    ["temperature"]. *)
Inductive message :=
| LapMessage (fields : gmap string Z)
| RecordMessage (fields : gmap string Z)
| SessionMessage (fields : gmap string Z)
| OtherMessage (class : string) (fields : gmap string Z).

Inductive message_kind := Lap | Sample | Session | Other.

Definition kind_of (m : message) : message_kind :=
  match m with
  | LapMessage _ => Lap
  | RecordMessage _ => Sample
  | SessionMessage _ => Session
  | OtherMessage _ _ => Other
  end.

Definition is_lap (m : message) : bool :=
  match m with LapMessage _ => true | _ => false end.

Definition is_other (m : message) : bool :=
  match m with OtherMessage _ _ => true | _ => false end.

Definition message_fields (m : message) : gmap string Z :=
  match m with
  | LapMessage f | RecordMessage f | SessionMessage f | OtherMessage _ f => f
  end.

(** [getattr(message, field_name, None)]. *)
Definition getattr (m : message) (field_name : string) : option Z :=
  message_fields m !! field_name.

Definition sum (l : list Z) : Z := foldr Z.add 0 l.

(** [not v] for an optional integer field: absent or zero. *)
Definition falsy (v : option Z) : bool :=
  match v with
  | None => true
  | Some n => n =? 0
  end.

Module FitFileProcessor.

(** [[v for v in values if v is not None and v > 0]] *)
Fixpoint valid_values (values : list (option Z)) : list Z :=
  match values with
  | [] => []
  | Some v :: rest => if 0 <? v then v :: valid_values rest else valid_values rest
  | None :: rest => valid_values rest
  end.

(** [int(sum(valid_values) / len(valid_values)) if valid_values else 0] *)
Definition _calculate_avg (values : list (option Z)) : Py.result Z :=
  let valid := valid_values values in
  match valid with
  | [] => Py.Ok 0
  | _ :: _ =>
      letE q := Py.of_div (PyNum.truediv (sum valid) (Z.of_nat (length valid))) in
      Py.Ok (PyNum.int_of_float q)
  end.

(** [values.append(value if value is not None else 0)] *)
Definition _append_value (values : list (option Z)) (m : message)
    (field_name : string) : list (option Z) :=
  values ++ [Some (default 0 (getattr m field_name))].

(** The three running lists of the loop. *)
Record accumulators := mkAcc {
  cadence_values : list (option Z);
  power_values : list (option Z);
  heart_rate_values : list (option Z)
}.

Definition no_values : accumulators := mkAcc [] [] [].

(** [if not message.<avg> and <values>: message.<avg> = _calculate_avg(<values>)] *)
Definition update_avg (fields : gmap string Z) (avg_name : string)
    (values : list (option Z)) : Py.result (gmap string Z) :=
  if falsy (fields !! avg_name) && negb (bool_decide (values = []))
  then letE avg := _calculate_avg values in Py.Ok (<[avg_name := avg]> fields)
  else Py.Ok fields.

(** The body of [for record in fit_file.records], with the messages handed
    to [builder.add] so far. *)
Fixpoint process_records (acc : accumulators) (records : list message)
    (builder : list message) : Py.result (list message) :=
  match records with
  | [] => Py.Ok builder
  | LapMessage _ :: rest => process_records acc rest builder
  | RecordMessage fields :: rest =>
      let m := RecordMessage (delete "temperature" fields) in
      let acc' := mkAcc (_append_value (cadence_values acc) m "cadence")
                        (_append_value (power_values acc) m "power")
                        (_append_value (heart_rate_values acc) m "heart_rate") in
      process_records acc' rest (builder ++ [m])
  | SessionMessage fields :: rest =>
      letE f1 := update_avg fields "avg_cadence" (cadence_values acc) in
      letE f2 := update_avg f1 "avg_power" (power_values acc) in
      letE f3 := update_avg f2 "avg_heart_rate" (heart_rate_values acc) in
      process_records no_values rest (builder ++ [SessionMessage f3])
  | OtherMessage c fields :: rest =>
      process_records acc rest (builder ++ [OtherMessage c fields])
  end.

(** What [fit_data.to_file] did when it was called. *)
Inductive write_outcome :=
| Written
| WriteFailed (left_behind : option (list Byte.byte)).

(** The collaborators of one call: the operating system's answers and the
    fit_tool library. *)
Record environment := mkEnv {
  access_R : Py.Path → bool;
  access_W : Py.Path → bool;
  from_file : list Byte.byte → Py.result (list message);
  build : list message → Py.result (list Byte.byte);
  to_file : write_outcome;
  unlink_ok : bool
}.

(** The clean-up of a partial destination file after a failed write. *)
Definition unlink_partial (env : environment) (fs : Py.files) (p : Py.Path)
    : Py.files :=
  if bool_decide (is_Some (fs !! p)) && unlink_ok env then delete p fs else fs.

(** [cleanup_fit_file(fit_file_path, new_file_path)]: the returned flag and
    the files afterwards. *)
Definition cleanup_fit_file (env : environment) (fs : Py.files)
    (fit_file_path new_file_path : Py.Path) : bool * Py.files :=
  match fs !! fit_file_path with
  | None => (false, fs)
  | Some bytes =>
      if negb (access_R env fit_file_path) then (false, fs)
      else if negb (access_W env (Py.path_parent new_file_path)) then (false, fs)
      else
        match (letE records := from_file env bytes in
               process_records no_values records []) with
        | Py.Raise _ => (false, fs)
        | Py.Ok messages =>
            match build env messages with
            | Py.Raise _ => (false, unlink_partial env fs new_file_path)
            | Py.Ok fit_data =>
                match to_file env with
                | Written => (true, <[new_file_path := fit_data]> fs)
                | WriteFailed None =>
                    (false, unlink_partial env fs new_file_path)
                | WriteFailed (Some partial) =>
                    (false, unlink_partial env
                              (<[new_file_path := partial]> fs) new_file_path)
                end
            end
        end
  end.

(** [retry_on_exception(max_retries)(func)]: [func] is called again while it
    raises, at most [max_retries] times; the last exception is re-raised. *)
Fixpoint retry_on_exception {S A} (max_retries : nat)
    (func : S → Py.result A * S) (s : S) : option (Py.result A) * S :=
  match max_retries with
  | O => (None, s)
  | S n =>
      match func s with
      | (Py.Ok a, s') => (Some (Py.Ok a), s')
      | (Py.Raise e, s') =>
          match n with
          | O => (Some (Py.Raise e), s')
          | S _ => retry_on_exception n func s'
          end
      end
  end.

End FitFileProcessor.

(** The two helpers of the older FitUploader.py. *)
Module Legacy.



End Legacy.

(* ===================================================================== *)
(** ** The settings store: [ConfigManager]                                *)
(* ===================================================================== *)

Module ConfigManager.

Definition MAX_CONCURRENT_UPLOADS : Z := 2.

(** [_get_default_config()] *)
Definition _get_default_config : gmap string Py.json :=
  list_to_map
    [ ("username", Py.JStr "");
      ("backup_path", Py.JStr "");
      ("processed_files", Py.JDict ∅);
      ("auto_select_new", Py.JBool true);
      ("max_concurrent_uploads", Py.JInt MAX_CONCURRENT_UPLOADS);
      ("auto_save_interval", Py.JInt 30);
      ("ui_theme", Py.JStr "default");
      ("log_level", Py.JStr "INFO") ].

(** One turn of [for key, value in config.items()]: the validated
    dictionary and the keys warned about so far. *)
Definition validate_item (key : string) (value : Py.json)
    (acc : gmap string Py.json * list string) : gmap string Py.json * list string :=
  match _get_default_config !! key with
  | Some default_value =>
      if Py.isinstance value (Py.type_of default_value)
      then (<[key := value]> acc.1, acc.2)
      else (acc.1, key :: acc.2)
  | None => acc
  end.

(** [_validate_config(config)]: [config.items()] exists for a dictionary
    only. *)
Definition _validate_config (config : Py.json)
    : Py.result (gmap string Py.json * list string) :=
  match config with
  | Py.JDict d => Py.Ok (map_fold validate_item (_get_default_config, []) d)
  | _ => Py.Raise Py.AttributeError
  end.

(** What opening and parsing the settings file gave. *)
Inductive read_outcome :=
| NoFile
| OpenFailed
| NotUtf8
| NotJson
| Document (doc : Py.json).

(** The store: [_config] and [_dirty]. *)
Record t := mk { _config : gmap string Py.json; _dirty : bool }.

(** [load()]: the new [_config] and the warnings logged; [except] catches
    JSONDecodeError and OSError. *)
Definition load (file : read_outcome)
    : Py.result (gmap string Py.json * list string) :=
  match file with
  | NoFile => Py.Ok (_get_default_config, [])
  | OpenFailed => Py.Ok (_get_default_config, [])
  | NotJson => Py.Ok (_get_default_config, [])
  | NotUtf8 => Py.Raise Py.UnicodeDecodeError
  | Document doc => _validate_config doc
  end.

(** [get(key, default)] *)
Definition get (cm : t) (key : string) (default_value : Py.json) : Py.json :=
  default default_value (_config cm !! key).

(** [set(key, value)]; [differs] is the outcome of Python's
    [self._config.get(key) != value].  (The debounced save it schedules
    for some keys is a timer of the application.) *)
Definition set (cm : t) (key : string) (value : Py.json) (differs : bool) : t :=
  if differs then mk (<[key := value]> (_config cm)) true else cm.

Section Save.

(** [Path.home()] and [json.dump], which writes the document in chunks. *)
Variable home : Py.Path.
Variable dump : gmap string Py.json → list (list Byte.byte).

Definition CONFIG_FILE : Py.Path := home ++ [".fituploader_config.json"%string].

Definition temp_file : Py.Path := Py.with_suffix CONFIG_FILE ".tmp".

(** The file operations [save] issues, one after the other. *)
Inductive fs_op :=
| OpenTruncate (p : Py.Path)
| Write (p : Py.Path) (chunk : list Byte.byte)
| Replace (src dst : Py.Path).

Definition fs_step (fs : Py.files) (op : fs_op) : Py.files :=
  match op with
  | OpenTruncate p => <[p := []]> fs
  | Write p chunk =>
      match fs !! p with
      | Some written => <[p := written ++ chunk]> fs
      | None => fs
      end
  | Replace src dst =>
      match fs !! src with
      | Some content => <[dst := content]> (delete src fs)
      | None => fs
      end
  end.

Definition run_ops (ops : list fs_op) (fs : Py.files) : Py.files :=
  foldl fs_step fs ops.

Definition save_ops (cm : t) : list fs_op :=
  OpenTruncate temp_file
  :: map (Write temp_file) (dump (_config cm))
  ++ [Replace temp_file CONFIG_FILE].

(** [save(force)] when nothing interrupts it. *)
Definition save (cm : t) (force : bool) (fs : Py.files) : t * Py.files :=
  if negb (_dirty cm) && negb force then (cm, fs)
  else (mk (_config cm) false, run_ops (save_ops cm) fs).

(** The files when the process stops after the first [n] operations of a
    [save] that does write. *)
Definition save_interrupted (cm : t) (n : nat) (fs : Py.files) : Py.files :=
  run_ops (take n (save_ops cm)) fs.

End Save.

End ConfigManager.

(* ===================================================================== *)
(** ** The processed-files ledger: [FitFileManager]                       *)
(* ===================================================================== *)

Record FileInfo := mkFileInfo {
  name : string;
  path : Py.Path;
  size : string;
  date : string;
  source : string;
  processed : bool;
  modified_time : Z;
  file_hash : string;
  size_bytes : Z
}.

Module FitFileManager.

(** [f"{file_info.name}_{file_info.size_bytes}"] *)
Definition file_key (file_info : FileInfo) : string :=
  name file_info +:+ "_" +:+ pretty (size_bytes file_info).

(** [isinstance(data, dict) and data.get('hash') == file_hash] *)
Definition hash_matches (file_hash : string) (data : Py.json) : bool :=
  match data with
  | Py.JDict d => Py.eq_str (d !! "hash"%string) file_hash
  | _ => false
  end.

(** The two tests of [is_file_processed] on the ledger dictionary. *)
Definition ledger_has (processed_info : gmap string Py.json)
    (file_info : FileInfo) : bool :=
  (negb (bool_decide (file_hash file_info = ""%string))
   && existsb (fun kv => hash_matches (file_hash file_info) kv.2)
              (map_to_list processed_info))
  || bool_decide (is_Some (processed_info !! file_key file_info)).

(** [is_file_processed(file_info)].  Validation and every [set] of the
    application keep a dictionary under ["processed_files"]; any other
    value is given the error of [processed_info.items()]. *)
Definition is_file_processed (cm : ConfigManager.t) (file_info : FileInfo)
    : Py.result bool :=
  match ConfigManager.get cm "processed_files" (Py.JDict ∅) with
  | Py.JDict processed_info => Py.Ok (ledger_has processed_info file_info)
  | _ => Py.Raise Py.AttributeError
  end.

(** The entry [mark_file_processed] stores; [now] is
    [datetime.now().isoformat()]. *)
Definition ledger_entry (file_info : FileInfo) (now : string) : Py.json :=
  Py.JDict (list_to_map
    [ ("timestamp"%string, Py.JStr now);
      ("hash"%string, Py.JStr (file_hash file_info));
      ("size"%string, Py.JInt (size_bytes file_info));
      ("path"%string, Py.JStr (Py.path_str (path file_info))) ]).

(** [mark_file_processed(file_info)].  [get] hands out the dictionary the
    store holds, so the item assignment updates the store in place and the
    [set] that follows compares that dictionary with itself; only when the
    key is missing does [set] receive a new dictionary. *)
Definition mark_file_processed (cm : ConfigManager.t) (file_info : FileInfo)
    (now : string) : Py.result ConfigManager.t :=
  match ConfigManager._config cm !! "processed_files"%string with
  | Some (Py.JDict processed_info) =>
      let updated :=
        Py.JDict (<[file_key file_info := ledger_entry file_info now]> processed_info) in
      let cm' := ConfigManager.mk
                   (<["processed_files"%string := updated]> (ConfigManager._config cm))
                   (ConfigManager._dirty cm) in
      Py.Ok (ConfigManager.set cm' "processed_files" updated false)
  | Some _ => Py.Raise Py.TypeError
  | None =>
      let updated :=
        Py.JDict (<[file_key file_info := ledger_entry file_info now]> ∅) in
      Py.Ok (ConfigManager.set cm "processed_files" updated true)
  end.

End FitFileManager.

(* ===================================================================== *)
(** ** The upload dispatcher: [GarminUploader]                            *)
(* ===================================================================== *)

Module GarminUploader.

(** [AppConfig.MAX_RETRY_ATTEMPTS] *)
Definition MAX_RETRY_ATTEMPTS : nat := 3.

(** What one attempt meets: the answer of [refresh_session]'s validity
    probe, and then either the return of [garth.client.upload] or an
    exception with its text [str(e)]. *)
Inductive response :=
| Uploaded
| Raised (msg : string).

Record attempt_event := mkEvent { session_ok : bool; outcome : response }.

(** The part of the world one upload changes: the shared connection flag,
    the sleeps made and the calls of the transport. *)
Record state := mkState {
  _is_connected : bool;
  slept : list Z;
  upload_calls : nat
}.

(** The tests of the [except] branch on [error_msg = str(e).lower()], in the
    order of the source. *)
Definition is_duplicate (error_msg : string) : bool :=
  Py.contains "409" error_msg || Py.contains "duplicate" error_msg.

Definition is_unauthorized (error_msg : string) : bool :=
  Py.contains "401" error_msg || Py.contains "unauthorized" error_msg.

Definition is_rate_limit (error_msg : string) : bool :=
  Py.contains "429" error_msg || Py.contains "rate limit" error_msg.

Definition is_network (error_msg : string) : bool :=
  existsb (fun keyword => Py.contains keyword error_msg)
          ["timeout"; "connection"; "network"]%string.

(** [auth_manager.refresh_session()] *)
Definition refresh_session (st : state) (ev : attempt_event) : bool :=
  _is_connected st && session_ok ev.

Definition sleep (seconds : Z) (st : state) : state :=
  mkState (_is_connected st) (slept st ++ [seconds]) (upload_calls st).

(** [for attempt in range(max_retries)], from iteration [attempt] on, with
    [remaining] iterations left; the result is the pair
    [(success, is_duplicate)]. *)
Fixpoint attempt_loop (max_retries : nat) (events : nat → attempt_event)
    (remaining attempt : nat) (st : state) : (bool * bool) * state :=
  match remaining with
  | O => ((false, false), st)
  | S remaining' =>
      let ev := events attempt in
      if negb (refresh_session st ev) then ((false, false), st)
      else
        let st := mkState (_is_connected st) (slept st) (S (upload_calls st)) in
        let next := attempt_loop max_retries events remaining' (S attempt) in
        let not_last := Z.of_nat attempt <? Z.of_nat max_retries - 1 in
        match outcome ev with
        | Uploaded => ((true, false), st)
        | Raised msg =>
            let error_msg := Py.lower msg in
            if is_duplicate error_msg then ((true, true), st)
            else if is_unauthorized error_msg then
              ((false, false), mkState false (slept st) (upload_calls st))
            else if is_rate_limit error_msg then
              next (sleep (Z.min (2 ^ Z.of_nat attempt * 2) 60) st)
            else if is_network error_msg && not_last then
              next (sleep (Z.min (2 ^ Z.of_nat attempt) 30) st)
            else if not_last then
              next (sleep (2 ^ Z.of_nat attempt) st)
            else next st
        end
  end.

(** One file of a batch, with what its upload meets. [scan] is what
    [scan_files_async()] returns and [now] the clock when the file's
    result is handled. *)
Record task := mkTask {
  file_path : Py.Path;
  file_exists : bool;
  file_readable : bool;
  events : nat → attempt_event;
  scan : list FileInfo;
  now : string
}.

(** [_upload_file_with_retry(file_path, max_retries)] *)
Definition _upload_file_with_retry (max_retries : nat) (tk : task)
    (st : state) : (bool * bool) * state :=
  if negb (file_exists tk) then ((false, false), st)
  else if negb (file_readable tk) then ((false, false), st)
  else attempt_loop max_retries (events tk) max_retries O st.

Record stats := mkStats { total : Z; success : Z; failed : Z; duplicates : Z }.

(** What [upload_files] works on: the settings store with the ledger, the
    uploader's state, the [results] dictionary and [_upload_stats]. *)
Record batch := mkBatch {
  config : ConfigManager.t;
  uploader : state;
  results : gmap Py.Path bool;
  _upload_stats : stats
}.

(** [next((info for info in scan if info.path == file_path), None)] *)
Definition find_file_info (catalog : list FileInfo) (p : Py.Path)
    : option FileInfo :=
  List.find (fun info => bool_decide (path info = p)) catalog.

(** The body of [for i, future in enumerate(as_completed(...))] for one
    completed file.  The uploads of a batch are taken one after the other,
    in the order in which they complete. *)
Definition handle_completed (b : batch) (tk : task) : batch :=
  let '((ok, is_dup), st) :=
    _upload_file_with_retry MAX_RETRY_ATTEMPTS tk (uploader b) in
  let s := _upload_stats b in
  let res := <[file_path tk := ok]> (results b) in
  if ok then
    let s := if is_dup
             then mkStats (total s) (success s) (failed s) (duplicates s + 1)
             else mkStats (total s) (success s + 1) (failed s) (duplicates s) in
    match find_file_info (scan tk) (file_path tk) with
    | Some file_info =>
        match FitFileManager.mark_file_processed (config b) file_info (now tk) with
        | Py.Ok cm => mkBatch cm st res s
        | Py.Raise _ =>
            mkBatch (config b) st (<[file_path tk := false]> res)
                    (mkStats (total s) (success s) (failed s + 1) (duplicates s))
        end
    | None => mkBatch (config b) st res s
    end
  else
    mkBatch (config b) st res
            (mkStats (total s) (success s) (failed s + 1) (duplicates s)).

(** [upload_files(files)]: the returned dictionary and the state after. *)
Definition upload_files (cm : ConfigManager.t) (st : state) (old : stats)
    (tasks : list task) : gmap Py.Path bool * batch :=
  match tasks with
  | [] => (∅, mkBatch cm st ∅ old)
  | _ :: _ =>
      let b := foldl handle_completed
                 (mkBatch cm st ∅ (mkStats (Z.of_nat (length tasks)) 0 0 0))
                 tasks in
      (results b, b)
  end.

(** The spec's three outcomes, read off the pair the retry loop returns. *)
Inductive UploadOutcome := Success | DuplicateOnRemote | Failed.

Definition outcome_of (r : bool * bool) : UploadOutcome :=
  match r with
  | (true, false) => Success
  | (true, true) => DuplicateOnRemote
  | (false, _) => Failed
  end.

End GarminUploader.

(* ===================================================================== *)
(** ** Notions used to state the properties                               *)
(* ===================================================================== *)

Module Spec.

(** The values one field contributes to its running list over a stretch of
    messages: one per sample record, zero for a missing value. *)
Definition samples_of (field_name : string) (block : list message)
    : list (option Z) :=
  omap (fun m => match m with
                 | RecordMessage fields => Some (Some (default 0 (fields !! field_name)))
                 | _ => None
                 end) block.

(** The strictly positive entries of a list of accumulated values. *)
Definition positive_entries (values : list (option Z)) : list Z :=
  filter (fun v => 0 < v) (omap id values).

(** The arithmetic mean, truncated to an integer; 0 for the empty list. *)
Definition truncated_mean (l : list Z) : Z :=
  match l with
  | [] => 0
  | _ :: _ => Z.quot (sum l) (Z.of_nat (length l))
  end.


(** The range in which the binary64 quotient of Python is exact to the
    unit.  FIT sample fields are at most 16 bits wide and a file holds
    fewer than 2^32 records, so every sum of samples lies in it. *)
Definition in_range (values : list (option Z)) : Prop :=
  sum (positive_entries values) < 2 ^ 53.




(** The session average the clean-up stores for one field. *)
Definition session_average (fields : gmap string Z) (avg_name : string)
    (values : list (option Z)) : option Z :=
  if falsy (fields !! avg_name) && negb (bool_decide (values = []))
  then Some (truncated_mean (positive_entries values))
  else fields !! avg_name.

(** The three averaged fields with the sample field each one summarises. *)
Definition averaged_fields : list (string * string) :=
  [ ("avg_cadence", "cadence"); ("avg_power", "power");
    ("avg_heart_rate", "heart_rate") ]%string.

(** Every running list of a stretch of messages stays in range. *)
Definition samples_in_range (block : list message) : Prop :=
  in_range (samples_of "cadence" block)
  ∧ in_range (samples_of "power" block)
  ∧ in_range (samples_of "heart_rate" block).

(** The running lists after a stretch of messages without session summary. *)
Definition accumulate (acc : FitFileProcessor.accumulators)
    (block : list message) : FitFileProcessor.accumulators :=
  FitFileProcessor.mkAcc
    (FitFileProcessor.cadence_values acc ++ samples_of "cadence" block)
    (FitFileProcessor.power_values acc ++ samples_of "power" block)
    (FitFileProcessor.heart_rate_values acc ++ samples_of "heart_rate" block).

(** [rewritten m m']: the output message [m'] stands for the input message
    [m].  A sample only loses its temperature, a session summary differs at
    most in its three averages, any other message is the same; a lap has no
    output. *)
Definition rewritten (m m' : message) : Prop :=
  match m with
  | LapMessage _ => False
  | RecordMessage fields => m' = RecordMessage (delete "temperature"%string fields)
  | SessionMessage fields =>
      ∃ fields', m' = SessionMessage fields'
        ∧ ∀ k, k ∉ averaged_fields.*1 → fields' !! k = fields !! k
  | OtherMessage c fields => m' = OtherMessage c fields
  end.

(** [validation_of d r]: [r] is the validated configuration, with its
    warnings, of the loaded dictionary [d]. *)
Definition validation_of (d : gmap string Py.json)
    (r : gmap string Py.json * list string) : Prop :=
  (∀ key,
     r.1 !! key
     = match ConfigManager._get_default_config !! key with
       | None => None
       | Some default_value =>
           match d !! key with
           | Some value =>
               if Py.isinstance value (Py.type_of default_value)
               then Some value else Some default_value
           | None => Some default_value
           end
       end)
  ∧ (∀ key,
       key ∈ r.2 ↔
       ∃ default_value value,
         ConfigManager._get_default_config !! key = Some default_value
         ∧ d !! key = Some value
         ∧ Py.isinstance value (Py.type_of default_value) = false).

(** The store of a first start, a scanned file, and the same content under
    another name. *)
Definition fresh_store : ConfigManager.t :=
  ConfigManager.mk ConfigManager._get_default_config false.

Definition ride_file : FileInfo :=
  mkFileInfo "MyNewActivity-1.fit" ["data"; "MyNewActivity-1.fit"]%string
    "1.0 KB" "01/01/2025 10:00" "MyWhoosh" false 1735725600
    "0123456789abcdef" 1024.

Definition renamed_ride_file : FileInfo :=
  mkFileInfo "MyNewActivity-7.fit" ["data"; "MyNewActivity-7.fit"]%string
    "1.0 KB" "02/01/2025 10:00" "MyWhoosh" false 1735812000
    "0123456789abcdef" 1024.

(** The time recorded for a file in the ledger. *)
Definition timestamp_of (cm : ConfigManager.t) (file_info : FileInfo)
    : option Py.json :=
  match ConfigManager._config cm !! "processed_files"%string with
  | Some (Py.JDict processed_info) =>
      match processed_info !! FitFileManager.file_key file_info with
      | Some (Py.JDict entry) => entry !! "timestamp"%string
      | _ => None
      end
  | _ => None
  end.

(** A short ride: power 100, 150, 200, a sample without power, and a
    session summary whose average power is zero. *)
Definition sample_ride : list message :=
  [ RecordMessage {[ "power"%string := 100 ]};
    RecordMessage {[ "power"%string := 150 ]};
    RecordMessage {[ "power"%string := 200 ]};
    RecordMessage {[ "cadence"%string := 80 ]};
    SessionMessage {[ "avg_power"%string := 0 ]} ].

(** The branch of the [except] clause an exception text takes. *)
Inductive error_class :=
| DuplicateError
| UnauthorizedError
| RateLimitError
| NetworkError
| OtherError.

Definition classify (msg : string) : error_class :=
  let error_msg := Py.lower msg in
  if GarminUploader.is_duplicate error_msg then DuplicateError
  else if GarminUploader.is_unauthorized error_msg then UnauthorizedError
  else if GarminUploader.is_rate_limit error_msg then RateLimitError
  else if GarminUploader.is_network error_msg then NetworkError
  else OtherError.

Definition error_class_eqb (c1 c2 : error_class) : bool :=
  match c1, c2 with
  | DuplicateError, DuplicateError | UnauthorizedError, UnauthorizedError
  | RateLimitError, RateLimitError | NetworkError, NetworkError
  | OtherError, OtherError => true
  | _, _ => false
  end.

(** The attempt has a valid session and its upload raises an error of
    class [c]. *)
Definition meets (c : error_class) (ev : GarminUploader.attempt_event) : bool :=
  GarminUploader.session_ok ev
  && match GarminUploader.outcome ev with
     | GarminUploader.Raised msg => error_class_eqb (classify msg) c
     | GarminUploader.Uploaded => false
     end.

(** The attempt has a valid session and its upload raises an error after
    which the loop goes on. *)
Definition retried (ev : GarminUploader.attempt_event) : bool :=
  meets RateLimitError ev || meets NetworkError ev || meets OtherError ev.

(** The attempt has a valid session and its upload returns. *)
Definition accepted (ev : GarminUploader.attempt_event) : bool :=
  GarminUploader.session_ok ev
  && match GarminUploader.outcome ev with
     | GarminUploader.Uploaded => true
     | GarminUploader.Raised _ => false
     end.

(** The sleeps of [n] rate-limited attempts, and of [n] attempts that meet
    a network error. *)
Definition rate_limit_backoff (first n : nat) : list Z :=
  map (fun k => Z.min (2 ^ Z.of_nat k * 2) 60) (seq first n).


(** Error texts as the transport words them. *)
Definition conflict_409 : string :=
  "Error in request: 409 Client Error: Conflict for url: https://connectapi.garmin.com/upload-service/upload".

Definition too_many_requests_429 : string :=
  "Error in request: 429 Client Error: Too Many Requests for url: https://connectapi.garmin.com/upload-service/upload".

Definition read_timeout : string :=
  "HTTPSConnectionPool(host='connectapi.garmin.com', port=443): Read timed out. (read timeout=45)".

(** A cleaned copy in the backup directory, as the application uploads it,
    with what its upload meets at each attempt; the scan lists the files of
    the source directory. *)
Definition cleaned_copy (events : nat → GarminUploader.attempt_event)
    : GarminUploader.task :=
  GarminUploader.mkTask ["backup"; "MW_2025-01-01_100000_1.fit"]%string
    true true events [ride_file] "2025-01-01T10:00:05".

(** The source file itself, uploaded when no backup directory is set. *)
Definition source_upload (events : nat → GarminUploader.attempt_event)
    : GarminUploader.task :=
  GarminUploader.mkTask (path ride_file) true true events [ride_file]
    "2025-01-01T10:00:05".

Definition always (r : GarminUploader.response) (k : nat)
    : GarminUploader.attempt_event :=
  GarminUploader.mkEvent true r.

Definition connected : GarminUploader.state := GarminUploader.mkState true [] 0.

Definition new_batch (n : Z) : GarminUploader.batch :=
  GarminUploader.mkBatch fresh_store connected ∅ (GarminUploader.mkStats n 0 0 0).

(** A file with a header message and a lap before the ride, and
    collaborators that answer yes, parse it and write what is built. *)
Definition sample_file : list message :=
  OtherMessage "file_id" {[ "type"%string := 4 ]} :: LapMessage ∅ :: sample_ride.

Definition sample_env : FitFileProcessor.environment :=
  FitFileProcessor.mkEnv (fun _ => true) (fun _ => true)
    (fun _ => Py.Ok sample_file) (fun _ => Py.Ok [Byte.x2e])
    FitFileProcessor.Written true.

End Spec.

(* ===================================================================== *)
(** ** The file catalog: the other methods of [FitFileManager]            *)
(* ===================================================================== *)

Module Catalog.

(** *** [_format_size] *)

(** [float(n)] for a positive integer: the nearest binary64. *)
Definition float_of_int (n : Z) : Py.result PyNum.float :=
  Py.of_div (PyNum.truediv n 1).

(** [x / 1024.0], exact for the values it is applied to (at least 1024). *)
Definition div_1024 (x : PyNum.float) : PyNum.float :=
  PyNum.mkFloat (PyNum.mant x) (PyNum.expo x - 10).

(** [x < 1024.0] *)
Definition lt_1024 (x : PyNum.float) : bool :=
  if 0 <=? PyNum.expo x then PyNum.mant x * 2 ^ PyNum.expo x <? 1024
  else PyNum.mant x <? 1024 * 2 ^ (- PyNum.expo x).

(** [x == int(x)] *)
Definition is_integer (x : PyNum.float) : bool :=
  (0 <=? PyNum.expo x) || (PyNum.mant x mod 2 ^ (- PyNum.expo x) =? 0).

(** [f"{x:.1f}"] for a float that is not negative: the nearest multiple of
    one tenth, ties to even. *)
Definition format_1f (x : PyNum.float) : string :=
  let tenths :=
    if 0 <=? PyNum.expo x then PyNum.mant x * 2 ^ PyNum.expo x * 10
    else PyNum.round_half_even (PyNum.mant x * 10) (2 ^ (- PyNum.expo x)) in
  pretty (tenths / 10) +:+ "." +:+ pretty (tenths mod 10).

(** The turns of [for unit in ...] once the size is a float. *)
Fixpoint format_units (units : list string) (x : PyNum.float) : string :=
  match units with
  | [] => format_1f x +:+ " TB"
  | unit :: rest =>
      if lt_1024 x then
        if is_integer x then pretty (PyNum.int_of_float x) +:+ " " +:+ unit
        else format_1f x +:+ " " +:+ unit
      else format_units rest (div_1024 x)
  end.

(** [_format_size(size_bytes)] for the integer [st_size]. *)
Definition _format_size (size_bytes : Z) : Py.result string :=
  if size_bytes <? 1024 then Py.Ok (pretty size_bytes +:+ " B")
  else letE x := float_of_int size_bytes in
       Py.Ok (format_units ["KB"; "MB"; "GB"]%string (div_1024 x)).

(** *** [get_fit_files] and [scan_files_async] *)

Fixpoint drop_string (n : nat) (s : string) : string :=
  match n, s with
  | O, _ => s
  | S n', String _ rest => drop_string n' rest
  | S _, EmptyString => EmptyString
  end.

(** [s.endswith(suffix)] *)
Definition ends_with (suffix s : string) : bool :=
  (String.length suffix <=? String.length s)%nat
  && bool_decide (drop_string (String.length s - String.length suffix) s = suffix).

(** The glob pattern ["MyNewActivity-*.fit"] on a file name, compared
    letter for letter as on a POSIX system. *)
Definition matches_pattern (file_name : string) : bool :=
  String.prefix "MyNewActivity-" file_name
  && ends_with ".fit" (drop_string 14 file_name).

(** One entry of a source directory that can be read, with what [stat]
    gives and the fingerprint [FileInfo] computes for it (empty when the
    file cannot be read); [st_mtime] stands for the time stamp, in its
    order. *)
Record dir_entry := mkEntry {
  entry_name : string;
  is_file : bool;
  st_size : Z;
  st_mtime : Z;
  content_hash : string
}.

(** [get_fit_files(source_dir)]; [None] is a path that is no directory. *)
Definition get_fit_files (source_dir : option (list dir_entry))
    : list dir_entry :=
  match source_dir with
  | None => []
  | Some entries =>
      List.filter
        (fun e => matches_pattern (entry_name e) && is_file e && (0 <? st_size e))
        entries
  end.

(** [fit_files.sort(key=st_mtime, reverse=True)]: newest first, files of
    the same time in the order they had. *)
Fixpoint insert_newest (e : dir_entry) (sorted : list dir_entry)
    : list dir_entry :=
  match sorted with
  | [] => [e]
  | y :: rest =>
      if st_mtime e <? st_mtime y then y :: insert_newest e rest
      else e :: y :: rest
  end.

Definition sort_newest_first (fit_files : list dir_entry) : list dir_entry :=
  foldr insert_newest [] fit_files.

(** A source: its name, its directory and the entries of the directory. *)
Record source_dir := mkSource {
  source_name : string;
  source_path : Py.Path;
  source_entries : option (list dir_entry)
}.

Section Scan.

(** [strftime('%d/%m/%Y %H:%M')] of the modification time. *)
Variable format_date : Z → string.

(** The body of [for file_path in fit_files]: the [FileInfo] of one file,
    with its [processed] flag; a file whose analysis raises is left out. *)
Definition file_info_of (cm : ConfigManager.t) (src : source_dir)
    (e : dir_entry) : list FileInfo :=
  match _format_size (st_size e) with
  | Py.Raise _ => []
  | Py.Ok shown =>
      let file_info :=
        mkFileInfo (entry_name e) (source_path src ++ [entry_name e]) shown
          (format_date (st_mtime e)) (source_name src) false (st_mtime e)
          (content_hash e) (st_size e) in
      match FitFileManager.is_file_processed cm file_info with
      | Py.Raise _ => []
      | Py.Ok flag =>
          [mkFileInfo (entry_name e) (source_path src ++ [entry_name e]) shown
             (format_date (st_mtime e)) (source_name src) flag (st_mtime e)
             (content_hash e) (st_size e)]
      end
  end.

(** The body of [for source_name, source_dir in sources.items()]. *)
Definition scan_source (cm : ConfigManager.t) (src : source_dir)
    : list FileInfo :=
  flat_map (file_info_of cm src)
    (sort_newest_first (get_fit_files (source_entries src))).

(** [d[key] = value] on a dictionary kept as the list of its items. *)
Fixpoint dict_set {V} (key : Py.Path) (value : V) (d : list (Py.Path * V))
    : list (Py.Path * V) :=
  match d with
  | [] => [(key, value)]
  | (k, v) :: rest =>
      if bool_decide (k = key) then (k, value) :: rest
      else (k, v) :: dict_set key value rest
  end.

(** [{info.path: info for info in file_infos}] *)
Definition cache_of (file_infos : list FileInfo) : list (Py.Path * FileInfo) :=
  foldl (fun d info => dict_set (path info) info d) [] file_infos.

(** [(now - then).seconds]: the seconds of a [timedelta], days left out;
    times are in microseconds. *)
Definition timedelta_seconds (now before : Z) : Z :=
  ((now - before) mod (86400 * 1000000)) / 1000000.

(** [_cache] and [_cache_time]. *)
Record cache := mkCache {
  _cache : list (Py.Path * FileInfo);
  _cache_time : option Z
}.

Definition SCAN_CACHE_DURATION : Z := 30.

Definition cache_is_used (c : cache) (now : Z) : bool :=
  match _cache_time c with
  | Some before =>
      (timedelta_seconds now before <? SCAN_CACHE_DURATION)
      && negb (bool_decide (_cache c = []))
  | None => false
  end.

(** [scan_files_async()] at time [now], with the sources
    [get_available_sources()] returns. *)
Definition scan_files_async (c : cache) (now : Z) (cm : ConfigManager.t)
    (sources : list source_dir) : list FileInfo * cache :=
  if cache_is_used c now then ((_cache c).*2, c)
  else
    let file_infos := flat_map (scan_source cm) sources in
    (file_infos, mkCache (cache_of file_infos) (Some now)).

End Scan.

(** *** [generate_new_filename] *)

Definition is_digit (c : ascii) : bool :=
  let n := nat_of_ascii c in (48 <=? n)%nat && (n <=? 57)%nat.

(** The longest run of digits at the head of a string, and the rest. *)
Fixpoint span_digits (s : string) : string * string :=
  match s with
  | String c rest =>
      if is_digit c then
        let '(digits, tail) := span_digits rest in (String c digits, tail)
      else (EmptyString, s)
  | EmptyString => (EmptyString, EmptyString)
  end.

(** [re.match(r'MyNewActivity-(\d+)\.fit', s)]: group 1. *)
Definition match_activity (s : string) : option string :=
  if String.prefix "MyNewActivity-" s then
    let '(digits, tail) := span_digits (drop_string 14 s) in
    if negb (bool_decide (digits = EmptyString)) && String.prefix ".fit" tail
    then Some digits else None
  else None.

(** [re.search(r'MyNewActivity-(\d+)\.fit', s)]: group 1 of the first
    match, for a file name in ASCII. *)
Fixpoint search_activity (s : string) : option string :=
  match match_activity s with
  | Some digits => Some digits
  | None =>
      match s with
      | String _ rest => search_activity rest
      | EmptyString => None
      end
  end.

Definition MW_PREFIX : string := "MW_".

(** [f"{base_name}{'_' + str(counter) if counter else ''}.fit"] *)
Definition candidate (base_name : string) (counter : nat) : string :=
  base_name
  +:+ (match counter with O => EmptyString | S _ => "_" +:+ pretty counter end)
  +:+ ".fit".

(** [while (backup_path / candidate).exists(): counter += 1], for at most
    [fuel] turns; a name is taken when a file has it. *)
Fixpoint first_free (fs : Py.files) (backup_path : Py.Path)
    (base_name : string) (fuel counter : nat) : option nat :=
  match fuel with
  | O => None
  | S fuel' =>
      if bool_decide (is_Some (fs !! (backup_path ++ [candidate base_name counter])))
      then first_free fs backup_path base_name fuel' (S counter)
      else Some counter
  end.

(** [generate_new_filename(fit_file)]: [timestamp] is
    [datetime.now().strftime("%Y-%m-%d_%H%M%S")] and [backup_path] what
    [get_backup_path()] returns.  The loop has one turn more than there are
    files. *)
Definition generate_new_filename (fs : Py.files) (backup_path : option Py.Path)
    (timestamp : string) (fit_file_name : string) : option string :=
  let activity_num :=
    match search_activity fit_file_name with
    | Some digits => "_" +:+ digits
    | None => EmptyString
    end in
  let base_name := MW_PREFIX +:+ timestamp +:+ activity_num in
  match backup_path with
  | Some dir =>
      match first_free fs dir base_name (S (base.size fs)) O with
      | Some counter => Some (candidate base_name counter)
      | None => None
      end
  | None => Some (base_name +:+ ".fit")
  end.

(** *** [get_available_sources] *)

(** ["MyWhoosh" if i == 0 else f"MyWhoosh_{i+1}"] *)
Definition source_name_of (i : nat) : string :=
  match i with
  | O => "MyWhoosh"
  | S _ => "MyWhoosh_" +:+ pretty (S i)
  end.

(** [sources[source_name] = path] on a dictionary kept as the list of its
    items. *)
Fixpoint sources_set (key : string) (value : Py.Path)
    (d : list (string * Py.Path)) : list (string * Py.Path) :=
  match d with
  | [] => [(key, value)]
  | (k, v) :: rest =>
      if bool_decide (k = key) then (k, value) :: rest
      else (k, v) :: sources_set key value rest
  end.

(** The loop of [get_available_sources] over [enumerate(paths)], from
    index [i] on. *)
Fixpoint name_sources (i : nat) (paths : list Py.Path)
    (sources : list (string * Py.Path)) : list (string * Py.Path) :=
  match paths with
  | [] => sources
  | p :: rest => name_sources (S i) rest (sources_set (source_name_of i) p sources)
  end.

(** [_sources_cache] and [_sources_cache_time]. *)
Record sources_cache := mkSourcesCache {
  _sources_cache : option (list (string * Py.Path));
  _sources_cache_time : option Z
}.

(** [get_available_sources()] at time [now]; [paths] is what
    [_get_mywhoosh_paths()] returns. *)
Definition get_available_sources (c : sources_cache) (now : Z)
    (paths : list Py.Path) : list (string * Py.Path) * sources_cache :=
  match _sources_cache c, _sources_cache_time c with
  | Some (item :: items), Some before =>
      if timedelta_seconds now before <? 60 then (item :: items, c)
      else let sources := name_sources 0 paths [] in
           (sources, mkSourcesCache (Some sources) (Some now))
  | _, _ =>
      let sources := name_sources 0 paths [] in
      (sources, mkSourcesCache (Some sources) (Some now))
  end.

(** [get_mywhoosh_directory()] *)
Definition get_mywhoosh_directory (paths : list Py.Path) : option Py.Path :=
  head paths.

End Catalog.

(* ===================================================================== *)
(** ** The ledger in the hands of the application: [FitUploaderApp]       *)
(* ===================================================================== *)

Module FitUploaderApp.

(** The test of [mark_as_new] on one ledger item: a dictionary entry goes
    when it has the fingerprint of the file, if there is one, or when the
    file name occurs in its key; any other entry when the file name occurs
    in its key. *)
Definition to_remove (info : FileInfo) (filename : string)
    (item : string * Py.json) : bool :=
  match item.2 with
  | Py.JDict data =>
      (Py.eq_str (data !! "hash"%string) (file_hash info)
       && negb (bool_decide (file_hash info = ""%string)))
      || Py.contains filename item.1
  | _ => Py.contains filename item.1
  end.

(** [keys_to_remove], and the ledger after [pop(key, None)] for each. *)
Definition keys_to_remove (info : FileInfo) (filename : string)
    (processed_files : gmap string Py.json) : list string :=
  (List.filter (to_remove info filename) (map_to_list processed_files)).*1.

Definition pop_all (keys : list string) (processed_files : gmap string Py.json)
    : gmap string Py.json :=
  foldl (fun m key => delete key m) processed_files keys.

(** [mark_as_new(item)], on the settings store: [filename] is the name shown
    in the row, [file_infos] the list of the last scan.  The ledger is
    changed in place, as in [mark_file_processed]; every exception is
    caught and logged. *)
Definition mark_as_new (cm : ConfigManager.t) (file_infos : list FileInfo)
    (filename : string) : ConfigManager.t :=
  match List.find (fun f => bool_decide (name f = filename)) file_infos with
  | None => cm
  | Some info =>
      match ConfigManager._config cm !! "processed_files"%string with
      | Some (Py.JDict processed_files) =>
          let updated :=
            Py.JDict (pop_all (keys_to_remove info filename processed_files)
                        processed_files) in
          let cm' := ConfigManager.mk
                       (<["processed_files"%string := updated]>
                          (ConfigManager._config cm))
                       (ConfigManager._dirty cm) in
          ConfigManager.set cm' "processed_files" updated false
      | Some _ => cm
      | None =>
          ConfigManager.set cm "processed_files" (Py.JDict ∅) true
      end
  end.

(** [_upload_thread(files)] up to the call of [upload_files]: the paths
    handed to the uploader and the files afterwards.  Each selected file
    comes with the time stamp [generate_new_filename] reads for it; the
    backup directory is taken to stay as it is for the whole batch.  [None]
    stands for a name search that does not end. *)
Fixpoint prepare (env : FitFileProcessor.environment)
    (backup_path : option Py.Path) (fs : Py.files)
    (files : list (Py.Path * string)) : option (list Py.Path * Py.files) :=
  match files with
  | [] => Some ([], fs)
  | (file_path, timestamp) :: rest =>
      match backup_path with
      | Some dir =>
          match Catalog.generate_new_filename fs backup_path timestamp
                  (Py.path_name file_path) with
          | Some new_name =>
              let new_path := dir ++ [new_name] in
              let '(ok, fs') :=
                FitFileProcessor.cleanup_fit_file env fs file_path new_path in
              match prepare env backup_path fs' rest with
              | Some (processed_files, fs'') =>
                  Some (if ok then new_path :: processed_files
                        else processed_files, fs'')
              | None => None
              end
          | None => None
          end
      | None =>
          match prepare env backup_path fs rest with
          | Some (processed_files, fs') => Some (file_path :: processed_files, fs')
          | None => None
          end
      end
  end.

(** [cleanup_processed_files()], on the settings store: [set] compares the
    stored value with the empty dictionary. *)
Definition cleanup_processed_files (cm : ConfigManager.t) : ConfigManager.t :=
  let differs :=
    match ConfigManager._config cm !! "processed_files"%string with
    | Some (Py.JDict processed_files) =>
        negb (bool_decide (dom processed_files = ∅))
    | _ => true
    end in
  ConfigManager.set cm "processed_files" (Py.JDict ∅) differs.

End FitUploaderApp.

(* ===================================================================== *)
(** ** Further notions used to state the properties                       *)
(* ===================================================================== *)

Module Notions.

(** The files a batch has counted, whatever their outcome. *)
Definition counted (s : GarminUploader.stats) : Z :=
  GarminUploader.success s + GarminUploader.failed s
  + GarminUploader.duplicates s.

(** The ledger of a store that holds one. *)
Definition ledger_of (cm : ConfigManager.t) : option (gmap string Py.json) :=
  match ConfigManager._config cm !! "processed_files"%string with
  | Some (Py.JDict processed_info) => Some processed_info
  | _ => None
  end.

(** What a scan of the source directories lists: a file whose name has
    the form of a ride of MyWhoosh, under the path that ends in this
    name. *)
Definition listed (info : FileInfo) : Prop :=
  Catalog.matches_pattern (name info) = true
  ∧ Py.path_name (path info) = name info.

(** A size in exact arithmetic: [n / d] to one decimal, ties to even. *)
Definition exact_1f (n d : Z) : string :=
  let tenths := PyNum.round_half_even (10 * n) d in
  pretty (tenths / 10) +:+ "." +:+ pretty (tenths mod 10).

(** The size [n] in the first of [units] in which it is below 1024, [d]
    being the size of that unit: an integer when it is one, else one
    decimal; beyond the last unit, terabytes with one decimal. *)
Fixpoint shown_in (units : list string) (n d : Z) : string :=
  match units with
  | [] => exact_1f n d +:+ " TB"
  | unit :: rest =>
      if n <? 1024 * d then
        if n mod d =? 0 then pretty (n / d) +:+ " " +:+ unit
        else exact_1f n d +:+ " " +:+ unit
      else shown_in rest n (1024 * d)
  end.

Definition shown_size (n : Z) : string :=
  shown_in ["B"; "KB"; "MB"; "GB"]%string n 1.

(** Times that never increase along a list. *)
Fixpoint newest_first (times : list Z) : Prop :=
  match times with
  | [] => True
  | t :: rest => Forall (fun u => u ≤ t) rest ∧ newest_first rest
  end.

(** What identifies a file in a scan, and in a directory. *)
Definition described (info : FileInfo) : string * Z * Z * string :=
  (name info, size_bytes info, modified_time info, file_hash info).

Definition entry_described (e : Catalog.dir_entry) : string * Z * Z * string :=
  (Catalog.entry_name e, Catalog.st_size e, Catalog.st_mtime e,
   Catalog.content_hash e).

(** A source directory with two rides, an empty file and a file of
    another kind. *)
Definition sample_source : Catalog.source_dir :=
  Catalog.mkSource "MyWhoosh" ["data"%string]
    (Some [ Catalog.mkEntry "MyNewActivity-1.fit" true 1536 100 "aa";
            Catalog.mkEntry "notes.txt" true 10 300 "bb";
            Catalog.mkEntry "MyNewActivity-2.fit" true 2048 200 "cc";
            Catalog.mkEntry "MyNewActivity-3.fit" true 0 400 "" ]).

(** A string of ASCII digits. *)
Fixpoint all_digits (s : string) : bool :=
  match s with
  | String c rest => Catalog.is_digit c && all_digits rest
  | EmptyString => true
  end.

End Notions.

(* ===================================================================== *)
(** * Properties                                                          *)
(* ===================================================================== *)

(** ** Python true division                                              *)

Lemma round_half_even_bounds num den :
  0 < den →
  num / den ≤ PyNum.round_half_even num den ≤ num / den + 1.
Proof.
  intros Hden. unfold PyNum.round_half_even.
  repeat case_match; lia.
Qed.

Lemma round_half_even_up num den :
  0 < den → 2 * (num mod den) < den →
  PyNum.round_half_even num den = num / den.
Proof.
  intros Hden Hlt. unfold PyNum.round_half_even.
  destruct (Z.ltb_spec (2 * (num mod den)) den); [done | lia].
Qed.

Lemma round_scaled_quotient a b s :
  0 ≤ a → 0 < b → 0 ≤ s → b < 2 ^ (s + 1) →
  PyNum.round_half_even (a * 2 ^ s) b / 2 ^ s = a / b.
Proof.
  intros Ha Hb Hs Hlt.
  assert (HP : 0 < 2 ^ s) by (apply Z.pow_pos_nonneg; lia).
  rewrite Z.pow_add_r, Z.pow_1_r in Hlt by lia.
  set (P := 2 ^ s) in *.
  pose proof (Z.div_mod a b ltac:(lia)) as Ha'.
  pose proof (Z.mod_pos_bound a b Hb) as Ht.
  set (Q := a / b) in *. set (t := a mod b) in *.
  pose proof (Z.div_mod (a * P) b ltac:(lia)) as HN.
  pose proof (Z.mod_pos_bound (a * P) b Hb) as Hr.
  pose proof (round_half_even_bounds (a * P) b Hb) as Hm.
  assert (Hquo : Q * P ≤ a * P / b < (Q + 1) * P).
  { split.
    - apply Z.div_le_lower_bound; [done | nia].
    - apply Z.div_lt_upper_bound; [done | nia]. }
  symmetry. apply Z.div_unique with (r := PyNum.round_half_even (a * P) b - Q * P).
  { left. split; [lia |].
    destruct (Z.eq_dec (a * P / b) ((Q + 1) * P - 1)) as [Heq | Hne]; [| lia].
    rewrite round_half_even_up; [lia | done |].
    rewrite Heq in HN. nia. }
  lia.
Qed.

Lemma floor_log2_ratio_spec a b :
  0 < b → b ≤ a →
  let e := PyNum.floor_log2_ratio a b in
  0 ≤ e ∧ b * 2 ^ e ≤ a < b * 2 ^ (e + 1).
Proof.
  intros Hb Hab. unfold PyNum.floor_log2_ratio.
  pose proof (Z.log2_spec a ltac:(lia)) as [Ha1 Ha2].
  pose proof (Z.log2_spec b Hb) as [Hb1 Hb2].
  pose proof (Z.log2_le_mono b a Hab) as Hmono.
  pose proof (Z.log2_nonneg b) as Hlb.
  set (la := Z.log2 a) in *. set (lb := Z.log2 b) in *.
  rewrite (Z.max_l 0 (- (la - lb))), (Z.max_r 0 (la - lb)) by lia.
  rewrite Z.pow_0_r, Z.mul_1_r.
  assert (Hsplit : 2 ^ la = 2 ^ lb * 2 ^ (la - lb)).
  { rewrite <- Z.pow_add_r by lia. f_equal. lia. }
  assert (Hd : 0 < 2 ^ (la - lb)) by (apply Z.pow_pos_nonneg; lia).
  rewrite <- (Z.add_1_r la), <- (Z.add_1_r lb) in *.
  rewrite Z.pow_add_r, Z.pow_1_r in Ha2, Hb2 by lia.
  destruct (Z.ltb_spec a (b * 2 ^ (la - lb))) as [Hlt | Hge]; cbn zeta.
  - assert (la - lb ≠ 0) by (intros Heq; rewrite Heq, Z.pow_0_r in Hlt; lia).
    replace (la - lb - 1 + 1) with (la - lb) by lia.
    assert (Hhalf : 2 ^ (la - lb) = 2 * 2 ^ (la - lb - 1)).
    { rewrite <- Z.pow_succ_r by lia. f_equal. lia. }
    split; [lia |]. split; [nia | lia].
  - rewrite Z.pow_add_r, Z.pow_1_r by lia.
    split; [lia |]. split; [lia | nia].
Qed.

Lemma truediv_exact a b :
  0 < b → b ≤ a → a < 2 ^ 53 →
  ∃ f, PyNum.truediv a b = inr f ∧ PyNum.int_of_float f = a / b.
Proof.
  intros Hb Hab Ha.
  destruct (floor_log2_ratio_spec a b Hb Hab) as (He & Hlo & Hhi).
  unfold PyNum.truediv, PyNum.truediv_pos.
  rewrite (Z.abs_eq a), (Z.abs_eq b) by lia.
  set (e := PyNum.floor_log2_ratio a b) in *.
  assert (HPe : 0 < 2 ^ e) by (apply Z.pow_pos_nonneg; lia).
  assert (He52 : e < 53).
  { apply (Z.pow_lt_mono_r_iff 2); [lia | lia | nia]. }
  rewrite (Z.max_l (e - 52) (-1074)) by lia.
  rewrite (Z.max_r 0 (- (e - 52))), (Z.max_l 0 (e - 52)) by lia.
  rewrite Z.pow_0_r, !Z.mul_1_r.
  replace (- (e - 52)) with (52 - e) by lia.
  assert (Hb2 : b < 2 ^ (52 - e + 1)).
  { apply Z.mul_lt_mono_pos_r with (p := 2 ^ e); [done |].
    rewrite <- Z.pow_add_r by lia. replace (52 - e + 1 + e) with 53 by lia. lia. }
  pose proof (round_scaled_quotient a b (52 - e) ltac:(lia) Hb ltac:(lia) Hb2) as Hq.
  pose proof (round_half_even_bounds (a * 2 ^ (52 - e)) b Hb) as Hm.
  set (m := PyNum.round_half_even (a * 2 ^ (52 - e)) b) in *.
  assert (HPs : 0 < 2 ^ (52 - e)) by (apply Z.pow_pos_nonneg; lia).
  assert (Hm0 : 0 ≤ m).
  { assert (0 ≤ a * 2 ^ (52 - e) / b)
      by (apply Z.div_pos; [apply Z.mul_nonneg_nonneg |]; lia).
    lia. }
  assert (Hsmall : m < 2 ^ 1024).
  { assert (a * 2 ^ (52 - e) / b ≤ a * 2 ^ (52 - e)).
    { assert (0 ≤ a * 2 ^ (52 - e)) by (apply Z.mul_nonneg_nonneg; lia).
      apply Z.div_le_upper_bound; [done |].
      generalize dependent (a * 2 ^ (52 - e)). intros; nia. }
    assert (2 ^ (52 - e) ≤ 2 ^ 52) by (apply Z.pow_le_mono_r; lia).
    assert (a * 2 ^ (52 - e) ≤ 2 ^ 53 * 2 ^ 52)
      by (apply Z.mul_le_mono_nonneg; lia).
    assert (2 ^ 53 * 2 ^ 52 + 1 < 2 ^ 1024) by (vm_compute; done).
    lia. }
  destruct (Z.eqb_spec b 0); [lia |].
  destruct (Z.eqb_spec a 0); [lia |].
  destruct (Z.leb_spec (2 ^ 1024) m); [lia |].
  eexists. split; [reflexivity |].
  unfold PyNum.int_of_float. cbn [PyNum.mant PyNum.expo].
  rewrite (Z.sgn_pos a), (Z.sgn_pos b) by lia.
  rewrite !Z.mul_1_l.
  destruct (Z.leb_spec 0 (e - 52)).
  - replace (e - 52) with 0 by lia. replace (52 - e) with 0 in Hq by lia.
    rewrite Z.pow_0_r, Z.div_1_r in Hq. rewrite Z.pow_0_r. lia.
  - replace (- (e - 52)) with (52 - e) by lia.
    rewrite Z.quot_div_nonneg by lia. done.
Qed.

(* ===================================================================== *)
(** ** The averaging helper                                               *)
(* ===================================================================== *)

Lemma valid_values_positive_entries values :
  FitFileProcessor.valid_values values = Spec.positive_entries values.
Proof.
  unfold Spec.positive_entries.
  induction values as [| [v |] values IH]; [done | | exact IH].
  change (omap id (Some v :: values)) with (v :: omap id values).
  rewrite filter_cons. cbn [FitFileProcessor.valid_values].
  destruct (Z.ltb_spec 0 v); case_decide; try lia; by rewrite IH.
Qed.

Lemma positive_entries_positive values :
  Forall (fun v => 0 < v) (Spec.positive_entries values).
Proof.
  unfold Spec.positive_entries. apply Forall_forall.
  intros v Hv. by apply list_elem_of_filter in Hv as [Hv _].
Qed.

Lemma sum_app l1 l2 : sum (l1 ++ l2) = sum l1 + sum l2.
Proof. unfold sum. induction l1; cbn; lia. Qed.

Lemma sum_ge_length l :
  Forall (fun v => 0 < v) l → Z.of_nat (length l) ≤ sum l.
Proof.
  unfold sum. induction 1; cbn [length foldr]; lia.
Qed.

Lemma sum_nonneg l : Forall (fun v => 0 < v) l → 0 ≤ sum l.
Proof. intros H. pose proof (sum_ge_length l H). lia. Qed.

Lemma calculate_avg_in_range values :
  Spec.in_range values →
  FitFileProcessor._calculate_avg values
  = Py.Ok (Spec.truncated_mean (Spec.positive_entries values)).
Proof.
  unfold Spec.in_range, FitFileProcessor._calculate_avg.
  rewrite valid_values_positive_entries.
  pose proof (positive_entries_positive values) as Hpos.
  destruct (Spec.positive_entries values) as [| v l] eqn:Heq; [done |].
  intros Hsum. pose proof (sum_ge_length _ Hpos) as Hlen.
  destruct (truediv_exact (sum (v :: l)) (Z.of_nat (length (v :: l))))
    as (f & Hf & Hint); [cbn [length]; lia | done | done |].
  rewrite Hf. cbn [Py.of_div Py.bind]. rewrite Hint.
  unfold Spec.truncated_mean.
  rewrite Z.quot_div_nonneg; [done | | cbn [length]; lia].
  by apply sum_nonneg.
Qed.

Lemma calculate_avg_skips_zero l1 l2 :
  FitFileProcessor._calculate_avg (l1 ++ Some 0 :: l2)
  = FitFileProcessor._calculate_avg (l1 ++ l2).
Proof.
  unfold FitFileProcessor._calculate_avg.
  replace (FitFileProcessor.valid_values (l1 ++ Some 0 :: l2))
    with (FitFileProcessor.valid_values (l1 ++ l2)); [done |].
  induction l1 as [| [v |] l1 IH]; cbn; [done | | done].
  destruct (0 <? v); by rewrite IH.
Qed.

Lemma calculate_avg_never_divides_by_zero values :
  FitFileProcessor._calculate_avg values ≠ Py.Raise Py.ZeroDivisionError.
Proof.
  unfold FitFileProcessor._calculate_avg.
  destruct (FitFileProcessor.valid_values values) as [| v l]; [done |].
  unfold PyNum.truediv.
  destruct (Z.eqb_spec (Z.of_nat (length (v :: l))) 0) as [H0 |]; [cbn in H0; lia |].
  destruct (_ =? 0); [done |]. by destruct (PyNum.truediv_pos _ _).
Qed.

(** C10.  [_calculate_avg] is total and never divides by zero: it keeps the
    strictly positive entries only, returns 0 when there is none, and
    otherwise the mean of those entries truncated to an integer; a zero
    standing for a missing sample never enters the average. *)
Theorem calculate_avg_positive_mean (values : list (option Z)) :
  FitFileProcessor.valid_values values = Spec.positive_entries values
  ∧ FitFileProcessor._calculate_avg values ≠ Py.Raise Py.ZeroDivisionError
  ∧ (Spec.positive_entries values = [] →
     FitFileProcessor._calculate_avg values = Py.Ok 0)
  ∧ (Spec.in_range values →
     FitFileProcessor._calculate_avg values
     = Py.Ok (Spec.truncated_mean (Spec.positive_entries values)))
  ∧ (∀ l1 l2, values = l1 ++ l2 →
     FitFileProcessor._calculate_avg (l1 ++ Some 0 :: l2)
     = FitFileProcessor._calculate_avg values).
Proof.
  split; [apply valid_values_positive_entries |].
  split; [apply calculate_avg_never_divides_by_zero |].
  split; [| split].
  - intros Hnil. unfold FitFileProcessor._calculate_avg.
    by rewrite valid_values_positive_entries, Hnil.
  - apply calculate_avg_in_range.
  - intros l1 l2 ->. apply calculate_avg_skips_zero.
Qed.

Lemma calculate_avg_positive_mean_witness :
  Spec.in_range [Some 100; Some 150; Some 200; Some 0]
  ∧ FitFileProcessor._calculate_avg [Some 100; Some 150; Some 200; Some 0]
    = Py.Ok 150.
Proof.
  assert (Hr : Spec.in_range [Some 100; Some 150; Some 200; Some 0])
    by (vm_compute; reflexivity).
  split; [exact Hr |].
  exact (proj1 (proj2 (proj2 (proj2
    (calculate_avg_positive_mean [Some 100; Some 150; Some 200; Some 0])))) Hr).
Defined.

(* ===================================================================== *)
(** ** The clean-up loop                                                  *)
(* ===================================================================== *)

Lemma positive_entries_app l1 l2 :
  Spec.positive_entries (l1 ++ l2)
  = Spec.positive_entries l1 ++ Spec.positive_entries l2.
Proof. unfold Spec.positive_entries. by rewrite omap_app, filter_app. Qed.

Lemma in_range_app l1 l2 :
  Spec.in_range (l1 ++ l2) → Spec.in_range l1 ∧ Spec.in_range l2.
Proof.
  unfold Spec.in_range. rewrite positive_entries_app, sum_app.
  pose proof (sum_nonneg _ (positive_entries_positive l1)).
  pose proof (sum_nonneg _ (positive_entries_positive l2)).
  lia.
Qed.

Lemma samples_of_app field_name l1 l2 :
  Spec.samples_of field_name (l1 ++ l2)
  = Spec.samples_of field_name l1 ++ Spec.samples_of field_name l2.
Proof. apply omap_app. Qed.

Lemma update_avg_in_range fields avg_name values :
  Spec.in_range values →
  ∃ fields',
    FitFileProcessor.update_avg fields avg_name values = Py.Ok fields'
    ∧ fields' !! avg_name = Spec.session_average fields avg_name values
    ∧ ∀ k, k ≠ avg_name → fields' !! k = fields !! k.
Proof.
  intros Hr. unfold FitFileProcessor.update_avg, Spec.session_average.
  destruct (falsy (fields !! avg_name) && negb (bool_decide (values = []))).
  - rewrite (calculate_avg_in_range _ Hr). cbn [Py.bind].
    eexists. split; [done |]. split.
    + by rewrite lookup_insert_eq.
    + intros k Hk. by rewrite lookup_insert_ne.
  - by exists fields.
Qed.

Lemma append_value_sample acc fields field_name :
  field_name ≠ "temperature"%string →
  FitFileProcessor._append_value acc
    (RecordMessage (delete "temperature"%string fields)) field_name
  = acc ++ Spec.samples_of field_name [RecordMessage fields].
Proof.
  intros Hne. unfold FitFileProcessor._append_value, getattr. cbn.
  by rewrite lookup_delete_ne.
Qed.






(** The whole stream: every message that is not a lap has its output
    message, in the order of the input. *)
Lemma process_records_rewrites records : ∀ acc builder,
  Spec.in_range (FitFileProcessor.cadence_values acc
                 ++ Spec.samples_of "cadence" records) →
  Spec.in_range (FitFileProcessor.power_values acc
                 ++ Spec.samples_of "power" records) →
  Spec.in_range (FitFileProcessor.heart_rate_values acc
                 ++ Spec.samples_of "heart_rate" records) →
  ∃ out,
    FitFileProcessor.process_records acc records builder = Py.Ok (builder ++ out)
    ∧ Forall2 Spec.rewritten (filter (fun m => is_lap m = false) records) out.
Proof.
  induction records as [| m records IH]; intros acc builder Hc Hp Hh.
  - exists []. cbn. by rewrite app_nil_r.
  - destruct m as [f | f | f | c f]; cbn [FitFileProcessor.process_records].
    + destruct (IH acc builder) as (out & Hrun & Hout); [done .. |].
      exists out. split; [done |]. rewrite filter_cons_False; [done | by cbn].
    + rewrite !append_value_sample by done.
      destruct (IH (Spec.accumulate acc [RecordMessage f])
                  (builder ++ [RecordMessage (delete "temperature"%string f)]))
        as (out & Hrun & Hout);
        [cbn [Spec.accumulate FitFileProcessor.cadence_values
              FitFileProcessor.power_values FitFileProcessor.heart_rate_values];
         rewrite <- (assoc_L (++)), <- samples_of_app; done .. |].
      exists (RecordMessage (delete "temperature"%string f) :: out).
      rewrite filter_cons_True by done. split.
      * unfold Spec.accumulate in Hrun. rewrite Hrun.
        by rewrite <- (assoc_L (++)).
      * by constructor.
    + change (SessionMessage f :: records) with ([SessionMessage f] ++ records)
        in Hc, Hp, Hh.
      rewrite samples_of_app in Hc, Hp, Hh. cbn [Spec.samples_of omap] in Hc, Hp, Hh.
      rewrite app_nil_l in Hc, Hp, Hh.
      apply in_range_app in Hc as [Hc Hc'], Hp as [Hp Hp'], Hh as [Hh Hh'].
      destruct (update_avg_in_range f "avg_cadence" _ Hc) as (f1 & -> & _ & H1).
      cbn [Py.bind].
      destruct (update_avg_in_range f1 "avg_power" _ Hp) as (f2 & -> & _ & H2).
      cbn [Py.bind].
      destruct (update_avg_in_range f2 "avg_heart_rate" _ Hh) as (f3 & -> & _ & H3).
      cbn [Py.bind].
      destruct (IH FitFileProcessor.no_values (builder ++ [SessionMessage f3]))
        as (out & Hrun & Hout); [done .. |].
      exists (SessionMessage f3 :: out). rewrite filter_cons_True by done. split.
      * rewrite Hrun. by rewrite <- (assoc_L (++)).
      * constructor; [| done]. exists f3. split; [done |].
        intros k Hk. cbn in Hk.
        rewrite H3, H2, H1; [done | | |]; intros ->; apply Hk; set_solver.
    + destruct (IH acc (builder ++ [OtherMessage c f])) as (out & Hrun & Hout);
        [done .. |].
      exists (OtherMessage c f :: out). rewrite filter_cons_True by done. split.
      * rewrite Hrun. by rewrite <- (assoc_L (++)).
      * by constructor.
Qed.

Lemma rewritten_others l out :
  Forall2 Spec.rewritten l out →
  filter (fun m => is_other m = true) out = filter (fun m => is_other m = true) l
  ∧ Forall (fun m => is_lap m = false) out
  ∧ map kind_of out = map kind_of l.
Proof.
  induction 1 as [| m m' l out Hm _ (IH1 & IH2 & IH3)]; [done |].
  destruct m as [f | f | f | c f]; cbn in Hm; [done | subst m' | | subst m'].
  - rewrite !filter_cons_False by (by cbn). cbn. rewrite IH3. by repeat constructor.
  - destruct Hm as (f' & -> & _).
    rewrite !filter_cons_False by (by cbn). cbn. rewrite IH3. by repeat constructor.
  - rewrite !filter_cons_True by done. cbn. rewrite IH1, IH3. by repeat constructor.
Qed.

Lemma filter_other_not_lap (l : list message) :
  filter (fun m => is_other m = true) (filter (fun m => is_lap m = false) l)
  = filter (fun m => is_other m = true) l.
Proof.
  induction l as [| m l IH]; [done |].
  destruct m; rewrite ?filter_cons_True, ?filter_cons_False by (by cbn);
    rewrite ?filter_cons_True, ?filter_cons_False by (by cbn); by rewrite ?IH.
Qed.

Lemma unlink_partial_other (env : FitFileProcessor.environment) (fs : Py.files) (p q : Py.Path) :
  q ≠ p → FitFileProcessor.unlink_partial env fs p !! q = fs !! q.
Proof.
  intros Hne. unfold FitFileProcessor.unlink_partial.
  destruct (_ && _); [by rewrite lookup_delete_ne | done].
Qed.

Lemma cleanup_keeps_other_files (env : FitFileProcessor.environment) (fs : Py.files) (src dst q : Py.Path) :
  q ≠ dst →
  (FitFileProcessor.cleanup_fit_file env fs src dst).2 !! q = fs !! q.
Proof.
  intros Hne. unfold FitFileProcessor.cleanup_fit_file.
  repeat case_match; cbn [snd];
    rewrite ?unlink_partial_other, ?lookup_insert_ne by done; done.
Qed.

(** C7.  The clean-up leaves the source file as it is, and indeed every
    file but the destination.  For a source that parses, it hands to the
    builder one message for each input message that is not a lap, in the
    order of the input: no lap, every message other than a sample or a
    session summary unchanged, a sample without its temperature, a session
    summary changed in its three averages at most; the destination then
    holds what the builder makes of these messages. *)
Theorem cleanup_fit_file_preserves
    (env : FitFileProcessor.environment) (fs : Py.files) (src dst : Py.Path) :
  (src ≠ dst →
   (FitFileProcessor.cleanup_fit_file env fs src dst).2 !! src = fs !! src)
  ∧ (∀ bytes records,
       fs !! src = Some bytes →
       FitFileProcessor.access_R env src = true →
       FitFileProcessor.access_W env (Py.path_parent dst) = true →
       FitFileProcessor.from_file env bytes = Py.Ok records →
       Spec.samples_in_range records →
       ∃ out,
         FitFileProcessor.process_records FitFileProcessor.no_values records []
         = Py.Ok out
         ∧ Forall2 Spec.rewritten (filter (fun m => is_lap m = false) records) out
         ∧ Forall (fun m => is_lap m = false) out
         ∧ filter (fun m => is_other m = true) out
           = filter (fun m => is_other m = true) records
         ∧ (∀ fit_data,
              FitFileProcessor.build env out = Py.Ok fit_data →
              FitFileProcessor.to_file env = FitFileProcessor.Written →
              FitFileProcessor.cleanup_fit_file env fs src dst
              = (true, <[dst := fit_data]> fs))).
Proof.
  split; [apply cleanup_keeps_other_files |].
  intros bytes records Hsrc HR HW Hparse (Hc & Hp & Hh).
  destruct (process_records_rewrites records FitFileProcessor.no_values [])
    as (out & Hrun & Hout); [done .. |].
  rewrite app_nil_l in Hrun.
  destruct (rewritten_others _ _ Hout) as (Hothers & Hnolap & _).
  exists out. repeat split; try done.
  - by rewrite Hothers, filter_other_not_lap.
  - intros fit_data Hbuild Hwrite. unfold FitFileProcessor.cleanup_fit_file.
    rewrite Hsrc, HR, HW, Hparse. cbn [negb Py.bind].
    by rewrite Hrun, Hbuild, Hwrite.
Qed.

Lemma cleanup_fit_file_preserves_witness :
  let src := ["data"; "MyNewActivity-1.fit"]%string in
  let dst := ["backup"; "MW_2025-01-01_100000_1.fit"]%string in
  let fs : Py.files := {[ src := [Byte.x0e] ]} in
  (FitFileProcessor.cleanup_fit_file Spec.sample_env fs src dst).2 !! src
  = Some [Byte.x0e]
  ∧ (FitFileProcessor.cleanup_fit_file Spec.sample_env fs src dst).1 = true.
Proof.
  cbn zeta.
  destruct (cleanup_fit_file_preserves Spec.sample_env
              {[ ["data"; "MyNewActivity-1.fit"]%string := [Byte.x0e] ]}
              ["data"; "MyNewActivity-1.fit"]%string
              ["backup"; "MW_2025-01-01_100000_1.fit"]%string)
    as [Hsource Hrun].
  split.
  - etrans; [apply Hsource; discriminate | vm_compute; reflexivity].
  - destruct (Hrun [Byte.x0e] Spec.sample_file) as (out & _ & _ & _ & _ & Hwrite).
    + vm_compute; reflexivity.
    + reflexivity.
    + reflexivity.
    + reflexivity.
    + repeat split; vm_compute; reflexivity.
    + destruct (FitFileProcessor.build Spec.sample_env out) as [fit_data |] eqn:Hb;
        [| discriminate Hb].
      by rewrite (Hwrite fit_data eq_refl eq_refl).
Defined.

(** Called with the source as its destination, the clean-up writes over
    the source; the application always passes a new name in the backup
    directory. *)
Lemma cleanup_in_place_overwrites :
  let src := ["data"; "MyNewActivity-1.fit"]%string in
  let fs : Py.files := {[ src := [Byte.x0e] ]} in
  FitFileProcessor.cleanup_fit_file Spec.sample_env fs src src
  = (true, {[ src := [Byte.x2e] ]}).
Proof. vm_compute. reflexivity. Qed.

(** The decorator of [cleanup_fit_file] calls a function that does not
    raise once. *)
Lemma retry_on_exception_returns {S A} (n : nat)
    (func : S → Py.result A * S) (s s' : S) (a : A) :
  func s = (Py.Ok a, s') →
  FitFileProcessor.retry_on_exception (Datatypes.S n) func s = (Some (Py.Ok a), s').
Proof. intros Hcall. cbn. by rewrite Hcall. Qed.

(* ===================================================================== *)
(** ** The settings store                                                 *)
(* ===================================================================== *)

(** What one key of the validated configuration holds. *)
Lemma validate_items_lookup (d : gmap string Py.json) :
  Spec.validation_of d
    (map_fold ConfigManager.validate_item
       (ConfigManager._get_default_config, []) d).
Proof.
  apply (map_fold_weak_ind (fun r d => Spec.validation_of d r));
    unfold Spec.validation_of.
  - split; intros key; cbn beta.
    + cbn [fst]. destruct (_ !! key); [by rewrite lookup_empty | done].
    + split; [by intros ?%elem_of_nil |].
      intros (? & ? & _ & H & _). by rewrite lookup_empty in H.
  - intros i x m r Hi [IH1 IH2]. cbn beta in *. split; intros key.
    + specialize (IH1 key). unfold ConfigManager.validate_item.
      destruct (decide (key = i)) as [-> | Hne].
      * rewrite Hi in IH1.
        destruct (ConfigManager._get_default_config !! i) as [dv |] eqn:Hdv;
          [| done].
        rewrite lookup_insert_eq.
        destruct (Py.isinstance x (Py.type_of dv)); cbn [fst];
          [by rewrite lookup_insert_eq | done].
      * assert (Hsame : (ConfigManager.validate_item i x r).1 !! key = r.1 !! key).
        { unfold ConfigManager.validate_item.
          destruct (ConfigManager._get_default_config !! i) as [dv |]; [| done].
          destruct (Py.isinstance x (Py.type_of dv)); cbn [fst];
            [by rewrite lookup_insert_ne | done]. }
        unfold ConfigManager.validate_item in Hsame. rewrite Hsame, IH1.
        destruct (ConfigManager._get_default_config !! key); [| done].
        by rewrite lookup_insert_ne.
    + specialize (IH2 key). unfold ConfigManager.validate_item.
      destruct (decide (key = i)) as [-> | Hne].
      * destruct (ConfigManager._get_default_config !! i) as [dv |] eqn:Hdv.
        -- destruct (Py.isinstance x (Py.type_of dv)) eqn:Hinst; cbn [snd].
           ++ rewrite IH2. split.
              ** intros (? & ? & _ & H & _). by rewrite Hi in H.
              ** intros (? & ? & ? & H & ?). rewrite lookup_insert_eq in H.
                 congruence.
           ++ split; [| intros _; by left].
              intros _. exists dv, x. by rewrite lookup_insert_eq.
        -- rewrite IH2. split; by intros (? & ? & ? & _).
      * assert (Hsame : key ∈ (ConfigManager.validate_item i x r).2 ↔ key ∈ r.2).
        { unfold ConfigManager.validate_item.
          destruct (ConfigManager._get_default_config !! i) as [dv |]; [| done].
          destruct (Py.isinstance x (Py.type_of dv)); cbn [snd]; [done |].
          rewrite elem_of_cons. split; [by intros [? | ?] | by right]. }
        unfold ConfigManager.validate_item in Hsame. rewrite Hsame, IH2.
        split; intros (dv & v & ? & H & ?); exists dv, v;
          [by rewrite lookup_insert_ne | by rewrite lookup_insert_ne in H].
Qed.

(** C9, as stated, fails in three places: a boolean is kept under a key
    whose default is an integer, although its type is another one; a
    settings file that holds a JSON document other than an object makes
    [load] raise; so does a file that is not UTF-8. *)
Lemma load_counterexample :
  (∃ warnings validated,
     ConfigManager.load
       (ConfigManager.Document
          (Py.JDict {[ "auto_save_interval"%string := Py.JBool true ]}))
     = Py.Ok (validated, warnings)
     ∧ Py.type_of (Py.JBool true) ≠ Py.type_of (Py.JInt 30)
     ∧ ConfigManager._get_default_config !! "auto_save_interval"%string
       = Some (Py.JInt 30)
     ∧ validated !! "auto_save_interval"%string = Some (Py.JBool true)
     ∧ warnings = [])
  ∧ ConfigManager.load (ConfigManager.Document (Py.JList []))
    = Py.Raise Py.AttributeError
  ∧ ConfigManager.load ConfigManager.NotUtf8 = Py.Raise Py.UnicodeDecodeError.
Proof.
  split; [| done].
  eexists _, _. split; [vm_compute; reflexivity |].
  repeat split; by vm_compute.
Qed.

(** C9, amended.  A settings file that is missing, cannot be opened or is
    not JSON gives the default configuration.  A settings file that holds a
    JSON object gives a configuration with exactly the default keys: a key
    outside the defaults is dropped; a key whose value is an instance of
    the type of its default (a boolean being an instance of the integers)
    keeps that value; any other value is replaced by the default, and its
    key is among the warnings. *)
Theorem load_validates (d : gmap string Py.json) :
  ConfigManager.load ConfigManager.NoFile
  = Py.Ok (ConfigManager._get_default_config, [])
  ∧ ConfigManager.load ConfigManager.OpenFailed
    = Py.Ok (ConfigManager._get_default_config, [])
  ∧ ConfigManager.load ConfigManager.NotJson
    = Py.Ok (ConfigManager._get_default_config, [])
  ∧ ∃ validated warnings,
      ConfigManager.load (ConfigManager.Document (Py.JDict d))
      = Py.Ok (validated, warnings)
      ∧ dom validated = dom ConfigManager._get_default_config
      ∧ ∀ key,
          (ConfigManager._get_default_config !! key = None →
           validated !! key = None)
          ∧ (∀ default_value,
               ConfigManager._get_default_config !! key = Some default_value →
               (d !! key = None → validated !! key = Some default_value)
               ∧ (∀ value, d !! key = Some value →
                    validated !! key
                    = Some (if Py.isinstance value (Py.type_of default_value)
                            then value else default_value)
                    ∧ (key ∈ warnings ↔
                       Py.isinstance value (Py.type_of default_value) = false))).
Proof.
  repeat (split; [done |]).
  destruct (validate_items_lookup d) as [Hlookup Hwarn].
  destruct (map_fold ConfigManager.validate_item
              (ConfigManager._get_default_config, []) d)
    as [validated warnings] eqn:Hfold.
  cbn [fst snd] in *. exists validated, warnings.
  split.
  { unfold ConfigManager.load, ConfigManager._validate_config.
    by rewrite Hfold. }
  split.
  - apply set_eq. intros key. rewrite !elem_of_dom, Hlookup.
    destruct (ConfigManager._get_default_config !! key) as [dv |].
    + split; [by eexists |]. intros _.
      destruct (d !! key); [destruct (Py.isinstance _ _) |]; by eexists.
    + done.
  - intros key. split.
    + intros Hnone. by rewrite Hlookup, Hnone.
    + intros dv Hdv. split.
      * intros Hd. by rewrite Hlookup, Hdv, Hd.
      * intros value Hd. split.
        -- rewrite Hlookup, Hdv, Hd. by destruct (Py.isinstance _ _).
        -- rewrite Hwarn. split.
           ++ intros (dv' & value' & ? & ? & ?). congruence.
           ++ intros ?. by exists dv, value.
Qed.

Lemma load_validates_witness :
  ∃ validated warnings,
    ConfigManager.load
      (ConfigManager.Document
         (Py.JDict {[ "username"%string := Py.JInt 7;
                      "colour"%string := Py.JStr "red" ]}))
    = Py.Ok (validated, warnings)
    ∧ validated !! "colour"%string = None
    ∧ validated !! "username"%string = Some (Py.JStr "")
    ∧ "username"%string ∈ warnings.
Proof.
  destruct (load_validates {[ "username"%string := Py.JInt 7;
                              "colour"%string := Py.JStr "red" ]})
    as (_ & _ & _ & validated & warnings & Hload & _ & Hkeys).
  exists validated, warnings. split; [exact Hload |].
  split; [apply (Hkeys "colour"%string); vm_compute; reflexivity |].
  destruct (proj2 (Hkeys "username"%string) (Py.JStr "")
              ltac:(vm_compute; reflexivity)) as [_ Hvalue].
  destruct (Hvalue (Py.JInt 7) ltac:(vm_compute; reflexivity)) as [Hv Hw].
  split; [exact Hv |]. apply Hw. vm_compute; reflexivity.
Defined.

Lemma temp_file_eq (home : Py.Path) :
  ConfigManager.temp_file home = home ++ [".fituploader_config.tmp"%string].
Proof.
  unfold ConfigManager.temp_file, ConfigManager.CONFIG_FILE, Py.with_suffix,
    Py.path_name, Py.path_parent.
  by rewrite last_last, removelast_last.
Qed.

Lemma temp_file_not_config (home : Py.Path) :
  ConfigManager.temp_file home ≠ ConfigManager.CONFIG_FILE home.
Proof.
  rewrite temp_file_eq. unfold ConfigManager.CONFIG_FILE.
  intros Heq. by apply app_inv_head in Heq.
Qed.

Lemma run_writes (p : Py.Path) (chunks : list (list Byte.byte)) :
  ∀ (written : list Byte.byte) (fs : Py.files),
    foldl ConfigManager.fs_step (<[p := written]> fs)
      (map (ConfigManager.Write p) chunks)
    = <[p := written ++ concat chunks]> fs.
Proof.
  induction chunks as [| chunk chunks IH]; intros written fs; cbn.
  - by rewrite app_nil_r.
  - rewrite lookup_insert_eq, insert_insert_eq, IH. by rewrite <- app_assoc.
Qed.

(** The files after the first [n] operations of a [save]. *)
Lemma save_interrupted_cases (home : Py.Path)
    (dump : gmap string Py.json → list (list Byte.byte))
    (cm : ConfigManager.t) (n : nat) (fs : Py.files) :
  let doc := concat (dump (ConfigManager._config cm)) in
  n = O ∧ ConfigManager.save_interrupted home dump cm n fs = fs
  ∨ (∃ k, n = S k ∧ (k ≤ length (dump (ConfigManager._config cm)))%nat
       ∧ ConfigManager.save_interrupted home dump cm n fs
         = <[ConfigManager.temp_file home
              := concat (take k (dump (ConfigManager._config cm)))]> fs)
  ∨ ((length (dump (ConfigManager._config cm)) + 2 ≤ n)%nat
     ∧ ConfigManager.save_interrupted home dump cm n fs
       = <[ConfigManager.CONFIG_FILE home := doc]>
           (delete (ConfigManager.temp_file home) fs)).
Proof.
  cbn zeta.
  unfold ConfigManager.save_interrupted, ConfigManager.save_ops,
    ConfigManager.run_ops.
  set (chunks := dump (ConfigManager._config cm)).
  set (tmp := ConfigManager.temp_file home).
  destruct n as [| k]; [by left | right].
  cbn [take foldl ConfigManager.fs_step].
  destruct (decide (k ≤ length chunks)%nat) as [Hle | Hgt].
  - left. exists k. split; [done |]. split; [done |].
    rewrite take_app_le by (by rewrite length_map).
    rewrite firstn_map. exact (run_writes tmp (take k chunks) [] fs).
  - right. split; [lia |].
    rewrite take_ge by (rewrite length_app, length_map; cbn; lia).
    rewrite foldl_app, (run_writes tmp chunks [] fs). cbn.
    by rewrite lookup_insert_eq, delete_insert_eq.
Qed.

(** C8.  [save] writes the document to a temporary file of the same
    directory, which is not the settings file, and renames it over the
    settings file as its last operation.  Stopped after any number of its
    file operations, it leaves in the settings file either what was there
    before or the whole new document; run to its end, the new document. *)
Theorem save_is_atomic (home : Py.Path)
    (dump : gmap string Py.json → list (list Byte.byte))
    (cm : ConfigManager.t) (fs : Py.files) (n : nat) :
  let config_file := ConfigManager.CONFIG_FILE home in
  let doc := concat (dump (ConfigManager._config cm)) in
  Py.path_parent (ConfigManager.temp_file home) = Py.path_parent config_file
  ∧ ConfigManager.temp_file home ≠ config_file
  ∧ (ConfigManager.save_interrupted home dump cm n fs !! config_file
     = fs !! config_file
     ∨ ConfigManager.save_interrupted home dump cm n fs !! config_file
       = Some doc)
  ∧ ((n < length (ConfigManager.save_ops home dump cm))%nat →
     ConfigManager.save_interrupted home dump cm n fs !! config_file
     = fs !! config_file)
  ∧ (ConfigManager.save home dump cm true fs).2 !! config_file = Some doc
  ∧ (ConfigManager._dirty cm = false →
     ConfigManager.save home dump cm false fs = (cm, fs)).
Proof.
  cbn zeta. pose proof (temp_file_not_config home) as Hne.
  split.
  { rewrite temp_file_eq. unfold ConfigManager.CONFIG_FILE, Py.path_parent.
    by rewrite !removelast_last. }
  split; [done |].
  assert (Hlen : length (ConfigManager.save_ops home dump cm)
                 = (length (dump (ConfigManager._config cm)) + 2)%nat).
  { unfold ConfigManager.save_ops. cbn [length].
    rewrite length_app, length_map. cbn. lia. }
  pose proof (save_interrupted_cases home dump cm n fs) as Hcases. cbn zeta in Hcases.
  split; [| split; [| split]].
  - destruct Hcases as [[_ ->] | [(k & _ & _ & ->) | [_ ->]]].
    + by left.
    + left. by rewrite lookup_insert_ne.
    + right. by rewrite lookup_insert_eq.
  - intros Hn. destruct Hcases as [[_ ->] | [(k & _ & _ & ->) | [Hge _]]].
    + done.
    + by rewrite lookup_insert_ne.
    + lia.
  - unfold ConfigManager.save. rewrite andb_false_r. cbn [snd].
    pose proof (save_interrupted_cases home dump cm
                  (length (ConfigManager.save_ops home dump cm)) fs) as Hend.
    cbn zeta in Hend. unfold ConfigManager.save_interrupted in Hend.
    rewrite take_ge in Hend by done.
    destruct Hend as [[H0 _] | [(k & Hk & Hle & _) | [_ ->]]]; [lia | lia |].
    by rewrite lookup_insert_eq.
  - intros Hclean. unfold ConfigManager.save. by rewrite Hclean.
Qed.

Lemma save_is_atomic_witness :
  let home := ["home"; "rider"]%string in
  let dump := fun _ : gmap string Py.json => [[Byte.x7b]; [Byte.x7d]] in
  let cm := ConfigManager.mk ConfigManager._get_default_config true in
  let fs : Py.files := {[ ConfigManager.CONFIG_FILE home := [Byte.x5b; Byte.x5d] ]} in
  ConfigManager.save_interrupted home dump cm 3 fs !! ConfigManager.CONFIG_FILE home
  = Some [Byte.x5b; Byte.x5d]
  ∧ ConfigManager.save_interrupted home dump cm 4 fs !! ConfigManager.CONFIG_FILE home
    = Some [Byte.x7b; Byte.x7d].
Proof.
  cbn zeta. split.
  - destruct (save_is_atomic ["home"; "rider"]%string
                (fun _ => [[Byte.x7b]; [Byte.x7d]])
                (ConfigManager.mk ConfigManager._get_default_config true)
                {[ ConfigManager.CONFIG_FILE ["home"; "rider"]%string
                   := [Byte.x5b; Byte.x5d] ]} 3)
      as (_ & _ & _ & Hbefore & _).
    cbn zeta in Hbefore. rewrite Hbefore; [| vm_compute; lia].
    vm_compute; reflexivity.
  - destruct (save_is_atomic ["home"; "rider"]%string
                (fun _ => [[Byte.x7b]; [Byte.x7d]])
                (ConfigManager.mk ConfigManager._get_default_config false)
                {[ ConfigManager.CONFIG_FILE ["home"; "rider"]%string
                   := [Byte.x5b; Byte.x5d] ]} 4)
      as (_ & _ & _ & _ & _ & Hclean).
    cbn zeta in Hclean. specialize (Hclean eq_refl).
    vm_compute; reflexivity.
Defined.

(* ===================================================================== *)
(** ** The processed-files ledger                                         *)
(* ===================================================================== *)

(** A dictionary entry with the hash of the file makes the hash test
    succeed, whatever its key. *)
Lemma ledger_has_hash (processed_info : gmap string Py.json)
    (file_info : FileInfo) (key : string) (entry : gmap string Py.json) :
  file_hash file_info ≠ ""%string →
  processed_info !! key = Some (Py.JDict entry) →
  entry !! "hash"%string = Some (Py.JStr (file_hash file_info)) →
  FitFileManager.ledger_has processed_info file_info = true.
Proof.
  intros Hhash Hkey Hentry. unfold FitFileManager.ledger_has.
  apply orb_true_iff. left. apply andb_true_iff. split.
  - by rewrite bool_decide_eq_false_2.
  - apply existsb_exists. exists (key, Py.JDict entry). split.
    + apply list_elem_of_In. by apply elem_of_map_to_list.
    + cbn. rewrite Hentry. cbn. by apply bool_decide_eq_true_2.
Qed.

Lemma ledger_has_key (processed_info : gmap string Py.json)
    (file_info : FileInfo) :
  is_Some (processed_info !! FitFileManager.file_key file_info) →
  FitFileManager.ledger_has processed_info file_info = true.
Proof.
  intros Hkey. unfold FitFileManager.ledger_has.
  apply orb_true_iff. right. by apply bool_decide_eq_true_2.
Qed.

(** What [mark_file_processed] leaves in the store. *)
Lemma mark_file_processed_ledger (cm cm' : ConfigManager.t)
    (file_info : FileInfo) (now : string) :
  FitFileManager.mark_file_processed cm file_info now = Py.Ok cm' →
  ∃ processed_info,
    ConfigManager.get cm "processed_files" (Py.JDict ∅) = Py.JDict processed_info
    ∧ ConfigManager._config cm' !! "processed_files"%string
      = Some (Py.JDict (<[FitFileManager.file_key file_info
                          := FitFileManager.ledger_entry file_info now]>
                          processed_info)).
Proof.
  unfold FitFileManager.mark_file_processed, ConfigManager.get, ConfigManager.set.
  destruct (ConfigManager._config cm !! "processed_files"%string)
    as [[| | | | | | processed_info] |] eqn:Hget; try done.
  - intros [= <-]. exists processed_info. split; [done |].
    cbn. by rewrite lookup_insert_eq.
  - intros [= <-]. exists ∅. split; [done |]. cbn. by rewrite lookup_insert_eq.
Qed.

(** With a ledger in the store, marking a file leaves [_dirty] as it was:
    [set] is handed the dictionary it already holds. *)
Lemma mark_file_processed_keeps_dirty (cm cm' : ConfigManager.t)
    (file_info : FileInfo) (now : string) :
  is_Some (ConfigManager._config cm !! "processed_files"%string) →
  FitFileManager.mark_file_processed cm file_info now = Py.Ok cm' →
  ConfigManager._dirty cm' = ConfigManager._dirty cm.
Proof.
  unfold FitFileManager.mark_file_processed, ConfigManager.set.
  intros [v Hv]. rewrite Hv. destruct v; try done. by intros [= <-].
Qed.

Lemma ledger_entry_hash (file_info : FileInfo) (now : string) :
  ∃ entry,
    FitFileManager.ledger_entry file_info now = Py.JDict entry
    ∧ entry !! "hash"%string = Some (Py.JStr (file_hash file_info)).
Proof. eexists. split; [done |]. done. Qed.

(** C5.  Once a file with a fingerprint has been marked, every file record
    with the same fingerprint is processed, whatever its name and size; and
    more generally a ledger entry with the fingerprint of a record, under
    any key, makes [is_file_processed] true for it. *)
Theorem fingerprint_match_suffices :
  (∀ (cm cm' : ConfigManager.t) (r r' : FileInfo) (now : string),
     file_hash r ≠ ""%string →
     file_hash r' = file_hash r →
     FitFileManager.mark_file_processed cm r now = Py.Ok cm' →
     FitFileManager.is_file_processed cm' r' = Py.Ok true)
  ∧ (∀ (cm : ConfigManager.t) (processed_info entry : gmap string Py.json)
       (key : string) (r' : FileInfo),
       ConfigManager._config cm !! "processed_files"%string
       = Some (Py.JDict processed_info) →
       processed_info !! key = Some (Py.JDict entry) →
       entry !! "hash"%string = Some (Py.JStr (file_hash r')) →
       file_hash r' ≠ ""%string →
       FitFileManager.is_file_processed cm r' = Py.Ok true).
Proof.
  split.
  - intros cm cm' r r' now Hhash Hsame Hmark.
    destruct (mark_file_processed_ledger _ _ _ _ Hmark) as (info & _ & Hledger).
    destruct (ledger_entry_hash r now) as (entry & Hentry & Hh).
    unfold FitFileManager.is_file_processed, ConfigManager.get.
    rewrite Hledger. cbn [default]. f_equal.
    apply (ledger_has_hash _ _ (FitFileManager.file_key r) entry).
    + by rewrite Hsame.
    + by rewrite lookup_insert_eq, Hentry.
    + by rewrite Hsame.
  - intros cm info entry key r' Hledger Hkey Hh Hhash.
    unfold FitFileManager.is_file_processed, ConfigManager.get.
    rewrite Hledger. cbn [default]. f_equal.
    by apply (ledger_has_hash _ _ key entry).
Qed.

Lemma fingerprint_match_suffices_witness :
  ∃ cm',
    FitFileManager.mark_file_processed Spec.fresh_store Spec.ride_file "t1"
    = Py.Ok cm'
    ∧ FitFileManager.is_file_processed cm' Spec.renamed_ride_file = Py.Ok true.
Proof.
  destruct (FitFileManager.mark_file_processed Spec.fresh_store Spec.ride_file "t1")
    as [cm' |] eqn:Hmark; [| by vm_compute in Hmark].
  exists cm'. split; [reflexivity |].
  apply (proj1 fingerprint_match_suffices Spec.fresh_store cm'
           Spec.ride_file Spec.renamed_ride_file "t1"%string).
  - vm_compute. discriminate.
  - reflexivity.
  - exact Hmark.
Defined.

(** C6, as stated, fails: the entry holds the time of the call, so a second
    call at another time leaves a ledger that differs from the one the
    first call left. *)
Lemma mark_twice_counterexample :
  (letE cm1 := FitFileManager.mark_file_processed Spec.fresh_store
                 Spec.ride_file "2025-01-01T10:00:00.000001" in
   FitFileManager.mark_file_processed cm1 Spec.ride_file
     "2025-01-01T10:00:00.000002")
  ≠ FitFileManager.mark_file_processed Spec.fresh_store Spec.ride_file
      "2025-01-01T10:00:00.000001".
Proof.
  intros Heq.
  apply (f_equal (fun r => match r with
                           | Py.Ok cm => Spec.timestamp_of cm Spec.ride_file
                           | Py.Raise _ => None
                           end)) in Heq.
  vm_compute in Heq. discriminate Heq.
Qed.

(** C6, amended.  Marking a file twice leaves the store that one call at
    the time of the second call leaves: the same keys, and for the file the
    same fingerprint, size and path, with the later time; in particular two
    calls at the same time leave what one call leaves.  After a call that
    succeeds the file is processed. *)
Theorem mark_file_processed_idempotent
    (cm : ConfigManager.t) (r : FileInfo) (t1 t2 : string) :
  (letE cm1 := FitFileManager.mark_file_processed cm r t1 in
   FitFileManager.mark_file_processed cm1 r t2)
  = FitFileManager.mark_file_processed cm r t2
  ∧ (t1 = t2 →
     (letE cm1 := FitFileManager.mark_file_processed cm r t1 in
      FitFileManager.mark_file_processed cm1 r t2)
     = FitFileManager.mark_file_processed cm r t1)
  ∧ (∀ cm', FitFileManager.mark_file_processed cm r t2 = Py.Ok cm' →
       FitFileManager.is_file_processed cm' r = Py.Ok true).
Proof.
  assert (Htwice :
    (letE cm1 := FitFileManager.mark_file_processed cm r t1 in
     FitFileManager.mark_file_processed cm1 r t2)
    = FitFileManager.mark_file_processed cm r t2).
  { unfold FitFileManager.mark_file_processed, ConfigManager.set.
    destruct (ConfigManager._config cm !! "processed_files"%string)
      as [[| | | | | | processed_info] |] eqn:Hget; try done;
      cbn [Py.bind ConfigManager._config ConfigManager._dirty];
      rewrite lookup_insert_eq, !insert_insert_eq; done. }
  split; [exact Htwice |]. split; [by intros <- |].
  intros cm' Hmark.
  destruct (mark_file_processed_ledger _ _ _ _ Hmark) as (info & _ & Hledger).
  unfold FitFileManager.is_file_processed, ConfigManager.get.
  rewrite Hledger. cbn [default]. f_equal.
  apply ledger_has_key. by rewrite lookup_insert_eq.
Qed.

Lemma mark_file_processed_idempotent_witness :
  ∃ cm',
    FitFileManager.mark_file_processed Spec.fresh_store Spec.ride_file "t2"
    = Py.Ok cm'
    ∧ FitFileManager.is_file_processed cm' Spec.ride_file = Py.Ok true.
Proof.
  destruct (FitFileManager.mark_file_processed Spec.fresh_store Spec.ride_file "t2")
    as [cm' |] eqn:Hmark; [| by vm_compute in Hmark].
  exists cm'. split; [reflexivity |].
  exact (proj2 (proj2 (mark_file_processed_idempotent Spec.fresh_store
                         Spec.ride_file "t1" "t2")) cm' Hmark).
Defined.

(* ===================================================================== *)
(** ** The upload dispatcher                                              *)
(* ===================================================================== *)

Lemma meets_inv (c : Spec.error_class) (ev : GarminUploader.attempt_event) :
  Spec.meets c ev = true →
  GarminUploader.session_ok ev = true
  ∧ ∃ msg, GarminUploader.outcome ev = GarminUploader.Raised msg
           ∧ Spec.classify msg = c.
Proof.
  unfold Spec.meets. intros [Hs Hc]%andb_true_iff. split; [done |].
  destruct (GarminUploader.outcome ev) as [| msg]; [done |].
  exists msg. split; [done |].
  by destruct (Spec.classify msg), c.
Qed.

(** One rate-limited attempt: the sleep, and on to the next iteration of
    the same [for] loop. *)
Lemma rate_limited_step (N : nat) (events : nat → GarminUploader.attempt_event)
    (remaining attempt : nat) (st : GarminUploader.state) :
  GarminUploader._is_connected st = true →
  Spec.meets Spec.RateLimitError (events attempt) = true →
  GarminUploader.attempt_loop N events (S remaining) attempt st
  = GarminUploader.attempt_loop N events remaining (S attempt)
      (GarminUploader.mkState true
         (GarminUploader.slept st ++ [Z.min (2 ^ Z.of_nat attempt * 2) 60])
         (S (GarminUploader.upload_calls st))).
Proof.
  intros Hconn (Hs & msg & Hout & Hclass)%meets_inv.
  cbn [GarminUploader.attempt_loop].
  unfold GarminUploader.refresh_session. rewrite Hconn, Hs, Hout. cbn [andb negb].
  unfold Spec.classify in Hclass. cbn zeta in Hclass.
  destruct (GarminUploader.is_duplicate _); [done |].
  destruct (GarminUploader.is_unauthorized _); [done |].
  destruct (GarminUploader.is_rate_limit _); [| by destruct (GarminUploader.is_network _)].
  unfold GarminUploader.sleep. cbn. by rewrite ?Hconn.
Qed.

(** One attempt that meets a network error. *)
Lemma network_step (N : nat) (events : nat → GarminUploader.attempt_event)
    (remaining attempt : nat) (st : GarminUploader.state) :
  GarminUploader._is_connected st = true →
  Spec.meets Spec.NetworkError (events attempt) = true →
  GarminUploader.attempt_loop N events (S remaining) attempt st
  = GarminUploader.attempt_loop N events remaining (S attempt)
      (GarminUploader.mkState true
         (GarminUploader.slept st
          ++ if Z.of_nat attempt <? Z.of_nat N - 1
             then [Z.min (2 ^ Z.of_nat attempt) 30] else [])
         (S (GarminUploader.upload_calls st))).
Proof.
  intros Hconn (Hs & msg & Hout & Hclass)%meets_inv.
  cbn [GarminUploader.attempt_loop].
  unfold GarminUploader.refresh_session. rewrite Hconn, Hs, Hout. cbn [andb negb].
  unfold Spec.classify in Hclass. cbn zeta in Hclass.
  destruct (GarminUploader.is_duplicate _); [done |].
  destruct (GarminUploader.is_unauthorized _); [done |].
  destruct (GarminUploader.is_rate_limit _); [done |].
  destruct (GarminUploader.is_network _); [| done].
  unfold GarminUploader.sleep. cbn [andb].
  destruct (Z.of_nat attempt <? Z.of_nat N - 1); cbn; rewrite ?app_nil_r, ?Hconn; done.
Qed.

(** One attempt that meets any other error. *)
Lemma other_error_step (N : nat) (events : nat → GarminUploader.attempt_event)
    (remaining attempt : nat) (st : GarminUploader.state) :
  GarminUploader._is_connected st = true →
  Spec.meets Spec.OtherError (events attempt) = true →
  GarminUploader.attempt_loop N events (S remaining) attempt st
  = GarminUploader.attempt_loop N events remaining (S attempt)
      (GarminUploader.mkState true
         (GarminUploader.slept st
          ++ if Z.of_nat attempt <? Z.of_nat N - 1
             then [2 ^ Z.of_nat attempt] else [])
         (S (GarminUploader.upload_calls st))).
Proof.
  intros Hconn (Hs & msg & Hout & Hclass)%meets_inv.
  cbn [GarminUploader.attempt_loop].
  unfold GarminUploader.refresh_session. rewrite Hconn, Hs, Hout. cbn [andb negb].
  unfold Spec.classify in Hclass. cbn zeta in Hclass.
  destruct (GarminUploader.is_duplicate _); [done |].
  destruct (GarminUploader.is_unauthorized _); [done |].
  destruct (GarminUploader.is_rate_limit _); [done |].
  destruct (GarminUploader.is_network _); [done |].
  unfold GarminUploader.sleep. cbn [andb].
  destruct (Z.of_nat attempt <? Z.of_nat N - 1); cbn; rewrite ?app_nil_r, ?Hconn; done.
Qed.

Lemma rate_limited_loop (N : nat) (events : nat → GarminUploader.attempt_event)
    (remaining : nat) : ∀ (attempt : nat) (st : GarminUploader.state),
  GarminUploader._is_connected st = true →
  (∀ k, (attempt ≤ k < attempt + remaining)%nat →
        Spec.meets Spec.RateLimitError (events k) = true) →
  GarminUploader.attempt_loop N events remaining attempt st
  = ((false, false),
     GarminUploader.mkState true
       (GarminUploader.slept st ++ Spec.rate_limit_backoff attempt remaining)
       (GarminUploader.upload_calls st + remaining)).
Proof.
  induction remaining as [| remaining IH]; intros attempt st Hconn Hall.
  - destruct st. cbn in *. subst. by rewrite app_nil_r, Nat.add_0_r.
  - rewrite rate_limited_step; [| done | apply Hall; lia].
    rewrite IH; [| done | intros k Hk; apply Hall; lia].
    cbn [GarminUploader.slept GarminUploader.upload_calls].
    unfold Spec.rate_limit_backoff. cbn [seq map].
    by rewrite <- app_assoc, Nat.add_succ_r.
Qed.


(** C3, as stated, fails: a rate-limited attempt is one of the iterations of
    the [for] loop over the attempts.  A file whose first three uploads are
    rate-limited is given up, although a fourth upload would be accepted;
    and one rate limit followed by two time-outs gives the file up after
    only two attempts lost to errors other than the rate limit. *)
Lemma rate_limit_counterexample :
  let limited := GarminUploader.Raised Spec.too_many_requests_429 in
  let timeout := GarminUploader.Raised Spec.read_timeout in
  let events1 := fun k : nat =>
    GarminUploader.mkEvent true
      (if (k <? 3)%nat then limited else GarminUploader.Uploaded) in
  let events2 := fun k : nat =>
    GarminUploader.mkEvent true
      (match k with
       | O => limited
       | 1%nat | 2%nat => timeout
       | _ => GarminUploader.Uploaded
       end) in
  Spec.meets Spec.RateLimitError (events1 0%nat) = true
  ∧ Spec.accepted (events1 3%nat) = true
  ∧ GarminUploader._upload_file_with_retry GarminUploader.MAX_RETRY_ATTEMPTS
      (Spec.cleaned_copy events1) Spec.connected
    = ((false, false), GarminUploader.mkState true [2; 4; 8] 3)
  ∧ Spec.meets Spec.NetworkError (events2 1%nat) = true
  ∧ Spec.accepted (events2 3%nat) = true
  ∧ GarminUploader._upload_file_with_retry GarminUploader.MAX_RETRY_ATTEMPTS
      (Spec.cleaned_copy events2) Spec.connected
    = ((false, false), GarminUploader.mkState true [2; 2] 3).
Proof. cbn zeta. repeat split; vm_compute; reflexivity. Qed.

(** C3, amended.  A rate-limited attempt sleeps [min(2 * 2^attempt, 60)]
    seconds, at most 60, and is followed by the next iteration of the loop
    over the attempts: it uses up one of the [max_retries] attempts, and
    there is no other bound.  A file whose [max_retries] attempts are all
    rate-limited is given up after [max_retries] uploads; for three
    attempts the sleeps are 2, 4 and 8 seconds. *)
Theorem rate_limit_consumes_attempt (N : nat) (tk : GarminUploader.task)
    (remaining attempt : nat) (st : GarminUploader.state) :
  (GarminUploader._is_connected st = true →
   Spec.meets Spec.RateLimitError (GarminUploader.events tk attempt) = true →
   GarminUploader.attempt_loop N (GarminUploader.events tk) (S remaining) attempt st
   = GarminUploader.attempt_loop N (GarminUploader.events tk) remaining (S attempt)
       (GarminUploader.mkState true
          (GarminUploader.slept st ++ [Z.min (2 ^ Z.of_nat attempt * 2) 60])
          (S (GarminUploader.upload_calls st))))
  ∧ Z.min (2 ^ Z.of_nat attempt * 2) 60 ≤ 60
  ∧ (GarminUploader.file_exists tk = true →
     GarminUploader.file_readable tk = true →
     GarminUploader._is_connected st = true →
     (∀ k, (k < N)%nat →
           Spec.meets Spec.RateLimitError (GarminUploader.events tk k) = true) →
     GarminUploader._upload_file_with_retry N tk st
     = ((false, false),
        GarminUploader.mkState true
          (GarminUploader.slept st ++ Spec.rate_limit_backoff 0 N)
          (GarminUploader.upload_calls st + N)))
  ∧ Spec.rate_limit_backoff 0 GarminUploader.MAX_RETRY_ATTEMPTS = [2; 4; 8].
Proof.
  split; [apply rate_limited_step |]. split; [lia |]. split; [| done].
  intros Hex Hrd Hconn Hall. unfold GarminUploader._upload_file_with_retry.
  rewrite Hex, Hrd. cbn [negb].
  apply rate_limited_loop; [done |]. intros k Hk. apply Hall. lia.
Qed.

Lemma rate_limit_consumes_attempt_witness :
  GarminUploader._upload_file_with_retry 3
    (Spec.cleaned_copy (Spec.always (GarminUploader.Raised Spec.too_many_requests_429)))
    Spec.connected
  = ((false, false), GarminUploader.mkState true ([] ++ Spec.rate_limit_backoff 0 3) (0 + 3)).
Proof.
  apply (proj1 (proj2 (proj2 (rate_limit_consumes_attempt 3
           (Spec.cleaned_copy (Spec.always (GarminUploader.Raised Spec.too_many_requests_429)))
           0 0 Spec.connected)))).
  - reflexivity.
  - reflexivity.
  - reflexivity.
  - intros k _. vm_compute. reflexivity.
Defined.

(** What [handle_completed] does with the result of an upload that failed. *)
Lemma handle_completed_failed (b : GarminUploader.batch) (tk : GarminUploader.task)
    (dup : bool) (st : GarminUploader.state) :
  GarminUploader._upload_file_with_retry GarminUploader.MAX_RETRY_ATTEMPTS tk
    (GarminUploader.uploader b) = ((false, dup), st) →
  GarminUploader.handle_completed b tk
  = GarminUploader.mkBatch (GarminUploader.config b) st
      (<[GarminUploader.file_path tk := false]> (GarminUploader.results b))
      (GarminUploader.mkStats
         (GarminUploader.total (GarminUploader._upload_stats b))
         (GarminUploader.success (GarminUploader._upload_stats b))
         (GarminUploader.failed (GarminUploader._upload_stats b) + 1)
         (GarminUploader.duplicates (GarminUploader._upload_stats b))).
Proof. intros Hup. unfold GarminUploader.handle_completed. by rewrite Hup. Qed.



(** A duplicate answer ends the loop with [(True, True)]. *)
Lemma duplicate_step (N : nat) (events : nat → GarminUploader.attempt_event)
    (remaining attempt : nat) (st : GarminUploader.state) :
  GarminUploader._is_connected st = true →
  Spec.meets Spec.DuplicateError (events attempt) = true →
  GarminUploader.attempt_loop N events (S remaining) attempt st
  = ((true, true),
     GarminUploader.mkState true (GarminUploader.slept st)
       (S (GarminUploader.upload_calls st))).
Proof.
  intros Hconn (Hs & msg & Hout & Hclass)%meets_inv.
  cbn [GarminUploader.attempt_loop].
  unfold GarminUploader.refresh_session. rewrite Hconn, Hs, Hout. cbn [andb negb].
  unfold Spec.classify in Hclass. cbn zeta in Hclass.
  destruct (GarminUploader.is_duplicate _); [done |].
  destruct (GarminUploader.is_unauthorized _); [done |].
  destruct (GarminUploader.is_rate_limit _); [done |].
  by destruct (GarminUploader.is_network _).
Qed.

(** An accepted upload ends it with [(True, False)]. *)
Lemma accepted_step (N : nat) (events : nat → GarminUploader.attempt_event)
    (remaining attempt : nat) (st : GarminUploader.state) :
  GarminUploader._is_connected st = true →
  Spec.accepted (events attempt) = true →
  GarminUploader.attempt_loop N events (S remaining) attempt st
  = ((true, false),
     GarminUploader.mkState true (GarminUploader.slept st)
       (S (GarminUploader.upload_calls st))).
Proof.
  intros Hconn [Hs Hout]%andb_true_iff.
  cbn [GarminUploader.attempt_loop].
  unfold GarminUploader.refresh_session. rewrite Hconn, Hs. cbn [andb negb].
  by destruct (GarminUploader.outcome (events attempt)).
Qed.

(** Attempts that are retried lead to the next ones, still connected. *)
Lemma retried_attempts (N : nat) (events : nat → GarminUploader.attempt_event)
    (k : nat) : ∀ (remaining attempt : nat) (st : GarminUploader.state),
  GarminUploader._is_connected st = true →
  (∀ j, (attempt ≤ j < attempt + k)%nat → Spec.retried (events j) = true) →
  ∃ st',
    GarminUploader.attempt_loop N events (k + remaining) attempt st
    = GarminUploader.attempt_loop N events remaining (attempt + k) st'
    ∧ GarminUploader._is_connected st' = true
    ∧ GarminUploader.upload_calls st' = (GarminUploader.upload_calls st + k)%nat.
Proof.
  induction k as [| k IH]; intros remaining attempt st Hconn Hall.
  - exists st. by rewrite !Nat.add_0_r.
  - assert (Hfirst : Spec.retried (events attempt) = true) by (apply Hall; lia).
    unfold Spec.retried in Hfirst.
    apply orb_true_iff in Hfirst as [Hfirst | Hother];
      [apply orb_true_iff in Hfirst as [Hrate | Hnet] |]; cbn [Nat.add].
    + rewrite rate_limited_step by done.
      match goal with
      | |- context [GarminUploader.attempt_loop _ _ _ _ ?s] =>
          destruct (IH remaining (S attempt) s) as (st' & Hrun & Hconn' & Hcalls);
            [reflexivity | intros j Hj; apply Hall; lia |]
      end.
      exists st'. rewrite Hrun, Hcalls, Nat.add_succ_r. cbn.
      repeat split; [done | lia].
    + rewrite network_step by done.
      match goal with
      | |- context [GarminUploader.attempt_loop _ _ _ _ ?s] =>
          destruct (IH remaining (S attempt) s) as (st' & Hrun & Hconn' & Hcalls);
            [reflexivity | intros j Hj; apply Hall; lia |]
      end.
      exists st'. rewrite Hrun, Hcalls, Nat.add_succ_r. cbn.
      repeat split; [done | lia].
    + rewrite other_error_step by done.
      match goal with
      | |- context [GarminUploader.attempt_loop _ _ _ _ ?s] =>
          destruct (IH remaining (S attempt) s) as (st' & Hrun & Hconn' & Hcalls);
            [reflexivity | intros j Hj; apply Hall; lia |]
      end.
      exists st'. rewrite Hrun, Hcalls, Nat.add_succ_r. cbn.
      repeat split; [done | lia].
Qed.

(** A duplicate answer at attempt [k], after attempts that were retried,
    gives [(True, True)]; an accepted upload gives [(True, False)]. *)
Lemma upload_succeeds_at (N k : nat) (tk : GarminUploader.task)
    (st : GarminUploader.state) (dup : bool) :
  GarminUploader.file_exists tk = true →
  GarminUploader.file_readable tk = true →
  GarminUploader._is_connected st = true →
  (k < N)%nat →
  (∀ j, (j < k)%nat → Spec.retried (GarminUploader.events tk j) = true) →
  (if dup then Spec.meets Spec.DuplicateError (GarminUploader.events tk k)
   else Spec.accepted (GarminUploader.events tk k)) = true →
  ∃ st',
    GarminUploader._upload_file_with_retry N tk st = ((true, dup), st')
    ∧ GarminUploader._is_connected st' = true
    ∧ GarminUploader.upload_calls st' = S (GarminUploader.upload_calls st + k).
Proof.
  intros Hex Hrd Hconn Hk Hretried Hlast.
  unfold GarminUploader._upload_file_with_retry. rewrite Hex, Hrd. cbn [negb].
  destruct (retried_attempts N (GarminUploader.events tk) k (S (N - S k)) 0 st)
    as (st' & Hrun & Hconn' & Hcalls); [done | intros j Hj; apply Hretried; lia |].
  replace (k + S (N - S k))%nat with N in Hrun by lia. rewrite Hrun.
  cbn [Nat.add]. destruct dup.
  - rewrite duplicate_step by done. eexists. split; [done |].
    cbn. split; [done | lia].
  - rewrite accepted_step by done. eexists. split; [done |].
    cbn. split; [done | lia].
Qed.

(** The ledger after a file whose upload succeeded, duplicate or not. *)
Lemma handle_completed_succeeded (b : GarminUploader.batch)
    (tk : GarminUploader.task) (dup : bool) (st : GarminUploader.state) :
  GarminUploader._upload_file_with_retry GarminUploader.MAX_RETRY_ATTEMPTS tk
    (GarminUploader.uploader b) = ((true, dup), st) →
  GarminUploader.config (GarminUploader.handle_completed b tk)
  = match GarminUploader.find_file_info (GarminUploader.scan tk)
            (GarminUploader.file_path tk) with
    | Some file_info =>
        match FitFileManager.mark_file_processed (GarminUploader.config b)
                file_info (GarminUploader.now tk) with
        | Py.Ok cm => cm
        | Py.Raise _ => GarminUploader.config b
        end
    | None => GarminUploader.config b
    end.
Proof.
  intros Hup. unfold GarminUploader.handle_completed. rewrite Hup.
  destruct (GarminUploader.find_file_info _ _) as [file_info |]; [| done].
  by destruct (FitFileManager.mark_file_processed _ _ _).
Qed.

(** A duplicate answer for a file that the scan lists: the outcome is a
    success and the file is marked, as after an accepted upload. *)
Lemma duplicate_marks_listed_file (b : GarminUploader.batch)
    (tk : GarminUploader.task) (k : nat) (dup : bool) (file_info : FileInfo)
    (cm : ConfigManager.t) :
  GarminUploader.file_exists tk = true →
  GarminUploader.file_readable tk = true →
  GarminUploader._is_connected (GarminUploader.uploader b) = true →
  (k < GarminUploader.MAX_RETRY_ATTEMPTS)%nat →
  (∀ j, (j < k)%nat → Spec.retried (GarminUploader.events tk j) = true) →
  (if dup then Spec.meets Spec.DuplicateError (GarminUploader.events tk k)
   else Spec.accepted (GarminUploader.events tk k)) = true →
  GarminUploader.find_file_info (GarminUploader.scan tk)
    (GarminUploader.file_path tk) = Some file_info →
  FitFileManager.mark_file_processed (GarminUploader.config b) file_info
    (GarminUploader.now tk) = Py.Ok cm →
  GarminUploader.config (GarminUploader.handle_completed b tk) = cm
  ∧ FitFileManager.is_file_processed cm file_info = Py.Ok true.
Proof.
  intros Hex Hrd Hconn Hk Hretried Hlast Hfind Hmark.
  destruct (upload_succeeds_at _ k tk _ dup Hex Hrd Hconn Hk Hretried Hlast)
    as (st' & Hup & _ & _).
  rewrite (handle_completed_succeeded b tk dup st' Hup), Hfind, Hmark.
  split; [done |].
  destruct (mark_file_processed_ledger _ _ _ _ Hmark) as (info & _ & Hledger).
  unfold FitFileManager.is_file_processed, ConfigManager.get.
  rewrite Hledger. cbn [default]. f_equal.
  apply ledger_has_key. by rewrite lookup_insert_eq.
Qed.

(** C2.  The answer 409 to the upload of a cleaned copy, which is what the
    application uploads when a backup directory is set: the retry loop
    returns [(True, True)], the batch records a success and one duplicate,
    but the scan lists the source files only, the copy is not found in it,
    and no ledger entry is written; the source file stays unprocessed.  The
    same holds after an accepted upload.  With the source file itself
    uploaded, the entry is written. *)
Theorem duplicate_of_cleaned_copy_not_marked :
  let duplicate := Spec.always (GarminUploader.Raised Spec.conflict_409) in
  let b := GarminUploader.handle_completed (Spec.new_batch 1)
             (Spec.cleaned_copy duplicate) in
  let b_ok := GarminUploader.handle_completed (Spec.new_batch 1)
                (Spec.cleaned_copy (Spec.always GarminUploader.Uploaded)) in
  let b_src := GarminUploader.handle_completed (Spec.new_batch 1)
                 (Spec.source_upload duplicate) in
  Spec.meets Spec.DuplicateError (duplicate 0%nat) = true
  ∧ GarminUploader._upload_file_with_retry GarminUploader.MAX_RETRY_ATTEMPTS
      (Spec.cleaned_copy duplicate) Spec.connected
    = ((true, true), GarminUploader.mkState true [] 1)
  ∧ GarminUploader.outcome_of (true, true) = GarminUploader.DuplicateOnRemote
  ∧ GarminUploader.results b
    !! GarminUploader.file_path (Spec.cleaned_copy duplicate) = Some true
  ∧ GarminUploader._upload_stats b = GarminUploader.mkStats 1 0 0 1
  ∧ GarminUploader.config b = Spec.fresh_store
  ∧ FitFileManager.is_file_processed (GarminUploader.config b) Spec.ride_file
    = Py.Ok false
  ∧ GarminUploader.config b_ok = Spec.fresh_store
  ∧ FitFileManager.is_file_processed (GarminUploader.config b_src) Spec.ride_file
    = Py.Ok true
  ∧ (GarminUploader.upload_files Spec.fresh_store Spec.connected
       (GarminUploader.mkStats 0 0 0 0) [Spec.cleaned_copy duplicate]).1
    = {[ GarminUploader.file_path (Spec.cleaned_copy duplicate) := true ]}
  ∧ GarminUploader.config
      (GarminUploader.upload_files Spec.fresh_store Spec.connected
         (GarminUploader.mkStats 0 0 0 0) [Spec.cleaned_copy duplicate]).2
    = Spec.fresh_store.
Proof. cbn zeta. repeat split; vm_compute; reflexivity. Qed.


(* ===================================================================== *)
(** * Further properties                                                  *)
(* ===================================================================== *)

#[local] Set Warnings "-clear-no-such-hyp".

(** ** The clean-up, continued                                            *)

(** The builder's earlier messages are only carried along. *)
Lemma process_records_builder records : ∀ acc builder,
  FitFileProcessor.process_records acc records builder
  = match FitFileProcessor.process_records acc records [] with
    | Py.Ok out => Py.Ok (builder ++ out)
    | Py.Raise e => Py.Raise e
    end.
Proof.
  induction records as [| m records IH]; intros acc builder.
  - cbn. by rewrite app_nil_r.
  - destruct m as [f | f | f | c f]; cbn [FitFileProcessor.process_records].
    + apply IH.
    + rewrite IH, (IH _ ([] ++ _)).
      destruct (FitFileProcessor.process_records _ records []); [| done].
      by rewrite <- app_assoc.
    + destruct (FitFileProcessor.update_avg f _ _) as [f1 |]; [| done].
      cbn [Py.bind].
      destruct (FitFileProcessor.update_avg f1 _ _) as [f2 |]; [| done].
      cbn [Py.bind].
      destruct (FitFileProcessor.update_avg f2 _ _) as [f3 |]; [| done].
      cbn [Py.bind]. rewrite IH, (IH _ ([] ++ _)).
      destruct (FitFileProcessor.process_records _ records []); [| done].
      by rewrite <- app_assoc.
    + rewrite IH, (IH _ ([] ++ _)).
      destruct (FitFileProcessor.process_records _ records []); [| done].
      by rewrite <- app_assoc.
Qed.

Lemma update_avg_other (fields fields' : gmap string Z) (avg_name : string)
    (values : list (option Z)) :
  FitFileProcessor.update_avg fields avg_name values = Py.Ok fields' →
  ∀ k, k ≠ avg_name → fields' !! k = fields !! k.
Proof.
  unfold FitFileProcessor.update_avg.
  destruct (_ && _).
  - destruct (FitFileProcessor._calculate_avg values) as [avg |]; [| done].
    intros [= <-] k Hk. by rewrite lookup_insert_ne.
  - by intros [= <-].
Qed.

(** An average that has been settled is settled for good. *)
Lemma update_avg_settled (fields fields' other : gmap string Z)
    (avg_name : string) (values : list (option Z)) :
  FitFileProcessor.update_avg fields avg_name values = Py.Ok fields' →
  other !! avg_name = fields' !! avg_name →
  FitFileProcessor.update_avg other avg_name values = Py.Ok other.
Proof.
  unfold FitFileProcessor.update_avg. intros Hupd Hsame.
  destruct (falsy (fields !! avg_name) && negb (bool_decide (values = [])))
    eqn:Hcond.
  - destruct (FitFileProcessor._calculate_avg values) as [avg |]; [| done].
    injection Hupd as <-. rewrite lookup_insert_eq in Hsame.
    rewrite Hsame. apply andb_true_iff in Hcond as [_ ->]. cbn [falsy].
    destruct (Z.eqb_spec avg 0) as [-> |]; cbn [andb Py.bind]; [| done].
    by rewrite insert_id.
  - injection Hupd as <-. by rewrite Hsame, Hcond.
Qed.

Lemma process_records_idempotent_from records : ∀ acc out,
  FitFileProcessor.process_records acc records [] = Py.Ok out →
  FitFileProcessor.process_records acc out [] = Py.Ok out.
Proof.
  induction records as [| m records IH]; intros acc out.
  - by intros [= <-].
  - destruct m as [f | f | f | c f]; cbn [FitFileProcessor.process_records].
    + apply IH.
    + rewrite process_records_builder.
      destruct (FitFileProcessor.process_records _ records []) as [out' |] eqn:Hrest;
        [| done].
      intros [= <-]. cbn [app FitFileProcessor.process_records].
      rewrite delete_delete_eq, process_records_builder, (IH _ _ Hrest). done.
    + destruct (FitFileProcessor.update_avg f _ _) as [f1 |] eqn:H1; [| done].
      cbn [Py.bind].
      destruct (FitFileProcessor.update_avg f1 _ _) as [f2 |] eqn:H2; [| done].
      cbn [Py.bind].
      destruct (FitFileProcessor.update_avg f2 _ _) as [f3 |] eqn:H3; [| done].
      cbn [Py.bind]. rewrite process_records_builder.
      destruct (FitFileProcessor.process_records _ records []) as [out' |] eqn:Hrest;
        [| done].
      intros [= <-]. cbn [app FitFileProcessor.process_records].
      rewrite (update_avg_settled f f1 f3 _ _ H1); cbn [Py.bind].
      * rewrite (update_avg_settled f1 f2 f3 _ _ H2); cbn [Py.bind].
        -- rewrite (update_avg_settled f2 f3 f3 _ _ H3); cbn [Py.bind]; [| done].
           by rewrite process_records_builder, (IH _ _ Hrest).
        -- by rewrite (update_avg_other _ _ _ _ H3).
      * rewrite (update_avg_other _ _ _ _ H3), (update_avg_other _ _ _ _ H2); done.
    + rewrite process_records_builder.
      destruct (FitFileProcessor.process_records _ records []) as [out' |] eqn:Hrest;
        [| done].
      intros [= <-]. cbn [app FitFileProcessor.process_records].
      by rewrite process_records_builder, (IH _ _ Hrest).
Qed.

(** X1.  Cleaning a cleaned stream changes nothing: the messages the loop
    hands to the builder are a fixed point of the loop. *)
Theorem process_records_idempotent (records out : list message) :
  FitFileProcessor.process_records FitFileProcessor.no_values records []
  = Py.Ok out →
  FitFileProcessor.process_records FitFileProcessor.no_values out []
  = Py.Ok out.
Proof. apply process_records_idempotent_from. Qed.

Lemma process_records_idempotent_witness :
  ∃ out,
    FitFileProcessor.process_records FitFileProcessor.no_values
      Spec.sample_file [] = Py.Ok out
    ∧ FitFileProcessor.process_records FitFileProcessor.no_values out []
      = Py.Ok out.
Proof.
  destruct (FitFileProcessor.process_records FitFileProcessor.no_values
              Spec.sample_file []) as [out |] eqn:Hrun;
    [| by vm_compute in Hrun].
  exists out. split; [reflexivity |].
  exact (process_records_idempotent Spec.sample_file out Hrun).
Defined.

Lemma unlink_partial_gone (env : FitFileProcessor.environment)
    (fs : Py.files) (p : Py.Path) :
  FitFileProcessor.unlink_ok env = true →
  FitFileProcessor.unlink_partial env fs p !! p = None.
Proof.
  intros Hunlink. unfold FitFileProcessor.unlink_partial. rewrite Hunlink.
  case_bool_decide as Hp; cbn [andb].
  - by rewrite lookup_delete_eq.
  - by apply eq_None_not_Some.
Qed.

(** X2.  The clean-up fails closed.  When it returns [True] the destination
    holds what the builder made of the cleaned messages of the source, and
    nothing else has changed.  When it returns [False] no file has been
    written: either nothing at all has changed, or, the partial file being
    removed, there is no file at the destination (a file that was there
    before a failed build or write is removed with it). *)
Theorem cleanup_fit_file_fails_closed
    (env : FitFileProcessor.environment) (fs : Py.files) (src dst : Py.Path) :
  let r := FitFileProcessor.cleanup_fit_file env fs src dst in
  (r.1 = true →
   ∃ bytes records out fit_data,
     fs !! src = Some bytes
     ∧ FitFileProcessor.from_file env bytes = Py.Ok records
     ∧ FitFileProcessor.process_records FitFileProcessor.no_values records []
       = Py.Ok out
     ∧ FitFileProcessor.build env out = Py.Ok fit_data
     ∧ r.2 = <[dst := fit_data]> fs)
  ∧ (r.1 = false → FitFileProcessor.unlink_ok env = true →
     r.2 = fs ∨ r.2 !! dst = None).
Proof.
  cbn zeta. unfold FitFileProcessor.cleanup_fit_file.
  destruct (fs !! src) as [bytes |] eqn:Hsrc; [| by split; [| left]].
  destruct (FitFileProcessor.access_R env src); cbn [negb]; [| by split; [| left]].
  destruct (FitFileProcessor.access_W env _); cbn [negb]; [| by split; [| left]].
  destruct (FitFileProcessor.from_file env bytes) as [records |] eqn:Hparse;
    cbn [Py.bind]; [| by split; [| left]].
  destruct (FitFileProcessor.process_records _ records []) as [out |] eqn:Hrun;
    [| by split; [| left]].
  destruct (FitFileProcessor.build env out) as [fit_data |] eqn:Hbuild.
  - destruct (FitFileProcessor.to_file env) as [| [partial |]]; cbn [fst snd].
    + split; [| done]. intros _. by exists bytes, records, out, fit_data.
    + split; [done |]. intros _ Hunlink. right. by apply unlink_partial_gone.
    + split; [done |]. intros _ Hunlink. right. by apply unlink_partial_gone.
  - cbn [fst snd]. split; [done |]. intros _ Hunlink. right.
    by apply unlink_partial_gone.
Qed.

Lemma cleanup_fit_file_fails_closed_witness :
  let src := ["data"; "MyNewActivity-1.fit"]%string in
  let dst := ["backup"; "MW_2025-01-01_100000_1.fit"]%string in
  let fs : Py.files := {[ src := [Byte.x0e]; dst := [Byte.x01] ]} in
  let env := FitFileProcessor.mkEnv (fun _ => true) (fun _ => true)
               (fun _ => Py.Ok Spec.sample_file) (fun _ => Py.Ok [Byte.x2e])
               (FitFileProcessor.WriteFailed (Some [])) true in
  (FitFileProcessor.cleanup_fit_file env fs src dst).2 = fs
  ∨ (FitFileProcessor.cleanup_fit_file env fs src dst).2 !! dst = None.
Proof.
  cbn zeta.
  apply (cleanup_fit_file_fails_closed
           (FitFileProcessor.mkEnv (fun _ => true) (fun _ => true)
              (fun _ => Py.Ok Spec.sample_file) (fun _ => Py.Ok [Byte.x2e])
              (FitFileProcessor.WriteFailed (Some [])) true)).
  - vm_compute. reflexivity.
  - reflexivity.
Defined.

(** ** The retry decorator                                                *)

(** A function that is called for the [n]-th time with outcome
    [outcomes n]; the state counts the calls. *)
Lemma retry_on_exception_script {A} (outcomes : nat → Py.result A)
    (max_retries : nat) : ∀ (calls k : nat),
  let func := fun n => (outcomes n, S n) in
  (∀ j, (calls ≤ j < calls + k)%nat → ∃ e, outcomes j = Py.Raise e) →
  (k < max_retries)%nat →
  (∀ a, outcomes (calls + k)%nat = Py.Ok a →
     FitFileProcessor.retry_on_exception max_retries func calls
     = (Some (Py.Ok a), S (calls + k)))
  ∧ (∀ e, outcomes (calls + k)%nat = Py.Raise e → S k = max_retries →
       FitFileProcessor.retry_on_exception max_retries func calls
       = (Some (Py.Raise e), S (calls + k))).
Proof.
  cbn zeta. induction max_retries as [| n IH]; intros calls k Hfail Hk; [lia |].
  destruct k as [| k].
  - rewrite Nat.add_0_r. split.
    + intros a Ha. cbn. by rewrite Ha.
    + intros e He Hn. cbn. rewrite He. by destruct n.
  - destruct (Hfail calls ltac:(lia)) as [e0 He0].
    destruct (IH (S calls) k) as [IHok IHraise];
      [intros j Hj; apply Hfail; lia | lia |].
    replace (calls + S k)%nat with (S calls + k)%nat by lia.
    split.
    + intros a Ha. cbn [FitFileProcessor.retry_on_exception]. rewrite He0.
      destruct n; [lia |]. by apply IHok.
    + intros e He Hn. cbn [FitFileProcessor.retry_on_exception]. rewrite He0.
      destruct n; [lia |]. apply IHraise; [done | lia].
Qed.

(** X3.  [retry_on_exception(max_retries)]: a function that raises on its
    first [k] calls and returns on the next one, [k < max_retries], is
    called [k + 1] times and its value is returned; a function that raises
    on all of its first [max_retries] calls is called exactly
    [max_retries] times and its last exception is re-raised; with
    [max_retries = 0] it is not called and [None] is returned. *)
Theorem retry_on_exception_calls {A} (outcomes : nat → Py.result A)
    (max_retries k : nat) :
  let func := fun n => (outcomes n, S n) in
  FitFileProcessor.retry_on_exception 0 func O = (None, O)
  ∧ ((∀ j, (j < k)%nat → ∃ e, outcomes j = Py.Raise e) →
     (k < max_retries)%nat →
     (∀ a, outcomes k = Py.Ok a →
        FitFileProcessor.retry_on_exception max_retries func O
        = (Some (Py.Ok a), S k))
     ∧ (∀ e, outcomes k = Py.Raise e → S k = max_retries →
          FitFileProcessor.retry_on_exception max_retries func O
          = (Some (Py.Raise e), max_retries))).
Proof.
  cbn zeta. split; [done |]. intros Hfail Hk.
  destruct (retry_on_exception_script outcomes max_retries 0 k) as [Hok Hraise];
    [intros j Hj; apply Hfail; lia | done |].
  split; [exact Hok |]. intros e He Hn. rewrite <- Hn at 2. by apply Hraise.
Qed.

Lemma retry_on_exception_calls_witness :
  let outcomes := fun n : nat =>
    if (n <? 1)%nat then Py.Raise Py.OSError else Py.Ok true in
  FitFileProcessor.retry_on_exception 2 (fun n => (outcomes n, S n)) O
  = (Some (Py.Ok true), 2%nat).
Proof.
  cbn zeta.
  refine (proj1 (proj2 (retry_on_exception_calls
            (fun n : nat => if (n <? 1)%nat then Py.Raise Py.OSError else Py.Ok true)
            2 1) _ _) true _).
  - intros j Hj. exists Py.OSError. by destruct j; [| lia].
  - lia.
  - reflexivity.
Defined.

(* ===================================================================== *)
(** ** The ledger and the settings store, continued                       *)
(* ===================================================================== *)

Lemma hash_matches_inv (file_hash : string) (data : Py.json) :
  FitFileManager.hash_matches file_hash data = true →
  ∃ entry, data = Py.JDict entry
           ∧ entry !! "hash"%string = Some (Py.JStr file_hash).
Proof.
  unfold FitFileManager.hash_matches, Py.eq_str.
  destruct data as [| | | | | | entry]; try done.
  destruct (entry !! "hash"%string) as [[| | | | s | |] |] eqn:Hentry; try done.
  intros Heq. apply bool_decide_eq_true in Heq. subst. by exists entry.
Qed.

(** The two ways a file is found in the ledger. *)
Lemma is_file_processed_cases (cm : ConfigManager.t)
    (processed_info : gmap string Py.json) (file_info : FileInfo) :
  ConfigManager._config cm !! "processed_files"%string
  = Some (Py.JDict processed_info) →
  FitFileManager.is_file_processed cm file_info = Py.Ok true
  ↔ (file_hash file_info ≠ ""%string
     ∧ ∃ key entry,
         processed_info !! key = Some (Py.JDict entry)
         ∧ entry !! "hash"%string = Some (Py.JStr (file_hash file_info)))
    ∨ is_Some (processed_info !! FitFileManager.file_key file_info).
Proof.
  intros Hledger. unfold FitFileManager.is_file_processed, ConfigManager.get.
  rewrite Hledger. cbn [default]. split.
  - intros [= Hhas]. unfold FitFileManager.ledger_has in Hhas.
    apply orb_true_iff in Hhas as [Hhash | Hkey].
    + left. apply andb_true_iff in Hhash as [Hne Hex].
      split; [by apply negb_true_iff, bool_decide_eq_false in Hne |].
      apply existsb_exists in Hex as ([key data] & Hin & Hmatch).
      apply list_elem_of_In, elem_of_map_to_list in Hin. cbn [snd] in Hmatch.
      apply hash_matches_inv in Hmatch as (entry & -> & Hentry).
      by exists key, entry.
    + right. by apply bool_decide_eq_true in Hkey.
  - intros [(Hne & key & entry & Hkey & Hentry) | Hkey]; f_equal.
    + by apply (ledger_has_hash _ _ key entry).
    + by apply ledger_has_key.
Qed.



Lemma isinstance_self (v : Py.json) : Py.isinstance v (Py.type_of v) = true.
Proof. by destruct v. Qed.

(** What [load] returns has the keys of the defaults and holds, under each
    of them, an instance of the type of the default. *)
Lemma load_typed (file : ConfigManager.read_outcome)
    (validated : gmap string Py.json) (warnings : list string) :
  ConfigManager.load file = Py.Ok (validated, warnings) →
  ∀ key,
    match ConfigManager._get_default_config !! key with
    | None => validated !! key = None
    | Some default_value =>
        ∃ value, validated !! key = Some value
                 ∧ Py.isinstance value (Py.type_of default_value) = true
    end.
Proof.
  assert (Hdefault : ∀ key,
    match ConfigManager._get_default_config !! key with
    | None => ConfigManager._get_default_config !! key = None
    | Some default_value =>
        ∃ value, ConfigManager._get_default_config !! key = Some value
                 ∧ Py.isinstance value (Py.type_of default_value) = true
    end).
  { intros key.
    destruct (ConfigManager._get_default_config !! key) as [dv |]; [| done].
    exists dv. split; [done | apply isinstance_self]. }
  destruct file as [| | | | doc]; cbn [ConfigManager.load];
    try done; try (by intros [= <- <-]).
  destruct doc as [| | | | | | d]; try done.
  cbn [ConfigManager._validate_config].
  destruct (validate_items_lookup d) as [Hlookup _].
  intros [= Hfold]. rewrite Hfold in Hlookup. cbn [fst] in Hlookup.
  intros key. specialize (Hlookup key).
  destruct (ConfigManager._get_default_config !! key) as [dv |]; [| done].
  destruct (d !! key) as [x |]; [| exists dv; split; [done | apply isinstance_self]].
  destruct (Py.isinstance x (Py.type_of dv)) eqn:Hinst.
  - by exists x.
  - exists dv. split; [done | apply isinstance_self].
Qed.

(** A document that is a dictionary always loads. *)
Lemma load_document_returns (d : gmap string Py.json) :
  ∃ validated warnings,
    ConfigManager.load (ConfigManager.Document (Py.JDict d))
    = Py.Ok (validated, warnings).
Proof.
  eexists _, _. cbn [ConfigManager.load ConfigManager._validate_config].
  f_equal. apply surjective_pairing.
Qed.

(** X5.  Whatever the settings file holds, a [load] that returns leaves a
    configuration with exactly the keys of the defaults, each holding an
    instance of the type of its default.  In particular the ledger is a
    dictionary, so on a loaded store [is_file_processed] and
    [mark_file_processed] never raise. *)
Theorem load_keeps_types (file : ConfigManager.read_outcome)
    (validated : gmap string Py.json) (warnings : list string)
    (dirty : bool) (file_info : FileInfo) (now : string) :
  ConfigManager.load file = Py.Ok (validated, warnings) →
  dom validated = dom ConfigManager._get_default_config
  ∧ (∀ key default_value,
       ConfigManager._get_default_config !! key = Some default_value →
       ∃ value,
         validated !! key = Some value
         ∧ Py.isinstance value (Py.type_of default_value) = true)
  ∧ (∃ processed_info,
       validated !! "processed_files"%string = Some (Py.JDict processed_info))
  ∧ (∃ answer,
       FitFileManager.is_file_processed (ConfigManager.mk validated dirty)
         file_info = Py.Ok answer)
  ∧ (∃ cm',
       FitFileManager.mark_file_processed (ConfigManager.mk validated dirty)
         file_info now = Py.Ok cm').
Proof.
  intros Hload. pose proof (load_typed _ _ _ Hload) as Htyped.
  assert (Hledger : ∃ processed_info,
    validated !! "processed_files"%string = Some (Py.JDict processed_info)).
  { specialize (Htyped "processed_files"%string).
    change (ConfigManager._get_default_config !! "processed_files"%string)
      with (Some (Py.JDict ∅)) in Htyped.
    destruct Htyped as (value & Hvalue & Hinst).
    destruct value as [| | | | | | processed_info]; try done.
    by exists processed_info. }
  split; [| split; [| split; [done |]]].
  - apply set_eq. intros key. rewrite !elem_of_dom. specialize (Htyped key).
    destruct (ConfigManager._get_default_config !! key) as [dv |].
    + destruct Htyped as (value & -> & _). split; by eexists.
    + rewrite Htyped. done.
  - intros key dv Hdv. specialize (Htyped key). by rewrite Hdv in Htyped.
  - destruct Hledger as [processed_info Hledger]. split.
    + eexists. unfold FitFileManager.is_file_processed, ConfigManager.get.
      cbn [ConfigManager._config]. by rewrite Hledger.
    + eexists. unfold FitFileManager.mark_file_processed.
      cbn [ConfigManager._config]. by rewrite Hledger.
Qed.

Lemma load_keeps_types_witness :
  ∃ validated warnings,
    ConfigManager.load
      (ConfigManager.Document
         (Py.JDict {[ "processed_files"%string := Py.JList [] ]}))
    = Py.Ok (validated, warnings)
    ∧ ∃ processed_info,
        validated !! "processed_files"%string = Some (Py.JDict processed_info).
Proof.
  destruct (load_document_returns {[ "processed_files"%string := Py.JList [] ]})
    as (validated & warnings & Hload).
  exists validated, warnings. split; [exact Hload |].
  exact (proj1 (proj2 (proj2 (load_keeps_types _ validated warnings false
           Spec.ride_file "t1" Hload)))).
Defined.

(** X6.  Validation is idempotent: a configuration that [load] returned
    passes [_validate_config] unchanged and without any warning. *)
Theorem validate_config_idempotent (file : ConfigManager.read_outcome)
    (validated : gmap string Py.json) (warnings : list string) :
  ConfigManager.load file = Py.Ok (validated, warnings) →
  ConfigManager._validate_config (Py.JDict validated) = Py.Ok (validated, [])
  ∧ ConfigManager.load (ConfigManager.Document (Py.JDict validated))
    = Py.Ok (validated, []).
Proof.
  intros Hload. pose proof (load_typed _ _ _ Hload) as Htyped.
  assert (Hagain :
    ConfigManager._validate_config (Py.JDict validated) = Py.Ok (validated, [])).
  { cbn [ConfigManager._validate_config].
    destruct (validate_items_lookup validated) as [Hlookup Hwarn].
    destruct (map_fold ConfigManager.validate_item
                (ConfigManager._get_default_config, []) validated)
      as [again warned].
    cbn [fst snd] in *. f_equal. f_equal.
    - apply map_eq. intros key. rewrite Hlookup. specialize (Htyped key).
      destruct (ConfigManager._get_default_config !! key) as [dv |]; [| done].
      destruct Htyped as (value & -> & ->). done.
    - apply elem_of_nil_inv. intros key [dv [value (Hdv & Hvalue & Hinst)]]%Hwarn.
      specialize (Htyped key). rewrite Hdv in Htyped.
      destruct Htyped as (value' & Hvalue' & Hinst'). congruence. }
  split; [exact Hagain |]. exact Hagain.
Qed.

Lemma validate_config_idempotent_witness :
  ∃ validated warnings,
    ConfigManager.load
      (ConfigManager.Document
         (Py.JDict {[ "username"%string := Py.JInt 7;
                      "colour"%string := Py.JStr "red" ]}))
    = Py.Ok (validated, warnings)
    ∧ ConfigManager._validate_config (Py.JDict validated)
      = Py.Ok (validated, []).
Proof.
  destruct (load_document_returns {[ "username"%string := Py.JInt 7;
                              "colour"%string := Py.JStr "red" ]})
    as (validated & warnings & Hload).
  exists validated, warnings. split; [exact Hload |].
  exact (proj1 (validate_config_idempotent _ validated warnings Hload)).
Defined.

(* ===================================================================== *)
(** ** The upload dispatcher, continued                                   *)
(* ===================================================================== *)

Lemma sum_snoc (l : list Z) (x : Z) : sum (l ++ [x]) = sum l + x.
Proof. rewrite sum_app. unfold sum. cbn. lia. Qed.

(** Whatever the attempts meet, the loop calls the transport at most once
    for each iteration that is left, and an iteration at index [attempt]
    sleeps at most [2 ^ (attempt + 1)] seconds. *)
Lemma attempt_loop_bounds (N : nat) (events : nat → GarminUploader.attempt_event)
    (remaining : nat) : ∀ (attempt : nat) (st : GarminUploader.state),
  let r := GarminUploader.attempt_loop N events remaining attempt st in
  (GarminUploader.upload_calls r.2
   ≤ GarminUploader.upload_calls st + remaining)%nat
  ∧ ∃ extra,
      GarminUploader.slept r.2 = GarminUploader.slept st ++ extra
      ∧ (length extra ≤ remaining)%nat
      ∧ Forall (fun s => 0 < s) extra
      ∧ sum extra
        ≤ 2 ^ (Z.of_nat (attempt + remaining) + 1) - 2 ^ (Z.of_nat attempt + 1).
Proof.
  cbn zeta. induction remaining as [| remaining IH]; intros attempt st.
  - cbn. split; [lia |]. exists []. rewrite app_nil_r, Nat.add_0_r.
    repeat split; [done | by constructor | unfold sum; cbn; lia].
  - assert (Hpow : 0 < 2 ^ Z.of_nat attempt) by (apply Z.pow_pos_nonneg; lia).
    assert (Hpow1 : 2 ^ (Z.of_nat attempt + 1) = 2 * 2 ^ Z.of_nat attempt)
      by (rewrite Z.pow_add_r by lia; lia).
    assert (Hmono : 2 ^ (Z.of_nat (S attempt) + 1)
                    ≤ 2 ^ (Z.of_nat (attempt + S remaining) + 1))
      by (apply Z.pow_le_mono_r; lia).
    assert (Hs : 2 ^ (Z.of_nat (S attempt) + 1) = 4 * 2 ^ Z.of_nat attempt).
    { replace (Z.of_nat (S attempt) + 1) with (Z.of_nat attempt + 2) by lia.
      rewrite Z.pow_add_r by lia. lia. }
    assert (Hterminal : ∀ (c : bool * bool) (st' : GarminUploader.state),
      GarminUploader.upload_calls st' = S (GarminUploader.upload_calls st) ∨
      GarminUploader.upload_calls st' = GarminUploader.upload_calls st →
      GarminUploader.slept st' = GarminUploader.slept st →
      (GarminUploader.upload_calls (c, st').2
       ≤ GarminUploader.upload_calls st + S remaining)%nat
      ∧ ∃ extra,
          GarminUploader.slept (c, st').2 = GarminUploader.slept st ++ extra
          ∧ (length extra ≤ S remaining)%nat
          ∧ Forall (fun s => 0 < s) extra
          ∧ sum extra ≤ 2 ^ (Z.of_nat (attempt + S remaining) + 1)
                        - 2 ^ (Z.of_nat attempt + 1)).
    { intros c st' Hcalls Hslept. cbn [snd]. split; [lia |].
      exists []. rewrite app_nil_r.
      repeat split; [done | cbn; lia | by constructor |].
      unfold sum; cbn. lia. }
    assert (Hnext : ∀ (naps : list Z),
      (length naps ≤ 1)%nat → Forall (fun s => 0 < s) naps →
      sum naps ≤ 2 * 2 ^ Z.of_nat attempt →
      let st' := GarminUploader.mkState (GarminUploader._is_connected st)
                   (GarminUploader.slept st ++ naps)
                   (S (GarminUploader.upload_calls st)) in
      let r := GarminUploader.attempt_loop N events remaining (S attempt) st' in
      (GarminUploader.upload_calls r.2
       ≤ GarminUploader.upload_calls st + S remaining)%nat
      ∧ ∃ extra,
          GarminUploader.slept r.2 = GarminUploader.slept st ++ extra
          ∧ (length extra ≤ S remaining)%nat
          ∧ Forall (fun s => 0 < s) extra
          ∧ sum extra ≤ 2 ^ (Z.of_nat (attempt + S remaining) + 1)
                        - 2 ^ (Z.of_nat attempt + 1)).
    { intros naps Hlen Hpos Hsum. cbn zeta.
      destruct (IH (S attempt)
                  (GarminUploader.mkState (GarminUploader._is_connected st)
                     (GarminUploader.slept st ++ naps)
                     (S (GarminUploader.upload_calls st))))
        as (Hcalls & extra & Hslept & Hlen' & Hpos' & Hsum').
      cbn [GarminUploader.upload_calls GarminUploader.slept] in *.
      split; [lia |]. exists (naps ++ extra).
      rewrite Hslept, <- app_assoc, length_app, sum_app.
      split; [done |]. split; [lia |]. split; [by apply Forall_app |].
      replace (S attempt + remaining)%nat with (attempt + S remaining)%nat
        in Hsum' by lia.
      lia. }
    cbn [GarminUploader.attempt_loop].
    destruct (negb (GarminUploader.refresh_session st (events attempt)));
      [by apply Hterminal; [right |] |].
    destruct (GarminUploader.outcome (events attempt)) as [| msg];
      [by apply Hterminal; [left |] |].
    destruct (GarminUploader.is_duplicate _); [by apply Hterminal; [left |] |].
    destruct (GarminUploader.is_unauthorized _); [by apply Hterminal; [left |] |].
    unfold GarminUploader.sleep.
    cbn [GarminUploader._is_connected GarminUploader.slept
         GarminUploader.upload_calls].
    destruct (GarminUploader.is_rate_limit _).
    { apply (Hnext [Z.min (2 ^ Z.of_nat attempt * 2) 60]);
        [done | repeat constructor; lia | unfold sum; cbn; lia]. }
    destruct (GarminUploader.is_network _ && _).
    { apply (Hnext [Z.min (2 ^ Z.of_nat attempt) 30]);
        [done | repeat constructor; lia | unfold sum; cbn; lia]. }
    destruct (Z.of_nat attempt <? Z.of_nat N - 1).
    { apply (Hnext [2 ^ Z.of_nat attempt]);
        [done | repeat constructor; lia | unfold sum; cbn; lia]. }
    pose proof (Hnext [] ltac:(cbn; lia) ltac:(constructor)
                  ltac:(unfold sum; cbn; lia)) as Hskip.
    cbn zeta in Hskip. rewrite app_nil_r in Hskip. destruct st. exact Hskip.
Qed.

(** X7.  Whatever the transport answers, one file costs at most
    [max_retries] calls of the transport and at most [max_retries] sleeps,
    of less than [2 ^ (max_retries + 1)] seconds altogether: with three
    attempts, at most three calls and less than 14 seconds of sleep. *)
Theorem upload_file_with_retry_bounded (N : nat) (tk : GarminUploader.task)
    (st : GarminUploader.state) :
  let r := GarminUploader._upload_file_with_retry N tk st in
  (GarminUploader.upload_calls r.2 ≤ GarminUploader.upload_calls st + N)%nat
  ∧ ∃ extra,
      GarminUploader.slept r.2 = GarminUploader.slept st ++ extra
      ∧ (length extra ≤ N)%nat
      ∧ Forall (fun s => 0 < s) extra
      ∧ sum extra ≤ 2 ^ (Z.of_nat N + 1) - 2
      ∧ (N = GarminUploader.MAX_RETRY_ATTEMPTS → sum extra ≤ 14).
Proof.
  cbn zeta. unfold GarminUploader._upload_file_with_retry.
  assert (Htrivial :
    (GarminUploader.upload_calls st ≤ GarminUploader.upload_calls st + N)%nat
    ∧ ∃ extra,
        GarminUploader.slept st = GarminUploader.slept st ++ extra
        ∧ (length extra ≤ N)%nat
        ∧ Forall (fun s => 0 < s) extra
        ∧ sum extra ≤ 2 ^ (Z.of_nat N + 1) - 2
        ∧ (N = GarminUploader.MAX_RETRY_ATTEMPTS → sum extra ≤ 14)).
  { split; [lia |]. exists []. rewrite app_nil_r.
    assert (2 ^ 1 ≤ 2 ^ (Z.of_nat N + 1)) by (apply Z.pow_le_mono_r; lia).
    repeat split; [cbn; lia | constructor | unfold sum; cbn; lia |].
    intros _. unfold sum; cbn; lia. }
  destruct (negb (GarminUploader.file_exists tk)); [exact Htrivial |].
  destruct (negb (GarminUploader.file_readable tk)); [exact Htrivial |].
  destruct (attempt_loop_bounds N (GarminUploader.events tk) N 0 st)
    as (Hcalls & extra & Hslept & Hlen & Hpos & Hsum).
  split; [exact Hcalls |]. exists extra.
  cbn [Nat.add Z.of_nat Z.add] in Hsum. change (2 ^ 1) with 2 in Hsum.
  repeat split; try done.
  intros ->. exact Hsum.
Qed.

Lemma upload_file_with_retry_bounded_witness :
  ∃ extra,
    GarminUploader.slept
      (GarminUploader._upload_file_with_retry GarminUploader.MAX_RETRY_ATTEMPTS
         (Spec.source_upload
            (Spec.always (GarminUploader.Raised Spec.too_many_requests_429)))
         Spec.connected).2
    = extra
    ∧ sum extra ≤ 14.
Proof.
  destruct (upload_file_with_retry_bounded GarminUploader.MAX_RETRY_ATTEMPTS
              (Spec.source_upload
                 (Spec.always (GarminUploader.Raised Spec.too_many_requests_429)))
              Spec.connected)
    as (_ & extra & Hslept & _ & _ & _ & Hsum).
  exists extra. split; [exact Hslept |]. apply Hsum. reflexivity.
Defined.






Lemma ledger_of_Some (cm : ConfigManager.t) (L : gmap string Py.json) :
  Notions.ledger_of cm = Some L
  ↔ ConfigManager._config cm !! "processed_files"%string = Some (Py.JDict L).
Proof.
  unfold Notions.ledger_of.
  destruct (ConfigManager._config cm !! "processed_files"%string)
    as [[| | | | | | L'] |]; split; try done; by intros [= ->].
Qed.

(** Marking on a store with a ledger: the entry is added, nothing else
    moves. *)
Lemma mark_file_processed_with_ledger (cm : ConfigManager.t)
    (L : gmap string Py.json) (file_info : FileInfo) (now : string) :
  Notions.ledger_of cm = Some L →
  ∃ cm',
    FitFileManager.mark_file_processed cm file_info now = Py.Ok cm'
    ∧ Notions.ledger_of cm'
      = Some (<[FitFileManager.file_key file_info
                := FitFileManager.ledger_entry file_info now]> L)
    ∧ ConfigManager._dirty cm' = ConfigManager._dirty cm
    ∧ ∀ key, key ≠ "processed_files"%string →
        ConfigManager._config cm' !! key = ConfigManager._config cm !! key.
Proof.
  intros HL%ledger_of_Some. unfold FitFileManager.mark_file_processed.
  rewrite HL. eexists. split; [done |]. cbn. split; [| split; [done |]].
  - apply ledger_of_Some. cbn. by rewrite lookup_insert_eq.
  - intros key Hkey. by rewrite lookup_insert_ne.
Qed.

(** One completed file: what the batch keeps and what it adds. *)
Lemma handle_completed_step (b : GarminUploader.batch)
    (tk : GarminUploader.task) (L : gmap string Py.json) :
  Notions.ledger_of (GarminUploader.config b) = Some L →
  let b' := GarminUploader.handle_completed b tk in
  (∃ L', Notions.ledger_of (GarminUploader.config b') = Some L'
         ∧ dom L ⊆ dom L')
  ∧ ConfigManager._dirty (GarminUploader.config b')
    = ConfigManager._dirty (GarminUploader.config b)
  ∧ (∀ key, key ≠ "processed_files"%string →
       ConfigManager._config (GarminUploader.config b') !! key
       = ConfigManager._config (GarminUploader.config b) !! key)
  ∧ GarminUploader.total (GarminUploader._upload_stats b')
    = GarminUploader.total (GarminUploader._upload_stats b)
  ∧ Notions.counted (GarminUploader._upload_stats b')
    = Notions.counted (GarminUploader._upload_stats b) + 1
  ∧ dom (GarminUploader.results b')
    = {[ GarminUploader.file_path tk ]} ∪ dom (GarminUploader.results b).
Proof.
  intros HL. cbn zeta. unfold GarminUploader.handle_completed.
  destruct (GarminUploader._upload_file_with_retry _ tk _) as [[ok dup] st].
  assert (Hsame : ∃ L', Notions.ledger_of (GarminUploader.config b) = Some L'
                        ∧ dom L ⊆ dom L') by (by exists L).
  destruct ok.
  - destruct (GarminUploader.find_file_info _ _) as [file_info |].
    + destruct (mark_file_processed_with_ledger _ L file_info
                  (GarminUploader.now tk) HL)
        as (cm' & -> & HL' & Hdirty & Hkeys).
      cbn. rewrite dom_insert_L.
      split; [eexists; split; [exact HL' |]; rewrite dom_insert_L; set_solver |].
      split; [done |]. split; [done |].
      split; [by destruct dup |].
      split; [destruct dup; unfold Notions.counted; cbn; lia | done].
    + cbn. rewrite dom_insert_L.
      split; [done |]. split; [done |]. split; [done |].
      split; [by destruct dup |].
      split; [destruct dup; unfold Notions.counted; cbn; lia | done].
  - cbn. rewrite dom_insert_L.
    split; [done |]. split; [done |]. split; [done |]. split; [done |].
    split; [unfold Notions.counted; cbn; lia | done].
Qed.

Lemma handle_completed_fold (tasks : list GarminUploader.task) :
  ∀ (b : GarminUploader.batch) (L : gmap string Py.json),
  Notions.ledger_of (GarminUploader.config b) = Some L →
  let b' := foldl GarminUploader.handle_completed b tasks in
  (∃ L', Notions.ledger_of (GarminUploader.config b') = Some L'
         ∧ dom L ⊆ dom L')
  ∧ ConfigManager._dirty (GarminUploader.config b')
    = ConfigManager._dirty (GarminUploader.config b)
  ∧ (∀ key, key ≠ "processed_files"%string →
       ConfigManager._config (GarminUploader.config b') !! key
       = ConfigManager._config (GarminUploader.config b) !! key)
  ∧ GarminUploader.total (GarminUploader._upload_stats b')
    = GarminUploader.total (GarminUploader._upload_stats b)
  ∧ Notions.counted (GarminUploader._upload_stats b')
    = Notions.counted (GarminUploader._upload_stats b) + Z.of_nat (length tasks)
  ∧ dom (GarminUploader.results b')
    = list_to_set (GarminUploader.file_path <$> tasks)
      ∪ dom (GarminUploader.results b).
Proof.
  cbn zeta. induction tasks as [| tk tasks IH]; intros b L HL.
  - cbn. repeat split; try done; [by exists L | lia | set_solver].
  - cbn [foldl].
    destruct (handle_completed_step b tk L HL)
      as ((L1 & HL1 & Hsub1) & Hdirty1 & Hkeys1 & Htotal1 & Hcount1 & Hdom1).
    destruct (IH _ L1 HL1)
      as ((L2 & HL2 & Hsub2) & Hdirty2 & Hkeys2 & Htotal2 & Hcount2 & Hdom2).
    split; [exists L2; split; [done | set_solver] |].
    split; [congruence |].
    split; [intros key Hkey; by rewrite Hkeys2, Hkeys1 |].
    split; [congruence |].
    split; [rewrite Hcount2, Hcount1; cbn [length]; lia |].
    rewrite Hdom2, Hdom1, fmap_cons. cbn [list_to_set]. set_solver.
Qed.



(** X10.  A batch only adds to the ledger.  On a store that holds a ledger,
    [upload_files] leaves a ledger with at least the keys it had, so a file
    that was processed by its name and size still is; it changes no other
    key of the configuration; and it leaves [_dirty] as it was, the ledger
    being updated in place. *)
Theorem upload_files_grows_ledger (cm : ConfigManager.t)
    (st : GarminUploader.state) (old : GarminUploader.stats)
    (tasks : list GarminUploader.task) (L : gmap string Py.json) :
  Notions.ledger_of cm = Some L →
  let cm' := GarminUploader.config
               (GarminUploader.upload_files cm st old tasks).2 in
  (∃ L', Notions.ledger_of cm' = Some L' ∧ dom L ⊆ dom L')
  ∧ (∀ file_info,
       is_Some (L !! FitFileManager.file_key file_info) →
       FitFileManager.is_file_processed cm' file_info = Py.Ok true)
  ∧ (∀ key, key ≠ "processed_files"%string →
       ConfigManager._config cm' !! key = ConfigManager._config cm !! key)
  ∧ ConfigManager._dirty cm' = ConfigManager._dirty cm.
Proof.
  intros HL. cbn zeta.
  assert (Hfold : ∃ b0,
    GarminUploader.config b0 = cm
    ∧ (GarminUploader.upload_files cm st old tasks).2
      = foldl GarminUploader.handle_completed b0 tasks).
  { unfold GarminUploader.upload_files. destruct tasks as [| tk tasks].
    - by exists (GarminUploader.mkBatch cm st ∅ old).
    - by eexists (GarminUploader.mkBatch cm st ∅ _). }
  destruct Hfold as (b0 & Hcm & ->).
  destruct (handle_completed_fold tasks b0 L)
    as ((L' & HL' & Hsub) & Hdirty & Hkeys & _); [by rewrite Hcm |].
  rewrite Hcm in Hdirty, Hkeys.
  split; [by exists L' |]. split; [| done].
  intros file_info Hkey.
  apply (is_file_processed_cases _ L'); [by apply ledger_of_Some |].
  right. apply elem_of_dom. apply Hsub. by apply elem_of_dom.
Qed.

Lemma upload_files_grows_ledger_witness :
  ∃ cm1,
    FitFileManager.mark_file_processed Spec.fresh_store Spec.ride_file "t1"
    = Py.Ok cm1
    ∧ FitFileManager.is_file_processed
        (GarminUploader.config
           (GarminUploader.upload_files cm1 Spec.connected
              (GarminUploader.mkStats 0 0 0 0)
              [Spec.cleaned_copy (Spec.always GarminUploader.Uploaded)]).2)
        Spec.ride_file = Py.Ok true.
Proof.
  destruct (FitFileManager.mark_file_processed Spec.fresh_store Spec.ride_file "t1")
    as [cm1 |] eqn:Hmark; [| by vm_compute in Hmark].
  exists cm1. split; [reflexivity |].
  destruct (mark_file_processed_with_ledger Spec.fresh_store ∅ Spec.ride_file "t1")
    as (cm1' & Hmark' & HL & _); [by vm_compute |].
  assert (cm1' = cm1) as -> by congruence.
  apply (proj1 (proj2 (upload_files_grows_ledger cm1 Spec.connected
           (GarminUploader.mkStats 0 0 0 0)
           [Spec.cleaned_copy (Spec.always GarminUploader.Uploaded)] _ HL))).
  by rewrite lookup_insert_eq.
Defined.

(** X11.  The ledger is written on one path only: a completed file changes
    the settings store only if its upload succeeded, as a new upload or as a
    duplicate, and its path is the path of a file of the scan; the store
    is then the one [mark_file_processed] returns for that file. *)
Theorem ledger_written_only_for_listed_success (b : GarminUploader.batch)
    (tk : GarminUploader.task) :
  GarminUploader.config (GarminUploader.handle_completed b tk)
  ≠ GarminUploader.config b →
  ∃ dup st file_info,
    GarminUploader._upload_file_with_retry GarminUploader.MAX_RETRY_ATTEMPTS tk
      (GarminUploader.uploader b) = ((true, dup), st)
    ∧ GarminUploader.find_file_info (GarminUploader.scan tk)
        (GarminUploader.file_path tk) = Some file_info
    ∧ FitFileManager.mark_file_processed (GarminUploader.config b) file_info
        (GarminUploader.now tk)
      = Py.Ok (GarminUploader.config (GarminUploader.handle_completed b tk)).
Proof.
  destruct (GarminUploader._upload_file_with_retry
              GarminUploader.MAX_RETRY_ATTEMPTS tk (GarminUploader.uploader b))
    as [[[] dup] st] eqn:Hup.
  - rewrite (handle_completed_succeeded b tk dup st Hup).
    destruct (GarminUploader.find_file_info _ _) as [file_info |]; [| done].
    destruct (FitFileManager.mark_file_processed _ _ _) as [cm' |] eqn:Hmark;
      [| done].
    intros _. by exists dup, st, file_info.
  - by rewrite (handle_completed_failed b tk dup st Hup).
Qed.

Lemma ledger_written_only_for_listed_success_witness :
  ∃ dup st file_info,
    GarminUploader._upload_file_with_retry GarminUploader.MAX_RETRY_ATTEMPTS
      (Spec.source_upload (Spec.always GarminUploader.Uploaded))
      Spec.connected = ((true, dup), st)
    ∧ GarminUploader.find_file_info [Spec.ride_file] (path Spec.ride_file)
      = Some file_info.
Proof.
  destruct (ledger_written_only_for_listed_success (Spec.new_batch 1)
              (Spec.source_upload (Spec.always GarminUploader.Uploaded)))
    as (dup & st & file_info & Hup & Hfind & _).
  - vm_compute. discriminate.
  - by exists dup, st, file_info.
Defined.

(* ===================================================================== *)
(** ** Marking as new and clearing the ledger                             *)
(* ===================================================================== *)

Lemma prefix_app (s t : string) : String.prefix s (s +:+ t) = true.
Proof.
  induction s as [| c s IH]; [by destruct t |].
  change (String c s +:+ t) with (String c (s +:+ t)). cbn [String.prefix].
  destruct (Ascii.ascii_dec c c); [exact IH | done].
Qed.

Lemma contains_app (s t : string) : Py.contains s (s +:+ t) = true.
Proof.
  destruct (s +:+ t) eqn:Heq; cbn [Py.contains];
    rewrite <- Heq, prefix_app; done.
Qed.

Lemma pop_all_lookup (keys : list string) : ∀ (m : gmap string Py.json) key,
  FitUploaderApp.pop_all keys m !! key
  = if decide (key ∈ keys) then None else m !! key.
Proof.
  unfold FitUploaderApp.pop_all.
  induction keys as [| k keys IH]; intros m key; cbn [foldl].
  - by rewrite decide_False by apply not_elem_of_nil.
  - rewrite IH. destruct (decide (key ∈ keys)) as [Hin | Hnotin].
    + by rewrite decide_True by (by apply elem_of_cons; right).
    + destruct (decide (key = k)) as [-> | Hne].
      * rewrite decide_True by (by apply elem_of_cons; left).
        by rewrite lookup_delete_eq.
      * rewrite decide_False by (rewrite elem_of_cons; by intros [? | ?]).
        by rewrite lookup_delete_ne.
Qed.

Lemma elem_of_keys_to_remove (info : FileInfo) (filename : string)
    (m : gmap string Py.json) (key : string) :
  key ∈ FitUploaderApp.keys_to_remove info filename m
  ↔ ∃ v, m !! key = Some v
         ∧ FitUploaderApp.to_remove info filename (key, v) = true.
Proof.
  unfold FitUploaderApp.keys_to_remove. rewrite list_elem_of_fmap. split.
  - intros ([k v] & -> & Hin). apply list_elem_of_In, filter_In in Hin as [Hin Hrm].
    apply list_elem_of_In, elem_of_map_to_list in Hin. by exists v.
  - intros (v & Hv & Hrm). exists (key, v). split; [done |].
    apply list_elem_of_In, filter_In. split; [| done].
    by apply list_elem_of_In, elem_of_map_to_list.
Qed.

Lemma ledger_has_empty (file_info : FileInfo) :
  FitFileManager.ledger_has ∅ file_info = false.
Proof.
  unfold FitFileManager.ledger_has. rewrite map_to_list_empty, lookup_empty.
  cbn [existsb]. rewrite andb_false_r. cbn [orb].
  apply bool_decide_eq_false_2. by intros [? ?].
Qed.

(** The ledger [mark_as_new] leaves. *)
Lemma mark_as_new_ledger (cm : ConfigManager.t) (file_infos : list FileInfo)
    (filename : string) (info : FileInfo) (L : gmap string Py.json) :
  Notions.ledger_of cm = Some L →
  List.find (fun f => bool_decide (name f = filename)) file_infos = Some info →
  ∃ L',
    Notions.ledger_of (FitUploaderApp.mark_as_new cm file_infos filename)
    = Some L'
    ∧ ∀ key,
        L' !! key
        = match L !! key with
          | Some v =>
              if FitUploaderApp.to_remove info filename (key, v)
              then None else Some v
          | None => None
          end.
Proof.
  intros HL%ledger_of_Some Hfind. unfold FitUploaderApp.mark_as_new.
  rewrite Hfind, HL. eexists. split.
  - apply ledger_of_Some. cbn. by rewrite lookup_insert_eq.
  - intros key. rewrite pop_all_lookup.
    destruct (L !! key) as [v |] eqn:Hv.
    + destruct (FitUploaderApp.to_remove info filename (key, v)) eqn:Hrm.
      * rewrite decide_True; [done |]. apply elem_of_keys_to_remove. by exists v.
      * rewrite decide_False; [done |].
        intros (v' & Hv' & Hrm')%elem_of_keys_to_remove. congruence.
    + by destruct (decide _).
Qed.

(** X12.  [mark_as_new] undoes the marking of the file it is called for:
    on a store that holds a ledger, the file found under the name of the
    row is not processed afterwards, whatever entries the ledger had for
    its fingerprint or under keys that contain its name.  An entry whose
    key does not contain the name and which does not carry the fingerprint
    stays as it is; and after [cleanup_processed_files] no file is
    processed. *)
Theorem mark_as_new_unmarks (cm : ConfigManager.t) (file_infos : list FileInfo)
    (filename : string) (info : FileInfo) (L : gmap string Py.json) :
  Notions.ledger_of cm = Some L →
  List.find (fun f => bool_decide (name f = filename)) file_infos = Some info →
  let cm' := FitUploaderApp.mark_as_new cm file_infos filename in
  FitFileManager.is_file_processed cm' info = Py.Ok false
  ∧ (∀ key v,
       L !! key = Some v →
       FitUploaderApp.to_remove info filename (key, v) = false →
       ∃ L', Notions.ledger_of cm' = Some L' ∧ L' !! key = Some v)
  ∧ (∀ other,
       FitFileManager.is_file_processed
         (FitUploaderApp.cleanup_processed_files cm) other = Py.Ok false).
Proof.
  intros HL Hfind. cbn zeta.
  destruct (mark_as_new_ledger cm file_infos filename info L HL Hfind)
    as (L' & HL' & Hlookup).
  assert (Hname : name info = filename).
  { apply find_some in Hfind as [_ Hname]. by apply bool_decide_eq_true in Hname. }
  split; [| split].
  - destruct (FitFileManager.is_file_processed _ info) as [[] |] eqn:Hproc.
    + exfalso.
      apply (is_file_processed_cases _ L') in Hproc; [| by apply ledger_of_Some].
      destruct Hproc as [(Hhash & key & entry & Hkey & Hentry) | [v Hkey]].
      * rewrite Hlookup in Hkey. destruct (L !! key) as [v |]; [| done].
        destruct (FitUploaderApp.to_remove info filename (key, v)) eqn:Hrm;
          [done |].
        injection Hkey as ->. unfold FitUploaderApp.to_remove in Hrm.
        cbn [snd fst] in Hrm. rewrite Hentry in Hrm. cbn [Py.eq_str] in Hrm.
        rewrite bool_decide_eq_true_2 in Hrm by done.
        by rewrite (bool_decide_eq_false_2 _ Hhash) in Hrm.
      * rewrite Hlookup in Hkey.
        destruct (L !! FitFileManager.file_key info) as [v' |]; [| done].
        assert (Hrm : FitUploaderApp.to_remove info filename
                        (FitFileManager.file_key info, v') = true).
        { unfold FitUploaderApp.to_remove, FitFileManager.file_key.
          cbn [fst snd]. rewrite Hname, contains_app.
          destruct v'; try done. by rewrite orb_true_r. }
        by rewrite Hrm in Hkey.
    + done.
    + unfold FitFileManager.is_file_processed, ConfigManager.get in Hproc.
      apply ledger_of_Some in HL'. by rewrite HL' in Hproc.
  - intros key v Hv Hrm. exists L'. split; [done |].
    by rewrite Hlookup, Hv, Hrm.
  - intros other.
    unfold FitUploaderApp.cleanup_processed_files, ConfigManager.set,
      FitFileManager.is_file_processed, ConfigManager.get.
    apply ledger_of_Some in HL. rewrite HL.
    case_bool_decide as Hempty; cbn [negb].
    + rewrite HL. cbn [default]. f_equal.
      apply dom_empty_inv_L in Hempty as ->. apply ledger_has_empty.
    + cbn. rewrite lookup_insert_eq. cbn. f_equal. apply ledger_has_empty.
Qed.

Lemma mark_as_new_unmarks_witness :
  ∃ cm1,
    FitFileManager.mark_file_processed Spec.fresh_store Spec.ride_file "t1"
    = Py.Ok cm1
    ∧ FitFileManager.is_file_processed cm1 Spec.ride_file = Py.Ok true
    ∧ FitFileManager.is_file_processed
        (FitUploaderApp.mark_as_new cm1 [Spec.ride_file] "MyNewActivity-1.fit")
        Spec.ride_file = Py.Ok false.
Proof.
  destruct (FitFileManager.mark_file_processed Spec.fresh_store Spec.ride_file "t1")
    as [cm1 |] eqn:Hmark; [| by vm_compute in Hmark].
  exists cm1. split; [reflexivity |].
  destruct (mark_file_processed_with_ledger Spec.fresh_store ∅ Spec.ride_file "t1")
    as (cm1' & Hmark' & HL & _); [by vm_compute |].
  assert (cm1' = cm1) as -> by congruence.
  split.
  - injection Hmark as <-. vm_compute. reflexivity.
  - apply (proj1 (mark_as_new_unmarks cm1 [Spec.ride_file] "MyNewActivity-1.fit"
                    Spec.ride_file _ HL eq_refl)).
Defined.


(* ===================================================================== *)
(** ** The names of the cleaned copies                                    *)
(* ===================================================================== *)

Lemma string_app_length (s t : string) :
  String.length (s +:+ t) = (String.length s + String.length t)%nat.
Proof.
  induction s as [| c s IH]; [done |].
  change (String c s +:+ t) with (String c (s +:+ t)). cbn. by rewrite IH.
Qed.

Lemma string_app_inj_r (s1 s2 t : string) : s1 +:+ t = s2 +:+ t → s1 = s2.
Proof.
  revert s2. induction s1 as [| c s1 IH]; intros [| c' s2] Heq.
  - done.
  - apply (f_equal String.length) in Heq.
    rewrite !string_app_length in Heq. cbn in Heq. lia.
  - apply (f_equal String.length) in Heq.
    rewrite !string_app_length in Heq. cbn in Heq. lia.
  - change (String c s1 +:+ t) with (String c (s1 +:+ t)) in Heq.
    change (String c' s2 +:+ t) with (String c' (s2 +:+ t)) in Heq.
    injection Heq as -> Heq. f_equal. by apply IH.
Qed.

Lemma candidate_inj (base_name : string) (i j : nat) :
  Catalog.candidate base_name i = Catalog.candidate base_name j → i = j.
Proof.
  unfold Catalog.candidate. intros Heq.
  apply (inj (String.app base_name)) in Heq.
  apply string_app_inj_r in Heq.
  destruct i as [| i], j as [| j]; [done | done | done |].
  apply (inj (String.app "_")) in Heq.
  by apply (inj pretty) in Heq.
Qed.

Lemma first_free_spec (fs : Py.files) (dir : Py.Path) (base_name : string)
    (fuel : nat) : ∀ counter : nat,
  match Catalog.first_free fs dir base_name fuel counter with
  | Some k =>
      (counter ≤ k)%nat
      ∧ fs !! (dir ++ [Catalog.candidate base_name k]) = None
      ∧ ∀ j, (counter ≤ j < k)%nat →
             is_Some (fs !! (dir ++ [Catalog.candidate base_name j]))
  | None =>
      ∀ j, (counter ≤ j < counter + fuel)%nat →
           is_Some (fs !! (dir ++ [Catalog.candidate base_name j]))
  end.
Proof.
  induction fuel as [| fuel IH]; intros counter; cbn [Catalog.first_free].
  - intros j Hj. lia.
  - case_bool_decide as Hexists.
    + specialize (IH (S counter)).
      destruct (Catalog.first_free fs dir base_name fuel (S counter)) as [k |].
      * destruct IH as (Hle & Hfree & Hbelow).
        split; [lia |]. split; [done |].
        intros j Hj. destruct (decide (j = counter)) as [-> | Hne]; [done |].
        apply Hbelow. lia.
      * intros j Hj. destruct (decide (j = counter)) as [-> | Hne]; [done |].
        apply IH. lia.
    + split; [lia |]. split.
      * by apply eq_None_not_Some.
      * intros j Hj. lia.
Qed.

(** The search for a free name ends: there are more candidates than
    files. *)
Lemma first_free_ends (fs : Py.files) (dir : Py.Path) (base_name : string) :
  is_Some (Catalog.first_free fs dir base_name (S (base.size fs)) 0).
Proof.
  pose proof (first_free_spec fs dir base_name (S (base.size fs)) 0%nat) as Hspec.
  destruct (Catalog.first_free fs dir base_name (S (base.size fs)) 0)
    as [k |]; [done |].
  exfalso.
  set (key := fun j : nat => dir ++ [Catalog.candidate base_name j]).
  set (keys := key <$> seq 0 (S (base.size fs))).
  assert (Hinj : Inj (=) (=) key).
  { intros i j Heq. unfold key in Heq. apply app_inv_head in Heq.
    injection Heq as Heq. by apply candidate_inj in Heq. }
  assert (Hnodup : NoDup keys) by (apply NoDup_fmap_2; [done | apply NoDup_seq]).
  assert (Hsub : (list_to_set keys : gset Py.Path) ⊆ dom fs).
  { intros p Hp. apply elem_of_list_to_set in Hp.
    apply list_elem_of_fmap in Hp as (j & -> & Hj).
    apply elem_of_seq in Hj. apply elem_of_dom. apply Hspec. lia. }
  apply subseteq_size in Hsub.
  rewrite size_list_to_set, size_dom in Hsub by done.
  unfold keys in Hsub. rewrite length_fmap, length_seq in Hsub. lia.
Qed.

Lemma string_app_assoc (s t u : string) : (s +:+ t) +:+ u = s +:+ (t +:+ u).
Proof.
  induction s as [| c s IH]; [done |].
  change (String c s +:+ t) with (String c (s +:+ t)).
  change (String c (s +:+ t) +:+ u) with (String c ((s +:+ t) +:+ u)).
  change (String c s +:+ (t +:+ u)) with (String c (s +:+ (t +:+ u))).
  by rewrite IH.
Qed.

Lemma drop_string_app (s t : string) :
  Catalog.drop_string (String.length s) (s +:+ t) = t.
Proof.
  induction s as [| c s IH]; [by destruct t |].
  change (String c s +:+ t) with (String c (s +:+ t)). cbn. apply IH.
Qed.

Lemma ends_with_app (s suffix : string) :
  Catalog.ends_with suffix (s +:+ suffix) = true.
Proof.
  unfold Catalog.ends_with. rewrite string_app_length.
  apply andb_true_intro. split.
  - apply Nat.leb_le. lia.
  - apply bool_decide_eq_true.
    replace (String.length s + String.length suffix - String.length suffix)%nat
      with (String.length s) by lia.
    apply drop_string_app.
Qed.

(** No name that begins with [MW_] is taken for a source file. *)
Lemma mw_name_not_matched (rest : string) :
  Catalog.matches_pattern (Catalog.MW_PREFIX +:+ rest) = false.
Proof. done. Qed.

Lemma span_digits_app (digits tail : string) :
  Notions.all_digits digits = true →
  String.prefix "." tail = true →
  Catalog.span_digits (digits +:+ tail) = (digits, tail).
Proof.
  intros Hdigits Htail. induction digits as [| c digits IH].
  - change ("" +:+ tail) with tail.
    destruct tail as [| c tail]; [done |].
    cbn [String.prefix] in Htail.
    destruct (ascii_dec "." c) as [<- |]; [done | done].
  - change (String c digits +:+ tail) with (String c (digits +:+ tail)).
    cbn [Notions.all_digits] in Hdigits.
    apply andb_prop in Hdigits as [Hc Hdigits].
    cbn [Catalog.span_digits]. rewrite Hc, IH by done. done.
Qed.

Lemma search_activity_numbered (digits : string) :
  digits ≠ EmptyString →
  Notions.all_digits digits = true →
  Catalog.search_activity ("MyNewActivity-" +:+ digits +:+ ".fit") = Some digits.
Proof.
  intros Hne Hdigits.
  assert (Hmatch : Catalog.match_activity ("MyNewActivity-" +:+ digits +:+ ".fit")
                   = Some digits).
  { unfold Catalog.match_activity. rewrite prefix_app.
    change 14%nat with (String.length "MyNewActivity-").
    rewrite drop_string_app, span_digits_app by done.
    by rewrite (bool_decide_eq_false_2 _ Hne). }
  destruct ("MyNewActivity-" +:+ digits +:+ ".fit");
    cbn [Catalog.search_activity]; by rewrite Hmatch.
Qed.

(** The name [generate_new_filename] returns, in full. *)
Lemma generate_new_filename_full (fs : Py.files)
    (backup_path : option Py.Path) (timestamp file_name : string) :
  ∃ new_name,
    Catalog.generate_new_filename fs backup_path timestamp file_name
    = Some new_name
    ∧ String.prefix ("MW_" +:+ timestamp) new_name = true
    ∧ Catalog.ends_with ".fit" new_name = true
    ∧ Catalog.matches_pattern new_name = false
    ∧ (∀ dir, backup_path = Some dir → fs !! (dir ++ [new_name]) = None)
    ∧ (∀ digits,
         digits ≠ EmptyString → Notions.all_digits digits = true →
         file_name = "MyNewActivity-" +:+ digits +:+ ".fit" →
         String.prefix ("MW_" +:+ timestamp +:+ "_" +:+ digits) new_name = true).
Proof.
  unfold Catalog.generate_new_filename.
  set (activity_num := match Catalog.search_activity file_name with
                       | Some digits => "_" +:+ digits
                       | None => EmptyString
                       end).
  assert (Hshape : ∀ suffix,
            let new_name :=
              (Catalog.MW_PREFIX +:+ timestamp +:+ activity_num) +:+ suffix +:+ ".fit" in
            String.prefix ("MW_" +:+ timestamp) new_name = true
            ∧ Catalog.ends_with ".fit" new_name = true
            ∧ Catalog.matches_pattern new_name = false
            ∧ (∀ digits,
                 digits ≠ EmptyString → Notions.all_digits digits = true →
                 file_name = "MyNewActivity-" +:+ digits +:+ ".fit" →
                 String.prefix ("MW_" +:+ timestamp +:+ "_" +:+ digits) new_name
                 = true)).
  { intros suffix new_name. subst new_name. split; [| split; [| split]].
    - rewrite !string_app_assoc, <- (string_app_assoc "MW_" timestamp).
      apply prefix_app.
    - rewrite <- !string_app_assoc. apply ends_with_app.
    - rewrite !string_app_assoc. apply mw_name_not_matched.
    - intros digits Hne Hdigits ->. subst activity_num.
      rewrite search_activity_numbered by done.
      rewrite <- !string_app_assoc.
      rewrite (string_app_assoc _ suffix ".fit"). apply prefix_app. }
  destruct backup_path as [dir |].
  - destruct (first_free_ends fs dir (Catalog.MW_PREFIX +:+ timestamp +:+ activity_num))
      as [counter Hfree].
    pose proof (first_free_spec fs dir
                  (Catalog.MW_PREFIX +:+ timestamp +:+ activity_num)
                  (S (base.size fs)) 0%nat) as Hspec.
    rewrite Hfree in Hspec |- *. destruct Hspec as (_ & Hnone & _).
    eexists. split; [reflexivity |].
    destruct (Hshape (match counter with
                      | O => EmptyString
                      | S _ => "_" +:+ pretty counter
                      end)) as (H1 & H2 & H3 & H4).
    split; [exact H1 |]. split; [exact H2 |]. split; [exact H3 |].
    split; [| exact H4].
    intros dir' [= <-]. exact Hnone.
  - eexists. split; [reflexivity |].
    destruct (Hshape EmptyString) as (H1 & H2 & H3 & H4).
    change ("" +:+ ".fit") with ".fit"%string in *.
    split; [exact H1 |]. split; [exact H2 |]. split; [exact H3 |].
    split; [| exact H4]. intros dir' [=].
Qed.

Lemma generate_new_filename_shape (fs : Py.files)
    (backup_path : option Py.Path) (timestamp file_name : string) :
  ∃ new_name,
    Catalog.generate_new_filename fs backup_path timestamp file_name
    = Some new_name
    ∧ Catalog.matches_pattern new_name = false
    ∧ (∀ dir, backup_path = Some dir → fs !! (dir ++ [new_name]) = None).
Proof.
  destruct (generate_new_filename_full fs backup_path timestamp file_name)
    as (new_name & Hname & _ & _ & Hmatch & Hfresh & _).
  by exists new_name.
Qed.

(** X13.  [generate_new_filename] always returns; the name begins with
    [MW_] and the time stamp and ends with [.fit], so that the scan of a
    source directory never takes it for a ride of MyWhoosh; with a backup
    directory, no file of that name is in it; and for a source file
    [MyNewActivity-<digits>.fit] the number of the activity follows the time
    stamp. *)
Theorem generate_new_filename_fresh (fs : Py.files)
    (backup_path : option Py.Path) (timestamp file_name : string) :
  ∃ new_name,
    Catalog.generate_new_filename fs backup_path timestamp file_name
    = Some new_name
    ∧ String.prefix ("MW_" +:+ timestamp) new_name = true
    ∧ Catalog.ends_with ".fit" new_name = true
    ∧ Catalog.matches_pattern new_name = false
    ∧ (∀ dir, backup_path = Some dir → fs !! (dir ++ [new_name]) = None)
    ∧ (∀ digits,
         digits ≠ EmptyString → Notions.all_digits digits = true →
         file_name = "MyNewActivity-" +:+ digits +:+ ".fit" →
         String.prefix ("MW_" +:+ timestamp +:+ "_" +:+ digits) new_name = true).
Proof. apply generate_new_filename_full. Qed.

Lemma generate_new_filename_fresh_witness :
  ∃ new_name,
    Catalog.generate_new_filename
      {[ ["backup"; "MW_2025-01-01_100000_1.fit"]%string := [] ]}
      (Some ["backup"%string]) "2025-01-01_100000" "MyNewActivity-1.fit"
    = Some new_name
    ∧ ({[ ["backup"; "MW_2025-01-01_100000_1.fit"]%string := [] ]} : Py.files)
      !! (["backup"%string] ++ [new_name]) = None
    ∧ String.prefix "MW_2025-01-01_100000_1" new_name = true.
Proof.
  destruct (generate_new_filename_fresh
              {[ ["backup"; "MW_2025-01-01_100000_1.fit"]%string := [] ]}
              (Some ["backup"%string]) "2025-01-01_100000" "MyNewActivity-1.fit")
    as (new_name & Hname & _ & _ & _ & Hfresh & Hnum).
  exists new_name. split; [exact Hname |]. split.
  - by apply Hfresh.
  - by apply (Hnum "1"%string).
Defined.

(* ===================================================================== *)
(** ** The cleaned copies of a batch                                      *)
(* ===================================================================== *)

Lemma cleanup_true_written (env : FitFileProcessor.environment) (fs : Py.files)
    (src dst : Py.Path) :
  (FitFileProcessor.cleanup_fit_file env fs src dst).1 = true →
  is_Some ((FitFileProcessor.cleanup_fit_file env fs src dst).2 !! dst).
Proof.
  unfold FitFileProcessor.cleanup_fit_file.
  repeat case_match; cbn [fst snd]; try done.
  intros _. by rewrite lookup_insert_eq.
Qed.

Lemma cleanup_fresh_keeps (env : FitFileProcessor.environment) (fs : Py.files)
    (src dst p : Py.Path) (bytes : list Byte.byte) :
  fs !! dst = None → fs !! p = Some bytes →
  (FitFileProcessor.cleanup_fit_file env fs src dst).2 !! p = Some bytes.
Proof.
  intros Hfresh Hp. rewrite cleanup_keeps_other_files; [done |].
  intros ->. by rewrite Hfresh in Hp.
Qed.

(** The preparation of a batch, by induction on the selected files. *)
Lemma prepare_names (env : FitFileProcessor.environment)
    (backup_path : option Py.Path) (files : list (Py.Path * string)) :
  ∀ fs : Py.files,
  ∃ processed_files fs',
    FitUploaderApp.prepare env backup_path fs files = Some (processed_files, fs')
    ∧ (∀ p bytes, fs !! p = Some bytes → fs' !! p = Some bytes)
    ∧ (backup_path = None → processed_files = files.*1 ∧ fs' = fs)
    ∧ (∀ dir, backup_path = Some dir →
         NoDup processed_files
         ∧ (length processed_files ≤ length files)%nat
         ∧ Forall (fun p : Py.Path =>
                     fs !! p = None ∧ is_Some (fs' !! p)
                     ∧ ∃ new_name,
                         p = dir ++ [new_name]
                         ∧ Catalog.matches_pattern new_name = false)
             processed_files).
Proof.
  induction files as [| [file_path timestamp] rest IH]; intros fs.
  - exists [], fs. cbn. split; [done |]. split; [done |]. split; [done |].
    intros dir _. split; [constructor |]. split; [done | constructor].
  - cbn [FitUploaderApp.prepare]. destruct backup_path as [dir |].
    + destruct (generate_new_filename_shape fs (Some dir) timestamp
                  (Py.path_name file_path))
        as (new_name & -> & Hmatch & Hfresh).
      specialize (Hfresh dir eq_refl).
      pose proof (cleanup_true_written env fs file_path (dir ++ [new_name]))
        as Hwritten.
      pose proof (cleanup_fresh_keeps env fs file_path (dir ++ [new_name]))
        as Hkeeps.
      destruct (FitFileProcessor.cleanup_fit_file env fs file_path
                  (dir ++ [new_name])) as [ok fs1].
      cbn [fst snd] in Hwritten, Hkeeps.
      destruct (IH fs1) as (ps & fs2 & -> & Hsub & _ & Hrest).
      destruct (Hrest dir eq_refl) as (Hnodup & Hlen & Hall).
      eexists _, fs2. split; [reflexivity |].
      split; [by intros p bytes Hp; apply Hsub, Hkeeps |].
      split; [done |].
      intros dir' [= <-].
      assert (Hall' : Forall (fun p : Py.Path =>
                        fs !! p = None ∧ is_Some (fs2 !! p)
                        ∧ ∃ new_name,
                            p = dir ++ [new_name]
                            ∧ Catalog.matches_pattern new_name = false) ps).
      { eapply Forall_impl; [exact Hall |].
        intros p (Hnone & Hsome & Hshape). split; [| done].
        destruct (fs !! p) as [bytes |] eqn:Hp; [| done].
        apply (Hkeeps _ _ Hfresh) in Hp. by rewrite Hnone in Hp. }
      destruct ok.
      * split; [| split].
        -- constructor; [| done]. intros Hin.
           rewrite Forall_forall in Hall. destruct (Hall _ Hin) as (Hnone & _).
           destruct (Hwritten eq_refl) as [bytes Hbytes].
           by rewrite Hnone in Hbytes.
        -- cbn. lia.
        -- constructor; [| done]. split; [done |]. split.
           ++ destruct (Hwritten eq_refl) as [bytes Hbytes].
              exists bytes. by apply Hsub.
           ++ by exists new_name.
      * split; [done |]. split; [cbn; lia | done].
    + destruct (IH fs) as (ps & fs' & -> & Hsub & Hnone & _).
      destruct (Hnone eq_refl) as [-> ->].
      eexists _, fs. split; [reflexivity |]. split; [done |].
      split; [done |]. intros dir [=].
Qed.

(** X14.  The preparation of a batch by [_upload_thread] always returns.
    It removes and overwrites nothing: every file there was is there after,
    with its content.  Without a backup directory the selected files
    themselves go to the uploader.  With one, the paths that go to the
    uploader are distinct, each is a file of the backup directory that was
    not there before and is there after, and none has a name the scan takes
    for a source file. *)
Theorem prepare_keeps_files (env : FitFileProcessor.environment)
    (backup_path : option Py.Path) (files : list (Py.Path * string)) :
  ∀ fs : Py.files,
  ∃ processed_files fs',
    FitUploaderApp.prepare env backup_path fs files = Some (processed_files, fs')
    ∧ (∀ p bytes, fs !! p = Some bytes → fs' !! p = Some bytes)
    ∧ (backup_path = None → processed_files = files.*1 ∧ fs' = fs)
    ∧ (∀ dir, backup_path = Some dir →
         NoDup processed_files
         ∧ (length processed_files ≤ length files)%nat
         ∧ Forall (fun p : Py.Path =>
                     fs !! p = None ∧ is_Some (fs' !! p)
                     ∧ ∃ new_name,
                         p = dir ++ [new_name]
                         ∧ Catalog.matches_pattern new_name = false)
             processed_files).
Proof. apply prepare_names. Qed.

Lemma prepare_keeps_files_witness :
  ∃ processed_files fs',
    FitUploaderApp.prepare Spec.sample_env (Some ["backup"%string])
      {[ path Spec.ride_file := [Byte.x00] ]}
      [(path Spec.ride_file, "2025-01-01_100000"%string)]
    = Some (processed_files, fs')
    ∧ fs' !! path Spec.ride_file = Some [Byte.x00]
    ∧ NoDup processed_files.
Proof.
  destruct (prepare_keeps_files Spec.sample_env (Some ["backup"%string])
              [(path Spec.ride_file, "2025-01-01_100000"%string)]
              {[ path Spec.ride_file := [Byte.x00] ]})
    as (processed_files & fs' & Hprepare & Hkeeps & _ & Hbackup).
  exists processed_files, fs'. split; [exact Hprepare |]. split.
  - apply Hkeeps. apply lookup_singleton_eq.
  - apply (Hbackup ["backup"%string] eq_refl).
Defined.

(* ===================================================================== *)
(** ** A batch with a backup directory                                    *)
(* ===================================================================== *)

Lemma handle_completed_unlisted (b : GarminUploader.batch)
    (tk : GarminUploader.task) :
  GarminUploader.find_file_info (GarminUploader.scan tk)
    (GarminUploader.file_path tk) = None →
  GarminUploader.config (GarminUploader.handle_completed b tk)
  = GarminUploader.config b.
Proof.
  intros Hfind. unfold GarminUploader.handle_completed.
  destruct (GarminUploader._upload_file_with_retry _ tk _) as [[ok dup] st].
  rewrite Hfind. by destruct ok.
Qed.

Lemma listed_not_found (catalog : list FileInfo) (dir : Py.Path)
    (new_name : string) :
  Forall Notions.listed catalog →
  Catalog.matches_pattern new_name = false →
  GarminUploader.find_file_info catalog (dir ++ [new_name]) = None.
Proof.
  intros Hlisted Hname. unfold GarminUploader.find_file_info.
  destruct (List.find _ catalog) as [info |] eqn:Hfind; [| done].
  apply find_some in Hfind as [Hin Hpath].
  apply bool_decide_eq_true in Hpath.
  rewrite Forall_forall in Hlisted.
  destruct (Hlisted info) as [Hmatch Hlast]; [by apply list_elem_of_In |].
  rewrite Hpath in Hlast. unfold Py.path_name in Hlast.
  rewrite last_last in Hlast. rewrite <- Hlast, Hname in Hmatch. done.
Qed.

(** X15.  With a backup directory, a batch writes nothing to the ledger,
    whatever the uploads answer: the uploader is handed the cleaned copies,
    the scan lists source files only, and no copy is found in it.  The
    store after the batch is the store before, so every file keeps the
    answer [is_file_processed] gave for it. *)
Theorem backup_batch_leaves_ledger (env : FitFileProcessor.environment)
    (dir : Py.Path) (fs fs' : Py.files) (files : list (Py.Path * string))
    (processed_files : list Py.Path) (cm : ConfigManager.t)
    (st : GarminUploader.state) (old : GarminUploader.stats)
    (tasks : list GarminUploader.task) :
  FitUploaderApp.prepare env (Some dir) fs files = Some (processed_files, fs') →
  GarminUploader.file_path <$> tasks ≡ₚ processed_files →
  Forall (fun tk => Forall Notions.listed (GarminUploader.scan tk)) tasks →
  GarminUploader.config (GarminUploader.upload_files cm st old tasks).2 = cm.
Proof.
  intros Hprepare Hperm Hscan.
  destruct (prepare_names env (Some dir) files fs)
    as (ps & fs1 & Hprepare' & _ & _ & Hbackup).
  rewrite Hprepare in Hprepare'. injection Hprepare' as <- <-.
  destruct (Hbackup dir eq_refl) as (_ & _ & Hall).
  assert (Hfold : ∀ b,
            GarminUploader.config (foldl GarminUploader.handle_completed b tasks)
            = GarminUploader.config b).
  { assert (Hin : Forall (fun tk => GarminUploader.file_path tk ∈ processed_files)
                    tasks).
    { apply Forall_forall. intros tk Htk. rewrite <- Hperm.
      apply list_elem_of_fmap. by exists tk. }
    clear Hperm Hprepare. induction tasks as [| tk tasks IH]; intros b; [done |].
    cbn [foldl]. inversion Hscan as [| ? ? Hlisted Hscan']. subst.
    inversion Hin as [| ? ? Hpath Hin']. subst.
    rewrite IH by done. apply handle_completed_unlisted.
    rewrite Forall_forall in Hall.
    destruct (Hall _ Hpath) as (_ & _ & new_name & -> & Hname).
    by apply listed_not_found. }
  unfold GarminUploader.upload_files. destruct tasks as [| tk tasks]; [done |].
  cbn [snd]. by rewrite Hfold.
Qed.

Lemma backup_batch_leaves_ledger_witness :
  ∃ processed_files fs',
    FitUploaderApp.prepare Spec.sample_env (Some ["backup"%string])
      {[ path Spec.ride_file := [Byte.x00] ]}
      [(path Spec.ride_file, "2025-01-01_100000"%string)]
    = Some (processed_files, fs')
    ∧ GarminUploader.config
        (GarminUploader.upload_files Spec.fresh_store Spec.connected
           (GarminUploader.mkStats 0 0 0 0)
           ((fun p => GarminUploader.mkTask p true true
                        (Spec.always GarminUploader.Uploaded) [Spec.ride_file]
                        "2025-01-01T10:00:05") <$> processed_files)).2
      = Spec.fresh_store.
Proof.
  destruct (prepare_names Spec.sample_env (Some ["backup"%string])
              [(path Spec.ride_file, "2025-01-01_100000"%string)]
              {[ path Spec.ride_file := [Byte.x00] ]})
    as (processed_files & fs' & Hprepare & _).
  exists processed_files, fs'. split; [exact Hprepare |].
  eapply backup_batch_leaves_ledger; [exact Hprepare | |].
  - rewrite <- list_fmap_compose. by rewrite list_fmap_id.
  - apply Forall_fmap, Forall_forall. intros p _. cbn.
    repeat constructor.
Defined.


(* ===================================================================== *)
(** ** The size shown for a file                                          *)
(* ===================================================================== *)

Lemma round_half_even_scale (a b c : Z) :
  0 < b → 0 < c →
  PyNum.round_half_even (a * c) (b * c) = PyNum.round_half_even a b.
Proof.
  intros Hb Hc. unfold PyNum.round_half_even.
  rewrite Z.div_mul_cancel_r, Z.mul_mod_distr_r by lia.
  pose proof (Z.mod_pos_bound a b Hb) as Hr.
  set (r := a mod b) in *. set (q := a / b).
  destruct (Z.ltb_spec (2 * r) b), (Z.ltb_spec (2 * (r * c)) (b * c));
    [done | nia | nia |].
  destruct (Z.ltb_spec b (2 * r)), (Z.ltb_spec (b * c) (2 * (r * c)));
    [done | nia | nia | done].
Qed.

(** [float(n)] is [n] itself below 2 ^ 53. *)
Lemma float_of_int_exact (n : Z) :
  0 < n < 2 ^ 53 →
  ∃ s, 0 ≤ s
       ∧ Catalog.float_of_int n = Py.Ok (PyNum.mkFloat (n * 2 ^ s) (- s)).
Proof.
  intros [Hpos Hlt].
  destruct (floor_log2_ratio_spec n 1 ltac:(lia) ltac:(lia)) as (He & Hlo & Hhi).
  unfold Catalog.float_of_int, PyNum.truediv, PyNum.truediv_pos.
  rewrite (Z.abs_eq n) by lia. change (Z.abs 1) with 1.
  set (e := PyNum.floor_log2_ratio n 1) in *.
  assert (HPe : 0 < 2 ^ e) by (apply Z.pow_pos_nonneg; lia).
  assert (He52 : e < 53).
  { apply (Z.pow_lt_mono_r_iff 2); [lia | lia | lia]. }
  rewrite (Z.max_l (e - 52) (-1074)) by lia.
  rewrite (Z.max_r 0 (- (e - 52))), (Z.max_l 0 (e - 52)) by lia.
  rewrite Z.pow_0_r, !Z.mul_1_r.
  replace (- (e - 52)) with (52 - e) by lia.
  assert (HPs : 0 < 2 ^ (52 - e)) by (apply Z.pow_pos_nonneg; lia).
  assert (Hround : PyNum.round_half_even (n * 2 ^ (52 - e)) 1 = n * 2 ^ (52 - e)).
  { unfold PyNum.round_half_even. rewrite Z.mod_1_r, Z.div_1_r. done. }
  rewrite Hround.
  assert (Hsmall : n * 2 ^ (52 - e) < 2 ^ 1024).
  { assert (2 ^ (52 - e) ≤ 2 ^ 52) by (apply Z.pow_le_mono_r; lia).
    assert (n * 2 ^ (52 - e) ≤ 2 ^ 53 * 2 ^ 52)
      by (apply Z.mul_le_mono_nonneg; lia).
    assert (2 ^ 53 * 2 ^ 52 < 2 ^ 1024) by (vm_compute; done).
    lia. }
  destruct (Z.eqb_spec 1 0); [lia |].
  destruct (Z.eqb_spec n 0); [lia |].
  destruct (Z.leb_spec (2 ^ 1024) (n * 2 ^ (52 - e))); [lia |].
  exists (52 - e). split; [lia |].
  cbn [Py.of_div PyNum.mant PyNum.expo].
  rewrite (Z.sgn_pos n) by lia. change (Z.sgn 1) with 1.
  rewrite !Z.mul_1_l. do 2 f_equal. lia.
Qed.

(** The turns of the loop on a float that is [n / d] exactly. *)
Lemma format_units_exact (n : Z) (units : list string) : ∀ P t d,
  0 < n → 0 < P → 0 < d → 0 < t → 2 ^ t = P * d →
  Catalog.format_units units (PyNum.mkFloat (n * P) (- t))
  = Notions.shown_in units n d.
Proof.
  induction units as [| unit rest IH]; intros P t d Hn HP Hd Ht Hpow.
  - cbn [Catalog.format_units Notions.shown_in]. f_equal.
    unfold Catalog.format_1f, Notions.exact_1f. cbn [PyNum.mant PyNum.expo].
    destruct (Z.leb_spec 0 (- t)); [lia |].
    rewrite Z.opp_involutive, Hpow.
    replace (n * P * 10) with (10 * n * P) by lia.
    rewrite (Z.mul_comm P d), round_half_even_scale by lia. done.
  - cbn [Catalog.format_units Notions.shown_in].
    assert (Hlt : Catalog.lt_1024 (PyNum.mkFloat (n * P) (- t))
                  = (n <? 1024 * d)).
    { unfold Catalog.lt_1024. cbn [PyNum.mant PyNum.expo].
      destruct (Z.leb_spec 0 (- t)); [lia |].
      rewrite Z.opp_involutive, Hpow.
      destruct (Z.ltb_spec (n * P) (1024 * (P * d))),
        (Z.ltb_spec n (1024 * d)); [done | nia | nia | done]. }
    rewrite Hlt. destruct (n <? 1024 * d).
    + assert (Hint : Catalog.is_integer (PyNum.mkFloat (n * P) (- t))
                     = (n mod d =? 0)).
      { unfold Catalog.is_integer. cbn [PyNum.mant PyNum.expo].
        destruct (Z.leb_spec 0 (- t)); [lia |]. cbn [orb].
        rewrite Z.opp_involutive, Hpow, (Z.mul_comm P d).
        rewrite Z.mul_mod_distr_r by lia.
        destruct (Z.eqb_spec (n mod d * P) 0), (Z.eqb_spec (n mod d) 0);
          [done | nia | nia | done]. }
      rewrite Hint. destruct (n mod d =? 0).
      * do 2 f_equal. unfold PyNum.int_of_float. cbn [PyNum.mant PyNum.expo].
        destruct (Z.leb_spec 0 (- t)); [lia |].
        rewrite Z.opp_involutive, Hpow, (Z.mul_comm P d).
        rewrite Z.quot_div_nonneg by nia.
        by rewrite Z.div_mul_cancel_r by lia.
      * f_equal.
        unfold Catalog.format_1f, Notions.exact_1f. cbn [PyNum.mant PyNum.expo].
        destruct (Z.leb_spec 0 (- t)); [lia |].
        rewrite Z.opp_involutive, Hpow.
        replace (n * P * 10) with (10 * n * P) by lia.
        rewrite (Z.mul_comm P d), round_half_even_scale by lia. done.
    + unfold Catalog.div_1024. cbn [PyNum.mant PyNum.expo].
      replace (- t - 10) with (- (t + 10)) by lia.
      apply IH; [done | done | lia | lia |].
      rewrite Z.pow_add_r by lia. rewrite Hpow. change (2 ^ 10) with 1024. lia.
Qed.

(** The size shown, in exact arithmetic. *)
Lemma format_size_shown (size_bytes : Z) :
  size_bytes < 2 ^ 53 →
  Catalog._format_size size_bytes = Py.Ok (Notions.shown_size size_bytes).
Proof.
  intros Hlt. unfold Catalog._format_size, Notions.shown_size.
  change (Notions.shown_in ["B"; "KB"; "MB"; "GB"]%string size_bytes 1)
    with (if size_bytes <? 1024 * 1 then
            if size_bytes mod 1 =? 0
            then pretty (size_bytes / 1) +:+ " " +:+ "B"
            else Notions.exact_1f size_bytes 1 +:+ " " +:+ "B"
          else Notions.shown_in ["KB"; "MB"; "GB"]%string size_bytes (1024 * 1)).
  change (1024 * 1) with 1024.
  destruct (Z.ltb_spec size_bytes 1024) as [Hsmall | Hbig].
  - by rewrite Z.mod_1_r, Z.div_1_r.
  - destruct (float_of_int_exact size_bytes ltac:(lia)) as (s & Hs & ->).
    cbn [Py.bind]. f_equal.
    unfold Catalog.div_1024. cbn [PyNum.mant PyNum.expo].
    replace (- s - 10) with (- (s + 10)) by lia.
    apply (format_units_exact size_bytes _ (2 ^ s) (s + 10) 1024);
      [lia | apply Z.pow_pos_nonneg; lia | lia | lia |].
    rewrite Z.pow_add_r by lia. done.
Qed.

(** X16.  Below 2 ^ 53 bytes the size shown is exact: the floating-point
    divisions of [_format_size] lose nothing, and the text is the size in
    the first unit in which it is below 1024, written as an integer when it
    is one and else rounded to one decimal, ties to even. *)
Theorem format_size_exact (size_bytes : Z) :
  size_bytes < 2 ^ 53 →
  Catalog._format_size size_bytes = Py.Ok (Notions.shown_size size_bytes).
Proof. apply format_size_shown. Qed.

Lemma format_size_exact_witness :
  Catalog._format_size 1536 = Py.Ok "1.5 KB"%string
  ∧ Catalog._format_size 1048575 = Py.Ok "1024.0 KB"%string.
Proof.
  split.
  - etrans; [apply (format_size_exact 1536); reflexivity |].
    vm_compute. reflexivity.
  - etrans; [apply (format_size_exact 1048575); reflexivity |].
    vm_compute. reflexivity.
Defined.

(* ===================================================================== *)
(** ** The scan of the source directories                                 *)
(* ===================================================================== *)

Lemma insert_newest_perm (e : Catalog.dir_entry) (l : list Catalog.dir_entry) :
  Catalog.insert_newest e l ≡ₚ e :: l.
Proof.
  induction l as [| y l IH]; cbn [Catalog.insert_newest]; [done |].
  destruct (Catalog.st_mtime e <? Catalog.st_mtime y); [| done].
  rewrite IH. apply Permutation_swap.
Qed.

Lemma sort_newest_first_perm (l : list Catalog.dir_entry) :
  Catalog.sort_newest_first l ≡ₚ l.
Proof.
  unfold Catalog.sort_newest_first.
  induction l as [| e l IH]; cbn [foldr]; [done |].
  rewrite insert_newest_perm. by f_equiv.
Qed.

Lemma insert_newest_sorted (e : Catalog.dir_entry) (l : list Catalog.dir_entry) :
  Notions.newest_first (Catalog.st_mtime <$> l) →
  Notions.newest_first (Catalog.st_mtime <$> Catalog.insert_newest e l).
Proof.
  induction l as [| y l IH]; cbn [Catalog.insert_newest].
  - intros _. cbn. split; [constructor | done].
  - intros [Hall Hsorted].
    destruct (Z.ltb_spec (Catalog.st_mtime e) (Catalog.st_mtime y)) as [Hlt | Hge].
    + rewrite fmap_cons. cbn [Notions.newest_first]. split; [| by apply IH].
      rewrite insert_newest_perm, fmap_cons. constructor; [lia | done].
    + rewrite !fmap_cons. cbn [Notions.newest_first].
      split; [| done]. constructor; [lia |].
      eapply Forall_impl; [exact Hall |]. cbn. intros u Hu. lia.
Qed.

Lemma sort_newest_first_sorted (l : list Catalog.dir_entry) :
  Notions.newest_first (Catalog.st_mtime <$> Catalog.sort_newest_first l).
Proof.
  unfold Catalog.sort_newest_first.
  induction l as [| e l IH]; cbn [foldr]; [done |].
  by apply insert_newest_sorted.
Qed.

(** What the sort keeps of a directory: the files [get_fit_files] yields. *)
Lemma sorted_files_are_rides (source_dir : option (list Catalog.dir_entry))
    (e : Catalog.dir_entry) :
  e ∈ Catalog.sort_newest_first (Catalog.get_fit_files source_dir) →
  Catalog.matches_pattern (Catalog.entry_name e) = true
  ∧ Catalog.is_file e = true
  ∧ 0 < Catalog.st_size e
  ∧ ∃ entries, source_dir = Some entries ∧ e ∈ entries.
Proof.
  rewrite sort_newest_first_perm. unfold Catalog.get_fit_files.
  destruct source_dir as [entries |]; [| by intros ?%elem_of_nil].
  intros Hin. apply list_elem_of_In, filter_In in Hin as [Hin Hride].
  apply andb_prop in Hride as [Hride Hsize].
  apply andb_prop in Hride as [Hname Hfile].
  split; [done |]. split; [done |]. split; [by apply Z.ltb_lt |].
  exists entries. split; [done |]. by apply list_elem_of_In.
Qed.

(** The body of the loop on one file, on a store that holds a ledger. *)
Lemma file_info_of_listed (format_date : Z → string) (cm : ConfigManager.t)
    (L : gmap string Py.json) (src : Catalog.source_dir)
    (e : Catalog.dir_entry) :
  Notions.ledger_of cm = Some L →
  Catalog.st_size e < 2 ^ 53 →
  ∃ info,
    Catalog.file_info_of format_date cm src e = [info]
    ∧ Notions.described info = Notions.entry_described e
    ∧ path info = Catalog.source_path src ++ [Catalog.entry_name e]
    ∧ source info = Catalog.source_name src
    ∧ date info = format_date (Catalog.st_mtime e)
    ∧ size info = Notions.shown_size (Catalog.st_size e)
    ∧ FitFileManager.is_file_processed cm info = Py.Ok (processed info).
Proof.
  intros HL Hsize. unfold Catalog.file_info_of.
  rewrite format_size_shown by done.
  apply ledger_of_Some in HL.
  unfold FitFileManager.is_file_processed, ConfigManager.get. rewrite HL.
  cbn [default]. eexists. split; [reflexivity |]. done.
Qed.

Lemma scan_entries (format_date : Z → string) (cm : ConfigManager.t)
    (L : gmap string Py.json) (src : Catalog.source_dir)
    (l : list Catalog.dir_entry) :
  Notions.ledger_of cm = Some L →
  Forall (fun e => Catalog.st_size e < 2 ^ 53
                   ∧ Catalog.matches_pattern (Catalog.entry_name e) = true
                   ∧ 0 < Catalog.st_size e) l →
  let infos := flat_map (Catalog.file_info_of format_date cm src) l in
  Notions.described <$> infos = Notions.entry_described <$> l
  ∧ path <$> infos
    = (fun e => Catalog.source_path src ++ [Catalog.entry_name e]) <$> l
  ∧ Forall (fun info =>
              Notions.listed info
              ∧ path info = Catalog.source_path src ++ [name info]
              ∧ source info = Catalog.source_name src
              ∧ size info = Notions.shown_size (size_bytes info)
              ∧ 0 < size_bytes info
              ∧ FitFileManager.is_file_processed cm info
                = Py.Ok (processed info)) infos.
Proof.
  intros HL. induction 1 as [| e l (Hsize & Hname & Hpos) Hall IH]; cbn zeta.
  - cbn. split; [done |]. split; [done | constructor].
  - cbn [flat_map].
    destruct (file_info_of_listed format_date cm L src e HL Hsize)
      as (info & -> & Hdesc & Hpath & Hsource & _ & Hshown & Hproc).
    cbn zeta in IH. destruct IH as (IHdesc & IHpath & IHall).
    change ([info] ++ ?l) with (info :: l). rewrite !fmap_cons.
    rewrite IHdesc, IHpath, Hdesc, Hpath.
    split; [done |]. split; [done |].
    constructor; [| done].
    unfold Notions.described, Notions.entry_described in Hdesc.
    injection Hdesc as Hn Hs Ht Hh.
    unfold Notions.listed. rewrite Hpath, Hn, Hs. unfold Py.path_name.
    rewrite last_last. done.
Qed.

(** X17.  What a scan lists for one source, on a store that holds a
    ledger and for files below 2 ^ 53 bytes: exactly the entries of the
    directory whose name has the form [MyNewActivity-*.fit], that are files
    and are not empty, each once, with its name, size, time and
    fingerprint; the newest first; each under the path of the directory and
    its name, with the name of the source, the size shown for its bytes,
    and the answer of [is_file_processed] as its flag.  Distinct names in
    the directory give distinct paths in the list. *)
Theorem scan_source_lists (format_date : Z → string) (cm : ConfigManager.t)
    (L : gmap string Py.json) (src : Catalog.source_dir)
    (entries : list Catalog.dir_entry) :
  Notions.ledger_of cm = Some L →
  Catalog.source_entries src = Some entries →
  Forall (fun e => Catalog.st_size e < 2 ^ 53) entries →
  let infos := Catalog.scan_source format_date cm src in
  Notions.described <$> infos
  ≡ₚ Notions.entry_described
     <$> List.filter (fun e => Catalog.matches_pattern (Catalog.entry_name e)
                               && Catalog.is_file e
                               && (0 <? Catalog.st_size e)) entries
  ∧ Notions.newest_first (modified_time <$> infos)
  ∧ Forall (fun info =>
              Notions.listed info
              ∧ path info = Catalog.source_path src ++ [name info]
              ∧ source info = Catalog.source_name src
              ∧ size info = Notions.shown_size (size_bytes info)
              ∧ 0 < size_bytes info
              ∧ FitFileManager.is_file_processed cm info
                = Py.Ok (processed info)) infos
  ∧ (NoDup (Catalog.entry_name <$> entries) → NoDup (path <$> infos)).
Proof.
  intros HL Hentries Hsizes. cbn zeta. unfold Catalog.scan_source.
  set (l := Catalog.sort_newest_first
              (Catalog.get_fit_files (Catalog.source_entries src))).
  assert (Hl : Forall (fun e => Catalog.st_size e < 2 ^ 53
                   ∧ Catalog.matches_pattern (Catalog.entry_name e) = true
                   ∧ 0 < Catalog.st_size e) l).
  { apply Forall_forall. intros e He.
    apply sorted_files_are_rides in He
      as (Hname & _ & Hpos & entries' & Hsome & Hin).
    rewrite Hentries in Hsome. injection Hsome as <-.
    rewrite Forall_forall in Hsizes. by auto. }
  destruct (scan_entries format_date cm L src l HL Hl)
    as (Hdesc & Hpath & Hall).
  assert (Hperm : l ≡ₚ List.filter
                         (fun e => Catalog.matches_pattern (Catalog.entry_name e)
                                   && Catalog.is_file e
                                   && (0 <? Catalog.st_size e)) entries).
  { subst l. rewrite sort_newest_first_perm, Hentries. done. }
  split; [by rewrite Hdesc, Hperm |]. split; [| split; [done |]].
  - replace (modified_time <$> flat_map (Catalog.file_info_of format_date cm src) l)
      with (Catalog.st_mtime <$> l); [apply sort_newest_first_sorted |].
    transitivity ((fun d : string * Z * Z * string => d.1.2)
                  <$> (Notions.entry_described <$> l)).
    + by rewrite <- list_fmap_compose.
    + rewrite <- Hdesc. by rewrite <- list_fmap_compose.
  - intros Hnodup. rewrite Hpath.
    rewrite (list_fmap_compose Catalog.entry_name
               (fun n => Catalog.source_path src ++ [n])).
    apply NoDup_fmap_2.
    + intros n1 n2 Heq. apply app_inv_head in Heq. by injection Heq.
    + rewrite Hperm. clear -Hnodup.
      induction entries as [| e entries IH]; [constructor |].
      rewrite fmap_cons in Hnodup. apply NoDup_cons in Hnodup as [Hnotin Hnodup].
      cbn [List.filter]. destruct (_ && _); [| by apply IH].
      rewrite fmap_cons. apply NoDup_cons. split; [| by apply IH].
      intros Hin. apply Hnotin.
      apply list_elem_of_fmap in Hin as (e' & -> & Hin).
      apply list_elem_of_fmap. exists e'. split; [done |].
      apply list_elem_of_In. apply list_elem_of_In, filter_In in Hin. tauto.
Qed.

Lemma scan_source_lists_witness :
  let infos := Catalog.scan_source (fun _ => ""%string) Spec.fresh_store
                 Notions.sample_source in
  Notions.newest_first (modified_time <$> infos)
  ∧ name <$> infos = ["MyNewActivity-2.fit"; "MyNewActivity-1.fit"]%string.
Proof.
  cbn zeta.
  destruct (scan_source_lists (fun _ => ""%string) Spec.fresh_store ∅
              Notions.sample_source
              [ Catalog.mkEntry "MyNewActivity-1.fit" true 1536 100 "aa";
                Catalog.mkEntry "notes.txt" true 10 300 "bb";
                Catalog.mkEntry "MyNewActivity-2.fit" true 2048 200 "cc";
                Catalog.mkEntry "MyNewActivity-3.fit" true 0 400 "" ])
    as (_ & Hsorted & _).
  - reflexivity.
  - reflexivity.
  - repeat constructor.
  - split; [exact Hsorted |]. vm_compute. reflexivity.
Defined.

(* ===================================================================== *)
(** ** The cache of the scan                                              *)
(* ===================================================================== *)

Lemma file_info_of_shape (format_date : Z → string) (cm : ConfigManager.t)
    (src : Catalog.source_dir) (e : Catalog.dir_entry) (info : FileInfo) :
  info ∈ Catalog.file_info_of format_date cm src e →
  name info = Catalog.entry_name e
  ∧ path info = Catalog.source_path src ++ [Catalog.entry_name e].
Proof.
  unfold Catalog.file_info_of.
  destruct (Catalog._format_size _) as [shown |]; [| by intros ?%elem_of_nil].
  destruct (FitFileManager.is_file_processed _ _) as [flag |];
    [| by intros ?%elem_of_nil].
  intros Hin. apply elem_of_cons in Hin as [-> | Hin]; [done |].
  by apply elem_of_nil in Hin.
Qed.

Lemma scan_source_listed (format_date : Z → string) (cm : ConfigManager.t)
    (src : Catalog.source_dir) :
  Forall Notions.listed (Catalog.scan_source format_date cm src).
Proof.
  apply Forall_forall. intros info Hin. unfold Catalog.scan_source in Hin.
  apply list_elem_of_In, in_flat_map in Hin as (e & He & Hin).
  apply list_elem_of_In in He, Hin.
  apply sorted_files_are_rides in He as (Hname & _).
  apply file_info_of_shape in Hin as [Hn Hp].
  unfold Notions.listed. rewrite Hn, Hp. unfold Py.path_name.
  by rewrite last_last.
Qed.

Lemma dict_set_values {V} (key : Py.Path) (value : V)
    (d : list (Py.Path * V)) (x : V) :
  x ∈ (Catalog.dict_set key value d).*2 → x = value ∨ x ∈ d.*2.
Proof.
  induction d as [| [k v] d IH]; cbn [Catalog.dict_set].
  - intros Hin. apply elem_of_cons in Hin as [-> | Hin]; [by left |].
    by apply elem_of_nil in Hin.
  - case_bool_decide.
    + rewrite !fmap_cons. cbn [snd]. intros Hin.
      apply elem_of_cons in Hin as [-> | Hin]; [by left |].
      right. by apply elem_of_cons; right.
    + rewrite !fmap_cons. cbn [snd]. intros Hin.
      apply elem_of_cons in Hin as [-> | Hin].
      * right. by apply elem_of_cons; left.
      * destruct (IH Hin) as [-> | Hd]; [by left |].
        right. by apply elem_of_cons; right.
Qed.

Lemma cache_of_values (file_infos : list FileInfo) (x : FileInfo) :
  x ∈ (Catalog.cache_of file_infos).*2 → x ∈ file_infos.
Proof.
  unfold Catalog.cache_of.
  assert (Hgen : ∀ acc : list (Py.Path * FileInfo),
            x ∈ (foldl (fun d info => Catalog.dict_set (path info) info d)
                   acc file_infos).*2 →
            x ∈ acc.*2 ∨ x ∈ file_infos).
  { induction file_infos as [| info l IH]; intros acc; cbn [foldl];
      [by left |].
    intros Hin. destruct (IH _ Hin) as [Hacc | Hl].
    - apply dict_set_values in Hacc as [-> | Hacc]; [| by left].
      right. by apply elem_of_cons; left.
    - right. by apply elem_of_cons; right. }
  intros Hin. destruct (Hgen [] Hin) as [Hnil | Hl]; [| done].
  by apply elem_of_nil in Hnil.
Qed.

Lemma dict_set_fresh {V} (key : Py.Path) (value : V) (d : list (Py.Path * V)) :
  key ∉ d.*1 → Catalog.dict_set key value d = d ++ [(key, value)].
Proof.
  induction d as [| [k v] d IH]; cbn [Catalog.dict_set]; [done |].
  rewrite fmap_cons. cbn [fst]. intros Hnotin.
  apply not_elem_of_cons in Hnotin as [Hne Hnotin].
  rewrite bool_decide_eq_false_2 by done. by rewrite IH.
Qed.

(** The cache of a list with distinct paths is the list. *)
Lemma cache_of_distinct (file_infos : list FileInfo) :
  NoDup (path <$> file_infos) →
  Catalog.cache_of file_infos = (fun info => (path info, info)) <$> file_infos.
Proof.
  unfold Catalog.cache_of.
  assert (Hgen : ∀ acc : list (Py.Path * FileInfo),
            NoDup (acc.*1 ++ (path <$> file_infos)) →
            foldl (fun d info => Catalog.dict_set (path info) info d)
              acc file_infos
            = acc ++ ((fun info => (path info, info)) <$> file_infos)).
  { induction file_infos as [| info l IH]; intros acc Hnodup; cbn [foldl].
    - by rewrite app_nil_r.
    - rewrite fmap_cons in Hnodup.
      assert (Hfresh : path info ∉ acc.*1).
      { apply NoDup_app in Hnodup as (_ & Hdisj & _).
        intros Hin. apply (Hdisj _ Hin). by apply elem_of_cons; left. }
      rewrite dict_set_fresh by done. rewrite IH.
      + by rewrite fmap_cons, <- (assoc_L (++)).
      + rewrite fmap_app. cbn. rewrite <- (assoc_L (++)). done. }
  intros Hnodup. by rewrite Hgen.
Qed.

(** X18.  A scan lists source files only, from the directories or from the
    cache: if the cache holds nothing else, neither does the list returned
    nor the cache after.  Every entry has a name of the form
    [MyNewActivity-*.fit] and a path that ends in it. *)
Theorem scan_files_async_listed (format_date : Z → string) (c : Catalog.cache)
    (now : Z) (cm : ConfigManager.t) (sources : list Catalog.source_dir) :
  Forall Notions.listed (Catalog._cache c).*2 →
  let r := Catalog.scan_files_async format_date c now cm sources in
  Forall Notions.listed r.1 ∧ Forall Notions.listed (Catalog._cache r.2).*2.
Proof.
  intros Hcache. cbn zeta. unfold Catalog.scan_files_async.
  destruct (Catalog.cache_is_used c now); cbn [fst snd]; [done |].
  assert (Hfresh : Forall Notions.listed
                     (flat_map (Catalog.scan_source format_date cm) sources)).
  { apply Forall_forall. intros info Hin.
    apply list_elem_of_In, in_flat_map in Hin as (src & _ & Hin).
    pose proof (scan_source_listed format_date cm src) as Hall.
    rewrite Forall_forall in Hall. by apply Hall, list_elem_of_In. }
  split; [done |]. cbn [Catalog._cache].
  apply Forall_forall. intros info Hin. apply cache_of_values in Hin.
  rewrite Forall_forall in Hfresh. by apply Hfresh.
Qed.

Lemma scan_files_async_listed_witness :
  Forall Notions.listed
    (Catalog.scan_files_async (fun _ => ""%string) (Catalog.mkCache [] None)
       0 Spec.fresh_store [Notions.sample_source]).1.
Proof.
  apply (scan_files_async_listed (fun _ => ""%string) (Catalog.mkCache [] None)
           0 Spec.fresh_store [Notions.sample_source]).
  constructor.
Defined.

(** X19.  The cache outlives the directories and the ledger.  After a scan
    that read the directories and found files, under distinct paths, a scan
    less than thirty seconds later returns the same list, whatever the
    directories and the ledger hold by then; and so does a scan any whole
    number of days and less than thirty seconds later, or earlier: the age
    of the cache is taken from the seconds of the time difference, without
    its days. *)
Theorem scan_cache_serves_stale (format_date : Z → string) (c c' : Catalog.cache)
    (now days s : Z) (cm cm' : ConfigManager.t)
    (sources sources' : list Catalog.source_dir) (file_infos : list FileInfo) :
  Catalog.cache_is_used c now = false →
  Catalog.scan_files_async format_date c now cm sources = (file_infos, c') →
  file_infos ≠ [] →
  NoDup (path <$> file_infos) →
  0 ≤ s < 30 * 1000000 →
  Catalog.scan_files_async format_date c'
    (now + days * (86400 * 1000000) + s) cm' sources'
  = (file_infos, c').
Proof.
  intros Hunused Hscan Hne Hnodup Hs.
  unfold Catalog.scan_files_async in Hscan. rewrite Hunused in Hscan.
  injection Hscan as Hinfos <-. rewrite Hinfos.
  unfold Catalog.scan_files_async, Catalog.cache_is_used.
  cbn [Catalog._cache Catalog._cache_time].
  assert (Hage : (Catalog.timedelta_seconds
                    (now + days * (86400 * 1000000) + s) now
                  <? Catalog.SCAN_CACHE_DURATION) = true).
  { unfold Catalog.timedelta_seconds, Catalog.SCAN_CACHE_DURATION.
    replace (now + days * (86400 * 1000000) + s - now)
      with (s + days * (86400 * 1000000)) by lia.
    rewrite Z.mod_add by lia. rewrite Z.mod_small by lia.
    apply Z.ltb_lt. apply Z.div_lt_upper_bound; lia. }
  rewrite Hage, cache_of_distinct by done.
  rewrite bool_decide_eq_false_2.
  - cbn [andb negb fst snd]. f_equal.
    rewrite <- list_fmap_compose. apply list_fmap_id.
  - destruct file_infos; [done | by rewrite fmap_cons].
Qed.

Lemma scan_cache_serves_stale_witness :
  let r := Catalog.scan_files_async (fun _ => ""%string)
             (Catalog.mkCache [] None) 0 Spec.fresh_store
             [Notions.sample_source] in
  Catalog.scan_files_async (fun _ => ""%string) r.2
    (0 + 1 * (86400 * 1000000) + 5000000) Spec.fresh_store []
  = (r.1, r.2).
Proof.
  cbn zeta.
  apply (scan_cache_serves_stale (fun _ => ""%string)
           (Catalog.mkCache [] None) _ 0 1 5000000 Spec.fresh_store
           Spec.fresh_store [Notions.sample_source] []).
  - reflexivity.
  - apply surjective_pairing.
  - vm_compute. discriminate.
  - apply (bool_decide_unpack _). vm_compute. exact I.
  - lia.
Defined.

(* ===================================================================== *)
(** ** The names of the sources                                           *)
(* ===================================================================== *)

Lemma source_name_of_inj (i j : nat) :
  Catalog.source_name_of i = Catalog.source_name_of j → i = j.
Proof.
  destruct i as [| i], j as [| j]; cbn [Catalog.source_name_of]; intros Heq.
  - done.
  - apply (f_equal String.length) in Heq.
    rewrite string_app_length in Heq. cbn in Heq. lia.
  - apply (f_equal String.length) in Heq.
    rewrite string_app_length in Heq. cbn in Heq. lia.
  - apply (inj (String.app "MyWhoosh_")) in Heq.
    apply (inj pretty) in Heq. congruence.
Qed.

Lemma sources_set_fresh (key : string) (value : Py.Path)
    (d : list (string * Py.Path)) :
  key ∉ d.*1 → Catalog.sources_set key value d = d ++ [(key, value)].
Proof.
  induction d as [| [k v] d IH]; cbn [Catalog.sources_set]; [done |].
  rewrite fmap_cons. cbn [fst]. intros Hnotin.
  apply not_elem_of_cons in Hnotin as [Hne Hnotin].
  rewrite bool_decide_eq_false_2 by done. by rewrite IH.
Qed.

Lemma name_sources_fresh (paths : list Py.Path) :
  ∀ (i : nat) (sources : list (string * Py.Path)),
    (∀ k, Catalog.source_name_of (i + k) ∉ sources.*1) →
    Catalog.name_sources i paths sources
    = sources ++ imap (fun k p => (Catalog.source_name_of (i + k), p)) paths.
Proof.
  induction paths as [| p paths IH]; intros i sources Hfresh;
    cbn [Catalog.name_sources imap].
  - by rewrite app_nil_r.
  - rewrite sources_set_fresh
      by (specialize (Hfresh 0%nat); by rewrite Nat.add_0_r in Hfresh).
    rewrite IH.
    + rewrite <- (assoc_L (++)). cbn [app]. rewrite Nat.add_0_r.
      do 2 f_equal. apply imap_ext. intros k p' _. unfold compose.
      by replace (i + S k)%nat with (S i + k)%nat by lia.
    + intros k. rewrite fmap_app. cbn [fmap list_fmap fst]. intros Hin.
      apply elem_of_app in Hin as [Hin | Hin].
      * apply (Hfresh (S k)). by replace (i + S k)%nat with (S i + k)%nat by lia.
      * apply elem_of_cons in Hin as [Heq | Hin]; [| by apply elem_of_nil in Hin].
        apply source_name_of_inj in Heq. lia.
Qed.

(** X20.  The first call of [get_available_sources] offers every directory
    found, in the order found, each under a name of its own: [MyWhoosh] for
    the first, which is the directory [get_mywhoosh_directory] returns, and
    [MyWhoosh_2], [MyWhoosh_3], ... for the others.  No two directories
    share a name, so none is lost in the dictionary. *)
Theorem get_available_sources_names (c : Catalog.sources_cache) (now : Z)
    (paths : list Py.Path) :
  Catalog._sources_cache c = None →
  let sources := (Catalog.get_available_sources c now paths).1 in
  sources.*2 = paths
  ∧ sources.*1 = Catalog.source_name_of <$> seq 0 (length paths)
  ∧ NoDup sources.*1
  ∧ head sources
    = (fun p => ("MyWhoosh"%string, p)) <$> Catalog.get_mywhoosh_directory paths.
Proof.
  intros Hcache. cbn zeta. unfold Catalog.get_available_sources.
  rewrite Hcache. cbn [fst].
  rewrite name_sources_fresh by (intros k Hin; by apply elem_of_nil in Hin).
  cbn [app].
  assert (Hnames : ∀ i : nat,
            (imap (fun k p => (Catalog.source_name_of (i + k), p)) paths).*1
            = Catalog.source_name_of <$> seq i (length paths)).
  { induction paths as [| p paths IH]; intros i; [done |].
    cbn [imap length seq]. rewrite !fmap_cons. cbn [fst].
    rewrite Nat.add_0_r. f_equal. rewrite <- (IH (S i)).
    f_equal. apply imap_ext. intros k p' _. unfold compose.
    by replace (i + S k)%nat with (S i + k)%nat by lia. }
  assert (Hpaths : ∀ i : nat,
            (imap (fun k p => (Catalog.source_name_of (i + k), p)) paths).*2
            = paths).
  { clear Hnames. induction paths as [| p paths IH]; intros i; [done |].
    cbn [imap]. rewrite fmap_cons. cbn [snd]. f_equal.
    rewrite <- (IH (S i)) at 2. f_equal.
    apply imap_ext. intros k p' _. unfold compose.
    by replace (i + S k)%nat with (S i + k)%nat by lia. }
  split; [apply Hpaths |]. split; [apply Hnames |]. split.
  - rewrite Hnames. apply NoDup_fmap_2; [| apply NoDup_seq].
    intros i j. apply source_name_of_inj.
  - by destruct paths.
Qed.

Lemma get_available_sources_names_witness :
  (Catalog.get_available_sources (Catalog.mkSourcesCache None None) 0
     [["one"%string]; ["two"%string]]).1.*1
  = ["MyWhoosh"; "MyWhoosh_2"]%string.
Proof.
  destruct (get_available_sources_names (Catalog.mkSourcesCache None None) 0
              [["one"%string]; ["two"%string]] eq_refl)
    as (_ & Hnames & _).
  rewrite Hnames. vm_compute. reflexivity.
Defined.

(* ===================================================================== *)
(** ** The averages of the older script                                   *)
(* ===================================================================== *)




(* ===================================================================== *)
(** ** The marks and the settings file                                    *)
(* ===================================================================== *)

Lemma upload_files_keeps_dirty (cm : ConfigManager.t)
    (st : GarminUploader.state) (old : GarminUploader.stats)
    (tasks : list GarminUploader.task) (L : gmap string Py.json) :
  Notions.ledger_of cm = Some L →
  ConfigManager._dirty
    (GarminUploader.config (GarminUploader.upload_files cm st old tasks).2)
  = ConfigManager._dirty cm.
Proof.
  intros HL. unfold GarminUploader.upload_files.
  destruct tasks as [| tk tasks]; [done |]. cbn [snd].
  by destruct (handle_completed_fold (tk :: tasks)
                 (GarminUploader.mkBatch cm st ∅
                    (GarminUploader.mkStats
                       (Z.of_nat (length (tk :: tasks))) 0 0 0)) L HL)
    as (_ & Hdirty & _).
Qed.

Lemma mark_as_new_keeps_dirty (cm : ConfigManager.t)
    (file_infos : list FileInfo) (filename : string)
    (L : gmap string Py.json) :
  Notions.ledger_of cm = Some L →
  ConfigManager._dirty (FitUploaderApp.mark_as_new cm file_infos filename)
  = ConfigManager._dirty cm.
Proof.
  intros HL%ledger_of_Some. unfold FitUploaderApp.mark_as_new.
  destruct (List.find _ file_infos); [| done]. by rewrite HL.
Qed.

Lemma save_forced (home : Py.Path)
    (dump : gmap string Py.json → list (list Byte.byte))
    (cm : ConfigManager.t) (fs : Py.files) :
  (ConfigManager.save home dump cm true fs).2 !! ConfigManager.CONFIG_FILE home
  = Some (concat (dump (ConfigManager._config cm))).
Proof.
  unfold ConfigManager.save. rewrite andb_false_r. cbn [snd].
  pose proof (save_interrupted_cases home dump cm
                (length (ConfigManager.save_ops home dump cm)) fs) as Hend.
  cbn zeta in Hend. unfold ConfigManager.save_interrupted in Hend.
  rewrite take_ge in Hend by done.
  assert (Hlen : length (ConfigManager.save_ops home dump cm)
                 = (length (dump (ConfigManager._config cm)) + 2)%nat).
  { unfold ConfigManager.save_ops. cbn [length].
    rewrite length_app, length_map. cbn. lia. }
  destruct Hend as [[H0 _] | [(k & Hk & Hle & _) | [_ ->]]]; [lia | lia |].
  by rewrite lookup_insert_eq.
Qed.

(** X22.  The marks of a batch, and the unmarking of a file, change the
    ledger in place and leave the store as clean as it was: on a clean
    store that holds a ledger, a [save] that is not forced writes nothing
    after them, and the settings file keeps the old ledger.  Only a forced
    [save], as on closing the window, writes the document with the new
    ledger. *)
Theorem marks_wait_for_forced_save (home : Py.Path)
    (dump : gmap string Py.json → list (list Byte.byte))
    (cm : ConfigManager.t) (L : gmap string Py.json)
    (st : GarminUploader.state) (old : GarminUploader.stats)
    (tasks : list GarminUploader.task) (file_infos : list FileInfo)
    (filename : string) (fs : Py.files) :
  Notions.ledger_of cm = Some L →
  ConfigManager._dirty cm = false →
  let after_batch :=
    GarminUploader.config (GarminUploader.upload_files cm st old tasks).2 in
  let after_unmark := FitUploaderApp.mark_as_new cm file_infos filename in
  ConfigManager.save home dump after_batch false fs = (after_batch, fs)
  ∧ ConfigManager.save home dump after_unmark false fs = (after_unmark, fs)
  ∧ (ConfigManager.save home dump after_batch true fs).2
    !! ConfigManager.CONFIG_FILE home
    = Some (concat (dump (ConfigManager._config after_batch))).
Proof.
  intros HL Hclean. cbn zeta. split; [| split].
  - unfold ConfigManager.save.
    by rewrite (upload_files_keeps_dirty cm st old tasks L HL), Hclean.
  - unfold ConfigManager.save.
    by rewrite (mark_as_new_keeps_dirty cm file_infos filename L HL), Hclean.
  - apply save_forced.
Qed.

Lemma marks_wait_for_forced_save_witness :
  let after_batch :=
    GarminUploader.config
      (GarminUploader.upload_files Spec.fresh_store Spec.connected
         (GarminUploader.mkStats 0 0 0 0)
         [Spec.source_upload (Spec.always GarminUploader.Uploaded)]).2 in
  ConfigManager.save ["home"%string] (fun _ => [[Byte.x7b]; [Byte.x7d]])
    after_batch false ∅
  = (after_batch, ∅).
Proof.
  cbn zeta.
  apply (marks_wait_for_forced_save ["home"%string]
           (fun _ => [[Byte.x7b]; [Byte.x7d]]) Spec.fresh_store ∅
           Spec.connected (GarminUploader.mkStats 0 0 0 0)
           [Spec.source_upload (Spec.always GarminUploader.Uploaded)]
           [] ""%string ∅).
  - reflexivity.
  - reflexivity.
Defined.
